(** * Void-Tax: the deduplication cache and the fine-decision pipeline

    A shallow embedding of [app/services/plate_cache.py],
    [app/models/schemas.py], [app/models/database.py], [app/config.py],
    [app/services/fine_service.py], [app/services/validation_api.py] and of
    [_process_plate] in [app/routers/scan.py], with the properties the
    specification states about them.  The file has three parts: the
    program, the vocabulary of the statements, and the properties.

    Conventions.
    - A Python [str] is the list of its code points.
    - A [float] is a binary64 primitive float.
    - A [datetime] and a [timedelta] are integers, in microseconds.
    - [datetime.now()] reads an external clock: the n-th reading of a run is
      [clock n], and the world counts the readings made so far.  Nothing is
      assumed of the clock; it may stand still or go back.
    - What the network answers and what [random] draws are inputs of the
      call.
    - Writes to the database append to the tables; they are taken to
      succeed.  Console output ([print]) is not modelled, and neither is
      the interleaving of concurrent requests. *)

From Stdlib Require Import ZArith NArith List Bool Lia String Ascii Floats.
From stdpp Require Import base option list gmap pretty.

Set Default Proof Using "Type".
Local Set Warnings "-inexact-float".

(** * The program *)

(** ** Python strings *)

Definition char : Type := N.
Definition str : Type := list char.

(** A literal of the source, as code points. *)
Definition lit (s : string) : str :=
  List.map N_of_ascii (list_ascii_of_string s).

Definition SPACE : char := 32%N.
Definition HYPHEN : char := 45%N.

(** ** [str.upper]

    CPython upper-cases a string code point by code point with the full
    Unicode mapping ([_PyUnicode_ToUpperFull]): most cased code points map
    to one code point, some to two or three.  The tables are those of
    Unicode 14.0 (CPython 3.11).  A run [(lo, hi, step, lo')] maps
    [lo + k * step], as long as it is at most [hi], to [lo' + k * step]. *)
Module Unicode.

Definition run : Type := N * N * N * N.

Definition upper_runs : list run := Eval cbv in
  [
    (97, 122, 1, 65); (181, 181, 1, 924); (224, 246, 1, 192);
    (248, 254, 1, 216); (255, 255, 1, 376); (257, 303, 2, 256);
    (305, 305, 1, 73); (307, 311, 2, 306); (314, 328, 2, 313);
    (331, 375, 2, 330); (378, 382, 2, 377); (383, 383, 1, 83);
    (384, 384, 1, 579); (387, 389, 2, 386); (392, 392, 1, 391);
    (396, 396, 1, 395); (402, 402, 1, 401); (405, 405, 1, 502);
    (409, 409, 1, 408); (410, 410, 1, 573); (414, 414, 1, 544);
    (417, 421, 2, 416); (424, 424, 1, 423); (429, 429, 1, 428);
    (432, 432, 1, 431); (436, 438, 2, 435); (441, 441, 1, 440);
    (445, 445, 1, 444); (447, 447, 1, 503); (453, 453, 1, 452);
    (454, 454, 1, 452); (456, 456, 1, 455); (457, 457, 1, 455);
    (459, 459, 1, 458); (460, 460, 1, 458); (462, 476, 2, 461);
    (477, 477, 1, 398); (479, 495, 2, 478); (498, 498, 1, 497);
    (499, 499, 1, 497); (501, 501, 1, 500); (505, 543, 2, 504);
    (547, 563, 2, 546); (572, 572, 1, 571); (575, 576, 1, 11390);
    (578, 578, 1, 577); (583, 591, 2, 582); (592, 592, 1, 11375);
    (593, 593, 1, 11373); (594, 594, 1, 11376); (595, 595, 1, 385);
    (596, 596, 1, 390); (598, 599, 1, 393); (601, 601, 1, 399);
    (603, 603, 1, 400); (604, 604, 1, 42923); (608, 608, 1, 403);
    (609, 609, 1, 42924); (611, 611, 1, 404); (613, 613, 1, 42893);
    (614, 614, 1, 42922); (616, 616, 1, 407); (617, 617, 1, 406);
    (618, 618, 1, 42926); (619, 619, 1, 11362); (620, 620, 1, 42925);
    (623, 623, 1, 412); (625, 625, 1, 11374); (626, 626, 1, 413);
    (629, 629, 1, 415); (637, 637, 1, 11364); (640, 640, 1, 422);
    (642, 642, 1, 42949); (643, 643, 1, 425); (647, 647, 1, 42929);
    (648, 648, 1, 430); (649, 649, 1, 580); (650, 651, 1, 433);
    (652, 652, 1, 581); (658, 658, 1, 439); (669, 669, 1, 42930);
    (670, 670, 1, 42928); (837, 837, 1, 921); (881, 883, 2, 880);
    (887, 887, 1, 886); (891, 893, 1, 1021); (940, 940, 1, 902);
    (941, 943, 1, 904); (945, 961, 1, 913); (962, 962, 1, 931);
    (963, 971, 1, 931); (972, 972, 1, 908); (973, 974, 1, 910);
    (976, 976, 1, 914); (977, 977, 1, 920); (981, 981, 1, 934);
    (982, 982, 1, 928); (983, 983, 1, 975); (985, 1007, 2, 984);
    (1008, 1008, 1, 922); (1009, 1009, 1, 929); (1010, 1010, 1, 1017);
    (1011, 1011, 1, 895); (1013, 1013, 1, 917); (1016, 1016, 1, 1015);
    (1019, 1019, 1, 1018); (1072, 1103, 1, 1040); (1104, 1119, 1, 1024);
    (1121, 1153, 2, 1120); (1163, 1215, 2, 1162); (1218, 1230, 2, 1217);
    (1231, 1231, 1, 1216); (1233, 1327, 2, 1232); (1377, 1414, 1, 1329);
    (4304, 4346, 1, 7312); (4349, 4351, 1, 7357); (5112, 5117, 1, 5104);
    (7296, 7296, 1, 1042); (7297, 7297, 1, 1044); (7298, 7298, 1, 1054);
    (7299, 7300, 1, 1057); (7301, 7301, 1, 1058); (7302, 7302, 1, 1066);
    (7303, 7303, 1, 1122); (7304, 7304, 1, 42570); (7545, 7545, 1, 42877);
    (7549, 7549, 1, 11363); (7566, 7566, 1, 42950); (7681, 7829, 2, 7680);
    (7835, 7835, 1, 7776); (7841, 7935, 2, 7840); (7936, 7943, 1, 7944);
    (7952, 7957, 1, 7960); (7968, 7975, 1, 7976); (7984, 7991, 1, 7992);
    (8000, 8005, 1, 8008); (8017, 8023, 2, 8025); (8032, 8039, 1, 8040);
    (8048, 8049, 1, 8122); (8050, 8053, 1, 8136); (8054, 8055, 1, 8154);
    (8056, 8057, 1, 8184); (8058, 8059, 1, 8170); (8060, 8061, 1, 8186);
    (8112, 8113, 1, 8120); (8126, 8126, 1, 921); (8144, 8145, 1, 8152);
    (8160, 8161, 1, 8168); (8165, 8165, 1, 8172); (8526, 8526, 1, 8498);
    (8560, 8575, 1, 8544); (8580, 8580, 1, 8579); (9424, 9449, 1, 9398);
    (11312, 11359, 1, 11264); (11361, 11361, 1, 11360); (11365, 11365, 1, 570);
    (11366, 11366, 1, 574); (11368, 11372, 2, 11367); (11379, 11379, 1, 11378);
    (11382, 11382, 1, 11381); (11393, 11491, 2, 11392); (11500, 11502, 2, 11499);
    (11507, 11507, 1, 11506); (11520, 11557, 1, 4256); (11559, 11559, 1, 4295);
    (11565, 11565, 1, 4301); (42561, 42605, 2, 42560); (42625, 42651, 2, 42624);
    (42787, 42799, 2, 42786); (42803, 42863, 2, 42802); (42874, 42876, 2, 42873);
    (42879, 42887, 2, 42878); (42892, 42892, 1, 42891); (42897, 42899, 2, 42896);
    (42900, 42900, 1, 42948); (42903, 42921, 2, 42902); (42933, 42947, 2, 42932);
    (42952, 42954, 2, 42951); (42961, 42961, 1, 42960); (42967, 42969, 2, 42966);
    (42998, 42998, 1, 42997); (43859, 43859, 1, 42931); (43888, 43967, 1, 5024);
    (65345, 65370, 1, 65313); (66600, 66639, 1, 66560); (66776, 66811, 1, 66736);
    (66967, 66977, 1, 66928); (66979, 66993, 1, 66940); (66995, 67001, 1, 66956);
    (67003, 67004, 1, 66964); (68800, 68850, 1, 68736); (71872, 71903, 1, 71840);
    (93792, 93823, 1, 93760); (125218, 125251, 1, 125184)
  ]%N.

Definition upper_special : list (N * list N) := Eval cbv in
  [
    (223, [83; 83]); (329, [700; 78]); (496, [74; 780]);
    (912, [921; 776; 769]); (944, [933; 776; 769]); (1415, [1333; 1362]);
    (7830, [72; 817]); (7831, [84; 776]); (7832, [87; 778]);
    (7833, [89; 778]); (7834, [65; 702]); (8016, [933; 787]);
    (8018, [933; 787; 768]); (8020, [933; 787; 769]); (8022, [933; 787; 834]);
    (8064, [7944; 921]); (8065, [7945; 921]); (8066, [7946; 921]);
    (8067, [7947; 921]); (8068, [7948; 921]); (8069, [7949; 921]);
    (8070, [7950; 921]); (8071, [7951; 921]); (8072, [7944; 921]);
    (8073, [7945; 921]); (8074, [7946; 921]); (8075, [7947; 921]);
    (8076, [7948; 921]); (8077, [7949; 921]); (8078, [7950; 921]);
    (8079, [7951; 921]); (8080, [7976; 921]); (8081, [7977; 921]);
    (8082, [7978; 921]); (8083, [7979; 921]); (8084, [7980; 921]);
    (8085, [7981; 921]); (8086, [7982; 921]); (8087, [7983; 921]);
    (8088, [7976; 921]); (8089, [7977; 921]); (8090, [7978; 921]);
    (8091, [7979; 921]); (8092, [7980; 921]); (8093, [7981; 921]);
    (8094, [7982; 921]); (8095, [7983; 921]); (8096, [8040; 921]);
    (8097, [8041; 921]); (8098, [8042; 921]); (8099, [8043; 921]);
    (8100, [8044; 921]); (8101, [8045; 921]); (8102, [8046; 921]);
    (8103, [8047; 921]); (8104, [8040; 921]); (8105, [8041; 921]);
    (8106, [8042; 921]); (8107, [8043; 921]); (8108, [8044; 921]);
    (8109, [8045; 921]); (8110, [8046; 921]); (8111, [8047; 921]);
    (8114, [8122; 921]); (8115, [913; 921]); (8116, [902; 921]);
    (8118, [913; 834]); (8119, [913; 834; 921]); (8124, [913; 921]);
    (8130, [8138; 921]); (8131, [919; 921]); (8132, [905; 921]);
    (8134, [919; 834]); (8135, [919; 834; 921]); (8140, [919; 921]);
    (8146, [921; 776; 768]); (8147, [921; 776; 769]); (8150, [921; 834]);
    (8151, [921; 776; 834]); (8162, [933; 776; 768]); (8163, [933; 776; 769]);
    (8164, [929; 787]); (8166, [933; 834]); (8167, [933; 776; 834]);
    (8178, [8186; 921]); (8179, [937; 921]); (8180, [911; 921]);
    (8182, [937; 834]); (8183, [937; 834; 921]); (8188, [937; 921]);
    (64256, [70; 70]); (64257, [70; 73]); (64258, [70; 76]);
    (64259, [70; 70; 73]); (64260, [70; 70; 76]); (64261, [83; 84]);
    (64262, [83; 84]); (64275, [1348; 1350]); (64276, [1348; 1333]);
    (64277, [1348; 1339]); (64278, [1358; 1350]); (64279, [1348; 1341])
  ]%N.

Definition in_run (c : N) (r : run) : bool :=
  let '(lo, hi, step, _) := r in
  (lo <=? c)%N && (c <=? hi)%N && ((c - lo) mod step =? 0)%N.

Definition run_image (c : N) (r : run) : N :=
  let '(lo, _, _, lo') := r in (lo' + (c - lo))%N.

Definition run_members (r : run) : list N :=
  let '(lo, hi, step, _) := r in
  List.map (fun k => (lo + N.of_nat k * step)%N)
           (List.seq 0 (S (N.to_nat ((hi - lo) / step)))).

Fixpoint assoc {A} (c : N) (l : list (N * A)) : option A :=
  match l with
  | [] => None
  | (k, v) :: l' => if (c =? k)%N then Some v else assoc c l'
  end.

Definition to_upper_full (c : N) : list N :=
  match List.find (in_run c) upper_runs with
  | Some r => [run_image c r]
  | None =>
      match assoc c upper_special with
      | Some v => v
      | None => [c]
      end
  end.

End Unicode.

Definition upper (s : str) : str := List.flat_map Unicode.to_upper_full s.

(** [s.replace(old, new)] for a pattern [old] of one character, the only
    kind the program uses. *)
Definition replace (old : char) (new : str) (s : str) : str :=
  List.flat_map (fun c => if (c =? old)%N then new else [c]) s.

(** ** [PlateCache._normalize_plate] (plate_cache.py) *)
Definition _normalize_plate (plate_number : str) : str :=
  replace HYPHEN [] (replace SPACE [] (upper plate_number)).

(** ** Time *)

Definition datetime : Type := Z.
Definition timedelta : Type := Z.

(** [timedelta(minutes=m)] and [timedelta(days=d)], in microseconds. *)
Definition minutes (m : Z) : timedelta := (m * 60000000)%Z.
Definition days (d : Z) : timedelta := (d * 86400000000)%Z.

(** ** Schemas (models/schemas.py) *)

Inductive ComplianceStatus : Type :=
  | COMPLIANT
  | TAX_EXPIRED
  | INSURANCE_EXPIRED
  | BOTH_EXPIRED.

Module VehicleStatus.
Record t : Type := mk {
  plate_number : str;
  owner_name : option str;
  owner_id : option str;
  road_tax_valid : bool;
  road_tax_expiry : option datetime;
  insurance_valid : bool;
  insurance_expiry : option datetime
}.

Definition is_compliant (self : t) : bool :=
  road_tax_valid self && insurance_valid self.

Definition compliance_status (self : t) : ComplianceStatus :=
  if road_tax_valid self && insurance_valid self then COMPLIANT
  else if negb (road_tax_valid self) && negb (insurance_valid self) then BOTH_EXPIRED
  else if negb (road_tax_valid self) then TAX_EXPIRED
  else INSURANCE_EXPIRED.
End VehicleStatus.

Module ScanResult.
Record t : Type := mk {
  plate_number : str;
  confidence : float;
  cached : bool;
  vehicle_status : option VehicleStatus.t;
  fine_issued : bool;
  fine_amount : option float;
  error : option str
}.
End ScanResult.

Module FineRecord.
Record t : Type := mk {
  id : option Z;
  plate_number : str;
  owner_name : option str;
  owner_id : option str;
  fine_type : str;
  fine_amount : float;
  issued_at : datetime;
  paid : bool
}.
End FineRecord.

(** ** Tables (models/database.py) *)

Module Fine.
Record t : Type := mk {
  id : Z;
  plate_number : str;
  owner_name : option str;
  owner_id : option str;
  fine_type : str;
  fine_amount : float;
  issued_at : datetime;
  paid : bool;
  paid_at : option datetime
}.
End Fine.

Module ScanLog.
Record t : Type := mk {
  id : Z;
  plate_number : str;
  scanned_at : datetime;
  confidence : float;
  road_tax_valid : option bool;
  insurance_valid : option bool;
  fine_issued : bool;
  cached_result : bool
}.
End ScanLog.

(** The key an integer primary key gets on insertion: one more than the
    largest in the table. *)
Definition next_id (ids : list Z) : Z :=
  (1 + List.fold_right Z.max 0 ids)%Z.

(** ** Settings (config.py) *)

Module Settings.
Record t : Type := mk {
  cache_cooldown_min : Z;
  external_api_timeout : Z;
  road_tax_fine_amount : float;
  insurance_fine_amount : float
}.

(** The values of the class, used where the environment sets no other. *)
Definition default : t :=
  {| cache_cooldown_min := 5;
     external_api_timeout := 10;
     road_tax_fine_amount := 150.00;
     insurance_fine_amount := 300.00 |}.
End Settings.

(** ** The cache's data (services/plate_cache.py) *)

Module CacheEntry.
Record t : Type := mk {
  plate_number : str;
  result : VehicleStatus.t;
  timestamp : datetime
}.

(** [is_expired]; [now] is the clock reading the method makes. *)
Definition is_expired (self : t) (now : datetime) (cooldown : timedelta) : bool :=
  (cooldown <? now - timestamp self)%Z.
End CacheEntry.

Module PlateCache.
Record t : Type := mk {
  _cooldown : timedelta;
  _cache : gmap str CacheEntry.t;
  _hit_count : Z;
  _miss_count : Z
}.

(** [cooldown_minutes or settings.cache_cooldown_min]: [None] and [0]
    both give the setting. *)
Definition init (settings : Settings.t) (cooldown_minutes : option Z) : t :=
  {| _cooldown :=
       minutes (match cooldown_minutes with
                | Some m => if (m =? 0)%Z then Settings.cache_cooldown_min settings else m
                | None => Settings.cache_cooldown_min settings
                end);
     _cache := ∅;
     _hit_count := 0;
     _miss_count := 0 |}.

Definition with_cache (m : gmap str CacheEntry.t) (self : t) : t :=
  {| _cooldown := _cooldown self; _cache := m;
     _hit_count := _hit_count self; _miss_count := _miss_count self |}.

Definition hit (self : t) : t :=
  {| _cooldown := _cooldown self; _cache := _cache self;
     _hit_count := _hit_count self + 1; _miss_count := _miss_count self |}.

Definition miss (self : t) : t :=
  {| _cooldown := _cooldown self; _cache := _cache self;
     _hit_count := _hit_count self; _miss_count := _miss_count self + 1 |}.
End PlateCache.

(** ** The fine service's data (services/fine_service.py) *)

Module FineService.
Record t : Type := mk {
  _road_tax_fine : float;
  _insurance_fine : float
}.

Definition init (settings : Settings.t) : t :=
  {| _road_tax_fine := Settings.road_tax_fine_amount settings;
     _insurance_fine := Settings.insurance_fine_amount settings |}.

(** [calculate_fine] *)
Definition calculate_fine (self : t) (vehicle_status : VehicleStatus.t)
  : float * str :=
  let status := VehicleStatus.compliance_status vehicle_status in
  match status with
  | BOTH_EXPIRED => ((_road_tax_fine self + _insurance_fine self)%float, lit "both")
  | TAX_EXPIRED => (_road_tax_fine self, lit "road_tax")
  | INSURANCE_EXPIRED => (_insurance_fine self, lit "insurance")
  | COMPLIANT => (0.0%float, lit "none")
  end.
End FineService.

(** ** The outside world *)

(** What an HTTP request comes to: a response, or [httpx.RequestError]
    (no connection, time-out, ...). *)
Inductive HttpResult (B : Type) : Type :=
  | Response (status_code : Z) (body : B)
  | RequestError.
Arguments Response {B} status_code body.
Arguments RequestError {B}.

(** The body of [GET /vehicle/{plate}], as [check_vehicle] reads it: a field
    is [None] when the key is absent.  Bodies of the expected types only. *)
Module VehicleJson.
Record t : Type := mk {
  owner_name : option str;
  owner_id : option str;
  road_tax_valid : option bool;
  road_tax_expiry : option datetime;
  insurance_valid : option bool;
  insurance_expiry : option datetime
}.
End VehicleJson.

(** What [random] returns in [_get_mock_status] once seeded: the two calls
    of [random.random()] and the two of [random.randint]. *)
Module MockDraws.
Record t : Type := mk {
  random1 : float;
  random2 : float;
  randint1 : Z;
  randint2 : Z
}.
End MockDraws.

Record Env : Type := {
  clock : nat -> datetime;                     (* the n-th [datetime.now()] *)
  http_get : str -> HttpResult VehicleJson.t;  (* by request path *)
  http_post : HttpResult unit;                 (* [POST /fines] *)
  random_seeded : Z -> MockDraws.t;            (* by seed *)
  fine_service : FineService.t                 (* the global instance *)
}.

(** The program's state: the global cache, the two tables, and the number
    of clock readings made. *)
Record World : Type := {
  plate_cache : PlateCache.t;
  fines : list Fine.t;
  scan_logs : list ScanLog.t;
  ticks : nat
}.

Definition with_plate_cache (c : PlateCache.t) (w : World) : World :=
  {| plate_cache := c; fines := fines w; scan_logs := scan_logs w; ticks := ticks w |}.

(** ** Computations: state and exceptions *)

Inductive Exception : Type := Exc (message : str).

Definition str_of_exception (e : Exception) : str :=
  let 'Exc m := e in m.

Inductive Result (A : Type) : Type :=
  | Return (a : A)
  | Raise (e : Exception).
Arguments Return {A} a.
Arguments Raise {A} e.

Definition M (A : Type) : Type := Env -> World -> Result A * World.

#[export] Instance M_ret : MRet M := fun A a _ w => (Return a, w).

#[export] Instance M_bind : MBind M := fun A B f m env w =>
  match m env w with
  | (Return a, w') => f a env w'
  | (Raise e, w') => (Raise e, w')
  end.

Definition raise {A} (e : Exception) : M A := fun _ w => (Raise e, w).

(** [try: body except Exception as e: handler e]; what [body] did to the
    state before it raised stays done. *)
Definition try_except {A} (body : M A) (handler : Exception -> M A) : M A :=
  fun env w =>
    match body env w with
    | (Return a, w') => (Return a, w')
    | (Raise e, w') => handler e env w'
    end.

Definition ask : M Env := fun env w => (Return env, w).
Definition get : M World := fun _ w => (Return w, w).
Definition modify (f : World -> World) : M unit := fun _ w => (Return tt, f w).

(** [datetime.now()] *)
Definition now : M datetime := fun env w =>
  (Return (clock env (ticks w)),
   {| plate_cache := plate_cache w; fines := fines w;
      scan_logs := scan_logs w; ticks := S (ticks w) |}).

(** ** [PlateCache]: the methods (services/plate_cache.py)

    The methods act on the global instance [plate_cache].  The lock each one
    takes is not modelled: calls do not interleave here. *)

Definition modify_cache (f : PlateCache.t -> PlateCache.t) : M unit :=
  modify (fun w => with_plate_cache (f (plate_cache w)) w).

Definition drop_entry (normalized : str) (self : PlateCache.t) : PlateCache.t :=
  PlateCache.with_cache (delete normalized (PlateCache._cache self)) self.

Definition is_recently_scanned (plate_number : str) : M bool :=
  let normalized := _normalize_plate plate_number in
  w ← get;
  let self := plate_cache w in
  match PlateCache._cache self !! normalized with
  | Some entry =>
      t ← now;
      if negb (CacheEntry.is_expired entry t (PlateCache._cooldown self))
      then mret true
      else (modify_cache (drop_entry normalized);; mret false)
  | None => mret false
  end.

Definition get_cached_result (plate_number : str) : M (option VehicleStatus.t) :=
  let normalized := _normalize_plate plate_number in
  w ← get;
  let self := plate_cache w in
  match PlateCache._cache self !! normalized with
  | Some entry =>
      t ← now;
      if negb (CacheEntry.is_expired entry t (PlateCache._cooldown self))
      then (modify_cache PlateCache.hit;; mret (Some (CacheEntry.result entry)))
      else (modify_cache (drop_entry normalized);;
            modify_cache PlateCache.miss;; mret None)
  | None => modify_cache PlateCache.miss;; mret None
  end.

Definition add_plate (plate_number : str) (result : VehicleStatus.t) : M unit :=
  let normalized := _normalize_plate plate_number in
  t ← now;
  modify_cache (fun self =>
    PlateCache.with_cache
      (<[normalized := {| CacheEntry.plate_number := normalized;
                          CacheEntry.result := result;
                          CacheEntry.timestamp := t |}]> (PlateCache._cache self))
      self).

(** The comprehension of [cleanup_expired]: [is_expired] reads the clock once
    for each entry. *)
Fixpoint expired_keys (cooldown : timedelta) (items : list (str * CacheEntry.t))
  : M (list str) :=
  match items with
  | [] => mret []
  | (key, entry) :: items' =>
      t ← now;
      keys ← expired_keys cooldown items';
      mret (if CacheEntry.is_expired entry t cooldown then key :: keys else keys)
  end.

(** [cleanup_expired]; the entries are visited in the order of
    [map_to_list], the dictionary's own order is not kept in the model. *)
Definition cleanup_expired : M Z :=
  w ← get;
  let self := plate_cache w in
  keys ← expired_keys (PlateCache._cooldown self) (map_to_list (PlateCache._cache self));
  modify_cache (fun self => List.fold_left (fun c key => drop_entry key c) keys self);;
  mret (Z.of_nat (length keys)).

Definition clear : M unit :=
  modify_cache (fun self =>
    {| PlateCache._cooldown := PlateCache._cooldown self;
       PlateCache._cache := ∅;
       PlateCache._hit_count := 0;
       PlateCache._miss_count := 0 |}).

(** ** [ValidationAPIClient] (services/validation_api.py) *)

Definition mock_names : list str :=
  [ lit "Ahmad bin Abdullah"; lit "Tan Wei Ming"; lit "Siti Nurhaliza";
    lit "Raj Kumar"; lit "Lee Chong Wei"; lit "Maria Gonzales";
    lit "Wong Kar Wai"; lit "Fatimah binti Hassan"; lit "Chen Xiaoming" ].

(** [sum(ord(c) for c in plate_number)] *)
Definition ord_sum (plate_number : str) : Z :=
  List.fold_right (fun c acc => (Z.of_N c + acc)%Z) 0%Z plate_number.

(** [str(d)] for a digit [d]. *)
Definition digit (d : Z) : char := (48 + Z.to_N d)%N.

Definition _get_mock_status (plate_number : str) : M VehicleStatus.t :=
  env ← ask;
  let seed := ord_sum plate_number in
  let draws := random_seeded env seed in
  let is_tax_valid := (MockDraws.random1 draws <? 0.6)%float in
  let is_insurance_valid := (MockDraws.random2 draws <? 0.7)%float in
  let mock_name := List.nth (Z.to_nat (seed mod 9)) mock_names [] in
  let mock_id :=
    List.map (fun i => digit ((seed * 7 + Z.of_nat i) mod 10)) (List.seq 0 12) in
  t ← now;
  let tax_expiry :=
    if is_tax_valid then (t + days (MockDraws.randint1 draws))%Z
    else (t - days (MockDraws.randint1 draws))%Z in
  let insurance_expiry :=
    if is_insurance_valid then (t + days (MockDraws.randint2 draws))%Z
    else (t - days (MockDraws.randint2 draws))%Z in
  mret {| VehicleStatus.plate_number := plate_number;
          VehicleStatus.owner_name := Some mock_name;
          VehicleStatus.owner_id := Some mock_id;
          VehicleStatus.road_tax_valid := is_tax_valid;
          VehicleStatus.road_tax_expiry := Some tax_expiry;
          VehicleStatus.insurance_valid := is_insurance_valid;
          VehicleStatus.insurance_expiry := Some insurance_expiry |}.

Definition check_vehicle (plate_number : str) : M VehicleStatus.t :=
  env ← ask;
  match http_get env (lit "/vehicle/" ++ plate_number) with
  | Response status_code data =>
      if (status_code =? 200)%Z then
        mret {| VehicleStatus.plate_number := plate_number;
                VehicleStatus.owner_name := VehicleJson.owner_name data;
                VehicleStatus.owner_id := VehicleJson.owner_id data;
                VehicleStatus.road_tax_valid :=
                  default true (VehicleJson.road_tax_valid data);
                VehicleStatus.road_tax_expiry := VehicleJson.road_tax_expiry data;
                VehicleStatus.insurance_valid :=
                  default true (VehicleJson.insurance_valid data);
                VehicleStatus.insurance_expiry := VehicleJson.insurance_expiry data |}
      else if (status_code =? 404)%Z then
        (* Vehicle not found in system - assume compliant (new vehicle) *)
        mret {| VehicleStatus.plate_number := plate_number;
                VehicleStatus.owner_name := None;
                VehicleStatus.owner_id := None;
                VehicleStatus.road_tax_valid := true;
                VehicleStatus.road_tax_expiry := None;
                VehicleStatus.insurance_valid := true;
                VehicleStatus.insurance_expiry := None |}
      else
        raise (Exc (lit "API returned status " ++ lit (pretty status_code)))
  | RequestError =>
      (* Network error - use mock data for demo *)
      _get_mock_status plate_number
  end.

Definition notify_fine (plate_number : str) (fine_amount : float) (fine_type : str)
  : M bool :=
  env ← ask;
  _ ← now;
  match http_post env with
  | Response status_code _ => mret ((status_code =? 200)%Z || (status_code =? 201)%Z)
  | RequestError => mret false
  end.

(** ** [FineService]: the methods (services/fine_service.py) *)

Definition add_fine (fine : Fine.t) (w : World) : World :=
  {| plate_cache := plate_cache w; fines := fines w ++ [fine];
     scan_logs := scan_logs w; ticks := ticks w |}.

Definition add_scan_log (scan_log : ScanLog.t) (w : World) : World :=
  {| plate_cache := plate_cache w; fines := fines w;
     scan_logs := scan_logs w ++ [scan_log]; ticks := ticks w |}.

Definition FineRecord_of (f : Fine.t) : FineRecord.t :=
  {| FineRecord.id := Some (Fine.id f);
     FineRecord.plate_number := Fine.plate_number f;
     FineRecord.owner_name := Fine.owner_name f;
     FineRecord.owner_id := Fine.owner_id f;
     FineRecord.fine_type := Fine.fine_type f;
     FineRecord.fine_amount := Fine.fine_amount f;
     FineRecord.issued_at := Fine.issued_at f;
     FineRecord.paid := Fine.paid f |}.

Definition issue_fine (vehicle_status : VehicleStatus.t) (confidence : float)
  : M (option FineRecord.t) :=
  if VehicleStatus.is_compliant vehicle_status then mret None else
  env ← ask;
  let '(fine_amount, fine_type) :=
    FineService.calculate_fine (fine_service env) vehicle_status in
  if (fine_amount =? 0)%float then mret None else
  issued_at ← now;
  scanned_at ← now;
  w ← get;
  let fine :=
    {| Fine.id := next_id (List.map Fine.id (fines w));
       Fine.plate_number := VehicleStatus.plate_number vehicle_status;
       Fine.owner_name := VehicleStatus.owner_name vehicle_status;
       Fine.owner_id := VehicleStatus.owner_id vehicle_status;
       Fine.fine_type := fine_type;
       Fine.fine_amount := fine_amount;
       Fine.issued_at := issued_at;
       Fine.paid := false;
       Fine.paid_at := None |} in
  let scan_log :=
    {| ScanLog.id := next_id (List.map ScanLog.id (scan_logs w));
       ScanLog.plate_number := VehicleStatus.plate_number vehicle_status;
       ScanLog.scanned_at := scanned_at;
       ScanLog.confidence := confidence;
       ScanLog.road_tax_valid := Some (VehicleStatus.road_tax_valid vehicle_status);
       ScanLog.insurance_valid := Some (VehicleStatus.insurance_valid vehicle_status);
       ScanLog.fine_issued := true;
       ScanLog.cached_result := false |} in
  modify (fun w => add_scan_log scan_log (add_fine fine w));;
  (* Notify external API; what it answers is not used *)
  _ ← notify_fine (VehicleStatus.plate_number vehicle_status) fine_amount fine_type;
  mret (Some (FineRecord_of fine)).

Definition log_scan (plate_number : str) (confidence : float)
    (vehicle_status : option VehicleStatus.t) (cached fine_issued : bool) : M unit :=
  scanned_at ← now;
  w ← get;
  modify (add_scan_log
    {| ScanLog.id := next_id (List.map ScanLog.id (scan_logs w));
       ScanLog.plate_number := plate_number;
       ScanLog.scanned_at := scanned_at;
       ScanLog.confidence := confidence;
       ScanLog.road_tax_valid := VehicleStatus.road_tax_valid <$> vehicle_status;
       ScanLog.insurance_valid := VehicleStatus.insurance_valid <$> vehicle_status;
       ScanLog.fine_issued := fine_issued;
       ScanLog.cached_result := cached |}).

(** [ORDER BY issued_at DESC], as a stable insertion sort. *)
Fixpoint insert_desc (f : Fine.t) (l : list Fine.t) : list Fine.t :=
  match l with
  | [] => [f]
  | g :: l' =>
      if (Fine.issued_at g <? Fine.issued_at f)%Z then f :: l
      else g :: insert_desc f l'
  end.

Definition order_by_issued_at_desc (l : list Fine.t) : list Fine.t :=
  List.fold_right insert_desc [] l.

Definition get_fine_by_plate (plate_number : str) : M (list FineRecord.t) :=
  let normalized := replace HYPHEN [] (replace SPACE [] (upper plate_number)) in
  w ← get;
  mret (List.map FineRecord_of
          (order_by_issued_at_desc
             (List.filter (fun f => bool_decide (Fine.plate_number f = normalized))
                          (fines w)))).

(** ** The scan pipeline: [_process_plate] (routers/scan.py) *)

Definition MIN_FINE_CONFIDENCE : float := 0.9%float.

Definition _process_plate (plate_number : str) (confidence : float)
  : M ScanResult.t :=
  (* Check if plate was recently scanned *)
  cached_status ← get_cached_result plate_number;
  match cached_status with
  | Some status =>
      (* Return cached result without calling API *)
      mret {| ScanResult.plate_number := plate_number;
              ScanResult.confidence := confidence;
              ScanResult.cached := true;
              ScanResult.vehicle_status := Some status;
              ScanResult.fine_issued := false;
              ScanResult.fine_amount := None;
              ScanResult.error := None |}
  | None =>
      (* Not in cache - fetch from external API *)
      try_except
        (vehicle_status ← check_vehicle plate_number;
         add_plate plate_number vehicle_status;;
         fine_record ←
           (if negb (VehicleStatus.is_compliant vehicle_status)
               && (MIN_FINE_CONFIDENCE <=? confidence)%float
            then issue_fine vehicle_status confidence
            else if negb (VehicleStatus.is_compliant vehicle_status)
            then (log_scan plate_number confidence (Some vehicle_status) false false;;
                  mret None)
            else (log_scan plate_number confidence (Some vehicle_status) false false;;
                  mret None));
         mret {| ScanResult.plate_number := plate_number;
                 ScanResult.confidence := confidence;
                 ScanResult.cached := false;
                 ScanResult.vehicle_status := Some vehicle_status;
                 ScanResult.fine_issued := bool_decide (is_Some fine_record);
                 ScanResult.fine_amount := FineRecord.fine_amount <$> fine_record;
                 ScanResult.error := None |})
        (fun e =>
           mret {| ScanResult.plate_number := plate_number;
                   ScanResult.confidence := confidence;
                   ScanResult.cached := false;
                   ScanResult.vehicle_status := None;
                   ScanResult.fine_issued := false;
                   ScanResult.fine_amount := None;
                   ScanResult.error := Some (str_of_exception e) |})
  end.

(** ** [PlateCache]: the other methods (services/plate_cache.py) *)

(** [get_or_fetch] and [get_or_fetch_async], which differ in [await] only;
    [fetch_func] is any computation of a status from the plate. *)
Definition get_or_fetch (plate_number : str) (fetch_func : str -> M VehicleStatus.t)
  : M (VehicleStatus.t * bool) :=
  cached ← get_cached_result plate_number;
  match cached with
  | Some status => mret (status, true)
  | None =>
      (* Not cached, need to fetch *)
      result ← fetch_func plate_number;
      add_plate plate_number result;;
      mret (result, false)
  end.

Module CacheStats.
Record t : Type := mk {
  total_entries : Z;
  active_entries : Z;
  expired_entries : Z;
  hit_count : Z;
  miss_count : Z;
  hit_rate : float
}.
End CacheStats.

(** An [int] as an unrounded binary number. *)
Definition int_SF (z : Z) : spec_float :=
  match z with
  | Z0 => S754_zero false
  | Zpos p => S754_finite false p 0
  | Zneg p => S754_finite true p 0
  end.

(** [a / b] on [int]s with [b] not zero: the quotient, rounded once to the
    nearest float. *)
Definition true_divide (a b : Z) : float :=
  SF2Prim (SFdiv prec emax (int_SF a) (int_SF b)).

(** [sum(1 for entry in ... if entry.is_expired(cooldown))]: one reading of
    the clock for each entry. *)
Fixpoint count_expired (cooldown : timedelta) (entries : list CacheEntry.t) : M Z :=
  match entries with
  | [] => mret 0%Z
  | entry :: entries' =>
      t ← now;
      n ← count_expired cooldown entries';
      mret (if CacheEntry.is_expired entry t cooldown then (1 + n)%Z else n)
  end.

(** [get_stats]; the entries are visited in the order of [map_to_list]. *)
Definition get_stats : M CacheStats.t :=
  w ← get;
  let self := plate_cache w in
  let total := Z.of_nat (size (PlateCache._cache self)) in
  expired ← count_expired (PlateCache._cooldown self)
              (List.map snd (map_to_list (PlateCache._cache self)));
  let active := (total - expired)%Z in
  let total_requests := (PlateCache._hit_count self + PlateCache._miss_count self)%Z in
  let hit_rate :=
    if (0 <? total_requests)%Z
    then true_divide (PlateCache._hit_count self) total_requests
    else 0.0%float in
  mret {| CacheStats.total_entries := total;
          CacheStats.active_entries := active;
          CacheStats.expired_entries := expired;
          CacheStats.hit_count := PlateCache._hit_count self;
          CacheStats.miss_count := PlateCache._miss_count self;
          CacheStats.hit_rate := hit_rate |}.

(** ** [FineService]: the other methods (services/fine_service.py) *)

(** [LIMIT n]: a negative [n] is no limit. *)
Definition sql_limit {A} (n : Z) (rows : list A) : list A :=
  if (n <? 0)%Z then rows else List.firstn (Z.to_nat n) rows.

(** [get_fines]: the statement filters, then orders, then limits, in
    whatever order its clauses were added. *)
Definition get_fines (limit : Z) (unpaid_only : bool) : M (list FineRecord.t) :=
  w ← get;
  let selected :=
    if unpaid_only then List.filter (fun f => negb (Fine.paid f)) (fines w)
    else fines w in
  mret (List.map FineRecord_of (sql_limit limit (order_by_issued_at_desc selected))).

Definition set_fines (rows : list Fine.t) (w : World) : World :=
  {| plate_cache := plate_cache w; fines := rows;
     scan_logs := scan_logs w; ticks := ticks w |}.

Definition pay (t : datetime) (f : Fine.t) : Fine.t :=
  {| Fine.id := Fine.id f;
     Fine.plate_number := Fine.plate_number f;
     Fine.owner_name := Fine.owner_name f;
     Fine.owner_id := Fine.owner_id f;
     Fine.fine_type := Fine.fine_type f;
     Fine.fine_amount := Fine.fine_amount f;
     Fine.issued_at := Fine.issued_at f;
     Fine.paid := true;
     Fine.paid_at := Some t |}.

(** [mark_fine_paid]; [scalar_one_or_none] raises when the statement finds
    more than one row. *)
Definition mark_fine_paid (fine_id : Z) : M bool :=
  w ← get;
  match List.filter (fun f => (Fine.id f =? fine_id)%Z) (fines w) with
  | [] => mret false
  | [_] =>
      t ← now;
      modify (fun w =>
        set_fines
          (List.map (fun f => if (Fine.id f =? fine_id)%Z then pay t f else f) (fines w))
          w);;
      mret true
  | _ =>
      raise (Exc (lit "Multiple rows were found when one or none was required"))
  end.

(** ** The fines routes (routers/fines.py) *)

(** What a route comes to: a reply, or [HTTPException]. *)
Inductive HttpReply (A : Type) : Type :=
  | Reply (body : A)
  | HTTPException (status_code : Z) (detail : str).
Arguments Reply {A} body.
Arguments HTTPException {A} status_code detail.

(** A Python number: [sum] starts from the [int] 0 and goes over to [float]
    at the first float it adds. *)
Inductive Number : Type :=
  | Int (z : Z)
  | Float (f : float).

(** [float(z)] *)
Definition float_of_int (z : Z) : float := true_divide z 1.

Definition number_add (a b : Number) : Number :=
  match a, b with
  | Int x, Int y => Int (x + y)
  | Int x, Float g => Float (float_of_int x + g)
  | Float f, Int y => Float (f + float_of_int y)
  | Float f, Float g => Float (f + g)
  end.

Definition number_sub (a b : Number) : Number :=
  match a, b with
  | Int x, Int y => Int (x - y)
  | Int x, Float g => Float (float_of_int x - g)
  | Float f, Int y => Float (f - float_of_int y)
  | Float f, Float g => Float (f - g)
  end.

(** [sum(...)] over floats, added one by one from the left (CPython up to
    3.11). *)
Definition sum_floats (l : list float) : Number :=
  List.fold_left (fun acc x => number_add acc (Float x)) l (Int 0).

Module FinesSummary.
Record t : Type := mk {
  total_fines : Z;
  unpaid_fines : Z;
  paid_fines : Z;
  total_amount : Number;
  unpaid_amount : Number;
  collected_amount : Number;
  fines_by_type : gmap str Z
}.
End FinesSummary.

(** The loop that counts the fines by type. *)
Definition count_by_type (all_fines : list FineRecord.t) : gmap str Z :=
  List.fold_left
    (fun type_counts fine =>
       <[FineRecord.fine_type fine :=
           (default 0%Z (type_counts !! FineRecord.fine_type fine) + 1)%Z]> type_counts)
    all_fines ∅.

Module FinesRouter.

Definition mark_fine_paid (fine_id : Z) : M (HttpReply (str * Z)) :=
  success ← mark_fine_paid fine_id;
  if negb success then mret (HTTPException 404 (lit "Fine not found"))
  else mret (Reply (lit "Fine marked as paid", fine_id)).

Definition get_fines_summary : M FinesSummary.t :=
  all_fines ← get_fines 10000 false;
  let unpaid_fines := List.filter (fun f => negb (FineRecord.paid f)) all_fines in
  let total_amount := sum_floats (List.map FineRecord.fine_amount all_fines) in
  let unpaid_amount := sum_floats (List.map FineRecord.fine_amount unpaid_fines) in
  mret {| FinesSummary.total_fines := Z.of_nat (length all_fines);
          FinesSummary.unpaid_fines := Z.of_nat (length unpaid_fines);
          FinesSummary.paid_fines :=
            (Z.of_nat (length all_fines) - Z.of_nat (length unpaid_fines))%Z;
          FinesSummary.total_amount := total_amount;
          FinesSummary.unpaid_amount := unpaid_amount;
          FinesSummary.collected_amount := number_sub total_amount unpaid_amount;
          FinesSummary.fines_by_type := count_by_type all_fines |}.

End FinesRouter.

(** ** The scan routes (routers/scan.py) *)

Module PlateDetection.
Record t : Type := mk {
  plate_number : str;
  confidence : float;
  bounding_box : option (list (list Z))
}.
End PlateDetection.

Module ScanFrameResponse.
Record t : Type := mk {
  success : bool;
  plates_detected : Z;
  results : list ScanResult.t;
  processing_time_ms : float
}.
End ScanFrameResponse.

(** The loop of [scan_frame] and [scan_frame_base64] over the plates. *)
Fixpoint process_plates (plates : list PlateDetection.t) : M (list ScanResult.t) :=
  match plates with
  | [] => mret []
  | plate :: plates' =>
      result ← _process_plate (PlateDetection.plate_number plate)
                              (PlateDetection.confidence plate);
      results ← process_plates plates';
      mret (result :: results)
  end.

Definition failed_scan (processing_time_ms : float) : ScanFrameResponse.t :=
  {| ScanFrameResponse.success := false;
     ScanFrameResponse.plates_detected := 0;
     ScanFrameResponse.results := [];
     ScanFrameResponse.processing_time_ms := processing_time_ms |}.

(** [scan_frame].  [image_data] is what the upload holds; [detected] is what
    the OCR service comes to on it, a list of plates or an exception;
    [start_time] and [end_time] are the two readings of [time.time()]. *)
Definition scan_frame (image_data : list Z)
    (detected : Result (list PlateDetection.t)) (start_time end_time : float)
  : M ScanFrameResponse.t :=
  let elapsed := ((end_time - start_time) * 1000)%float in
  try_except
    (match image_data with
     | [] => mret (failed_scan 0)
     | _ :: _ =>
         plates ← (fun _ w => (detected, w));
         match plates with
         | [] =>
             mret {| ScanFrameResponse.success := true;
                     ScanFrameResponse.plates_detected := 0;
                     ScanFrameResponse.results := [];
                     ScanFrameResponse.processing_time_ms := elapsed |}
         | _ :: _ =>
             results ← process_plates plates;
             mret {| ScanFrameResponse.success := true;
                     ScanFrameResponse.plates_detected := Z.of_nat (length plates);
                     ScanFrameResponse.results := results;
                     ScanFrameResponse.processing_time_ms := elapsed |}
         end
     end)
    (fun _ => mret (failed_scan elapsed)).

(** [scan_frame_base64]: the same, without the test for an empty upload. *)
Definition scan_frame_base64 (detected : Result (list PlateDetection.t))
    (start_time end_time : float) : M ScanFrameResponse.t :=
  let elapsed := ((end_time - start_time) * 1000)%float in
  try_except
    (plates ← (fun _ w => (detected, w));
     match plates with
     | [] =>
         mret {| ScanFrameResponse.success := true;
                 ScanFrameResponse.plates_detected := 0;
                 ScanFrameResponse.results := [];
                 ScanFrameResponse.processing_time_ms := elapsed |}
     | _ :: _ =>
         results ← process_plates plates;
         mret {| ScanFrameResponse.success := true;
                 ScanFrameResponse.plates_detected := Z.of_nat (length plates);
                 ScanFrameResponse.results := results;
                 ScanFrameResponse.processing_time_ms := elapsed |}
     end)
    (fun _ => mret (failed_scan elapsed)).

(** [cleanup_cache]: the message of the reply. *)
Definition cleanup_cache : M str :=
  removed ← cleanup_expired;
  mret (lit "Removed " ++ lit (pretty removed) ++ lit " expired entries").

(** [test_fine]: the fine its reply is built from, if one was issued. *)
Definition test_fine : M (option FineRecord.t) :=
  let mock_vehicle :=
    {| VehicleStatus.plate_number := lit "TEST123";
       VehicleStatus.owner_name := Some (lit "Test Owner");
       VehicleStatus.owner_id := Some (lit "123456789");
       VehicleStatus.road_tax_valid := false;
       VehicleStatus.road_tax_expiry := None;
       VehicleStatus.insurance_valid := false;
       VehicleStatus.insurance_expiry := None |} in
  issue_fine mock_vehicle 0.95.

(** ** Texts: [str.isspace], [strip], [split], [join] *)

Definition in_runs (c : char) (runs : list (N * N)) : bool :=
  existsb (fun '(lo, hi) => (lo <=? c) && (c <=? hi))%N runs.

(** The characters [str.isspace] holds of.  [strip] and [split] take the
    same ones for blank, and [\s] of [re] matches the same ones. *)
Definition whitespace : list (N * N) :=
  [ (9, 13); (28, 32); (133, 133); (160, 160); (5760, 5760); (8192, 8202);
    (8232, 8233); (8239, 8239); (8287, 8287); (12288, 12288) ]%N.

Definition isspace (c : char) : bool := in_runs c whitespace.

(** The characters [str.isdecimal] holds of, which [\d] of [re] matches. *)
Definition decimal_digits : list (N * N) :=
  [ (48, 57); (1632, 1641); (1776, 1785); (1984, 1993); (2406, 2415);
    (2534, 2543); (2662, 2671); (2790, 2799); (2918, 2927); (3046, 3055);
    (3174, 3183); (3302, 3311); (3430, 3439); (3558, 3567); (3664, 3673);
    (3792, 3801); (3872, 3881); (4160, 4169); (4240, 4249); (6112, 6121);
    (6160, 6169); (6470, 6479); (6608, 6617); (6784, 6793); (6800, 6809);
    (6992, 7001); (7088, 7097); (7232, 7241); (7248, 7257); (42528, 42537);
    (43216, 43225); (43264, 43273); (43472, 43481); (43504, 43513);
    (43600, 43609); (44016, 44025); (65296, 65305); (66720, 66729);
    (68912, 68921); (69734, 69743); (69872, 69881); (69942, 69951);
    (70096, 70105); (70384, 70393); (70736, 70745); (70864, 70873);
    (71248, 71257); (71360, 71369); (71472, 71481); (71904, 71913);
    (72016, 72025); (72784, 72793); (73040, 73049); (73120, 73129);
    (92768, 92777); (92864, 92873); (93008, 93017); (120782, 120831);
    (123200, 123209); (123632, 123641); (125264, 125273); (130032, 130041) ]%N.

Definition isdecimal (c : char) : bool := in_runs c decimal_digits.




(** [s.split()]: the words between the blanks, [word] being the one that is
    being read. *)
Fixpoint split_from (word : str) (s : str) : list str :=
  match s with
  | [] => match word with [] => [] | _ :: _ => [word] end
  | c :: s' =>
      if isspace c then
        match word with
        | [] => split_from [] s'
        | _ :: _ => word :: split_from [] s'
        end
      else split_from (word ++ [c]) s'
  end.

Definition split (s : str) : list str := split_from [] s.

(** [sep.join(words)] *)
Fixpoint join (sep : str) (words : list str) : str :=
  match words with
  | [] => []
  | [word] => word
  | word :: words' => word ++ sep ++ join sep words'
  end.

(** ** The patterns of [re] the program uses *)

Module Re.

(** What a set of characters is made of: a range, [\s], [\d]. *)
Inductive item : Type :=
  | Range (lo hi : char)
  | Category_space
  | Category_digit.

(** A set of characters [[...]], or [[^...]] if [negate]. *)
Record class : Type := { negate : bool; items : list item }.

Inductive regex : Type :=
  | In_ (k : class)                            (* a character of the set *)
  | Cat (r1 r2 : regex)                        (* r1 r2 *)
  | Max_repeat (min max : nat) (r : regex)     (* r{min,max}, greedy *)
  | At_beginning                               (* ^ *)
  | At_end                                     (* $ *)
  | Empty.

Definition holds (i : item) (c : char) : bool :=
  match i with
  | Range lo hi => ((lo <=? c) && (c <=? hi))%N
  | Category_space => isspace c
  | Category_digit => isdecimal c
  end.

Definition member (k : class) (c : char) : bool :=
  xorb (negate k) (existsb (fun i => holds i c) (items k)).

(** Where a match stands: the number of characters before it and those that
    are left. *)
Definition position : Type := (nat * str)%type.

(** [r{min,max}]: one more [r] and the rest, or no more if [min] is done. *)
Fixpoint repeat (step : position -> list position) (min max : nat) (p : position)
  : list position :=
  match max with
  | O => match min with O => [p] | S _ => [] end
  | S max' =>
      List.flat_map (repeat step (Nat.pred min) max') (step p)
      ++ match min with O => [p] | S _ => [] end
  end.






(** [re.sub(r, repl, s)] for a pattern [r] that is one set of characters. *)
Definition sub (k : class) (repl : str) (s : str) : str :=
  List.flat_map (fun c => if member k c then repl else [c]) s.

(** [r1 r2 ... rn] *)
Definition seq (rs : list regex) : regex := List.fold_right Cat Empty rs.

End Re.

(** ** [OCRService]: the texts it reads (services/ocr_service.py) *)

Module OCRService.
Record t : Type := mk {
  _min_confidence : float
}.

(** [settings.ocr_confidence_min] as config.py has it. *)
Definition init : t := {| _min_confidence := 0.5 |}.
End OCRService.

Definition not_A_Z_0_9_space : Re.class :=
  {| Re.negate := true;
     Re.items := [Re.Range 65%N 90%N; Re.Range 48%N 57%N; Re.Category_space] |}.



Definition _clean_plate_text (text : str) : str :=
  let cleaned := Re.sub not_A_Z_0_9_space [] (upper text) in
  join [SPACE] (split cleaned).

(** What the OCR reader gives for one text it reads, with the box that
    would be reported for it. *)
Module Reading.
Record t : Type := mk {
  text : str;
  confidence : float;
  bounding_box : list (list Z)
}.
End Reading.


(** * Vocabulary of the statements *)

(** The code points the tables change. *)
Definition cased : list N :=
  List.flat_map Unicode.run_members Unicode.upper_runs ++ List.map fst Unicode.upper_special.

Fixpoint eqb_str (s t : str) : bool :=
  match s, t with
  | [], [] => true
  | c :: s', d :: t' => (c =? d)%N && eqb_str s' t'
  | _, _ => false
  end.

Definition stable (c : N) : bool :=
  eqb_str (List.flat_map Unicode.to_upper_full (Unicode.to_upper_full c)) (Unicode.to_upper_full c).

Definition not_separator (c : N) : bool :=
  negb (c =? SPACE)%N && negb (c =? HYPHEN)%N.

(** Not one of the letters [a] to [z]. *)
Definition not_ascii_lower (c : N) : bool :=
  negb ((97 <=? c) && (c <=? 122))%N.

(** ASCII letters and digits. *)
Definition ascii_letter_or_digit (c : char) : bool :=
  ((48 <=? c) && (c <=? 57) || (65 <=? c) && (c <=? 90)
   || (97 <=? c) && (c <=? 122))%N.

(** The entries the dictionary lists under a key. *)
Definition entries_for (key : str) (self : PlateCache.t)
  : list (str * CacheEntry.t) :=
  filter (fun kv => kv.1 = key) (map_to_list (PlateCache._cache self)).

(** ** Running a computation *)

Ltac run :=
  cbv [mbind M_bind mret M_ret get ask modify modify_cache now raise try_except
       with_plate_cache drop_entry add_fine add_scan_log];
  cbn [plate_cache fines scan_logs ticks fst snd].

(** The entry the cache holds for a plate. *)
Definition cached_entry (w : World) (plate_number : str) : option CacheEntry.t :=
  PlateCache._cache (plate_cache w) !! _normalize_plate plate_number.

(** An entry is live at a clock reading when it is no older than the
    cooldown. *)
Definition live (w : World) (t : datetime) (entry : CacheEntry.t) : Prop :=
  (t - CacheEntry.timestamp entry <= PlateCache._cooldown (plate_cache w))%Z.

(** The lookup hits when the cache holds a live entry for the plate. *)
Definition hit (env : Env) (w : World) (plate_number : str)
    (status : VehicleStatus.t) : Prop :=
  exists entry,
    cached_entry w plate_number = Some entry /\
    live w (clock env (ticks w)) entry /\
    CacheEntry.result entry = status.


(** ** Sample inputs *)

(** The program's state at start-up, with the default settings. *)
Definition start : World :=
  {| plate_cache := PlateCache.init Settings.default None;
     fines := []; scan_logs := []; ticks := 0 |}.

(** A clock for the scenarios of the specification: the four readings of a
    first scan fall at time 0, the next reading two minutes later, and the
    ones after that six minutes after the start. *)
Definition scenario_clock (n : nat) : datetime :=
  if (n <? 4)%nat then 0%Z
  else if (n =? 4)%nat then minutes 2
  else minutes 6.

Definition json (road_tax_valid insurance_valid : bool) : VehicleJson.t :=
  {| VehicleJson.owner_name := Some (lit "Tan Wei Ming");
     VehicleJson.owner_id := Some (lit "900101145678");
     VehicleJson.road_tax_valid := Some road_tax_valid;
     VehicleJson.road_tax_expiry := None;
     VehicleJson.insurance_valid := Some insurance_valid;
     VehicleJson.insurance_expiry := None |}.

(** What [random] gives after [random.seed(348)], the seed of ["ABC123"]:
    two calls of [random.random()], two of [random.randint(1, 180)]. *)
Definition draws_348 : MockDraws.t :=
  {| MockDraws.random1 := 0.8721659803279822%float;
     MockDraws.random2 := 0.7683323166152662%float;
     MockDraws.randint1 := 47;
     MockDraws.randint2 := 55 |}.

(** An environment in which every [GET] has the same answer. *)
Definition answering (answer : HttpResult VehicleJson.t) (service : FineService.t)
  : Env :=
  {| clock := scenario_clock;
     http_get := fun _ => answer;
     http_post := Response 201 tt;
     random_seeded := fun _ => draws_348;
     fine_service := service |}.

Definition default_service : FineService.t := FineService.init Settings.default.

(** A service configured with no fine for road tax. *)
Definition free_road_tax_service : FineService.t :=
  FineService.init
    {| Settings.cache_cooldown_min := 5;
       Settings.external_api_timeout := 10;
       Settings.road_tax_fine_amount := 0.0;
       Settings.insurance_fine_amount := 300.00 |}.

(** ** The validator's answers *)

Definition vehicle_path (plate_number : str) : str :=
  lit "/vehicle/" ++ plate_number.

(** The status [check_vehicle] builds from a 200 response. *)
Definition status_of_json (plate_number : str) (data : VehicleJson.t)
  : VehicleStatus.t :=
  {| VehicleStatus.plate_number := plate_number;
     VehicleStatus.owner_name := VehicleJson.owner_name data;
     VehicleStatus.owner_id := VehicleJson.owner_id data;
     VehicleStatus.road_tax_valid := default true (VehicleJson.road_tax_valid data);
     VehicleStatus.road_tax_expiry := VehicleJson.road_tax_expiry data;
     VehicleStatus.insurance_valid := default true (VehicleJson.insurance_valid data);
     VehicleStatus.insurance_expiry := VehicleJson.insurance_expiry data |}.

(** The status [check_vehicle] returns for a vehicle the service does not
    know. *)
Definition unknown_vehicle (plate_number : str) : VehicleStatus.t :=
  {| VehicleStatus.plate_number := plate_number;
     VehicleStatus.owner_name := None;
     VehicleStatus.owner_id := None;
     VehicleStatus.road_tax_valid := true;
     VehicleStatus.road_tax_expiry := None;
     VehicleStatus.insurance_valid := true;
     VehicleStatus.insurance_expiry := None |}.

(** The world after one more reading of the clock. *)
Definition tick (w : World) : World :=
  {| plate_cache := plate_cache w; fines := fines w;
     scan_logs := scan_logs w; ticks := S (ticks w) |}.

(** ** The rows the fine service writes *)

(** The row [issue_fine] adds to [fines], when it adds one. *)
Definition issued_fine (env : Env) (w : World) (vehicle_status : VehicleStatus.t)
  : Fine.t :=
  let '(fine_amount, fine_type) :=
    FineService.calculate_fine (fine_service env) vehicle_status in
  {| Fine.id := next_id (List.map Fine.id (fines w));
     Fine.plate_number := VehicleStatus.plate_number vehicle_status;
     Fine.owner_name := VehicleStatus.owner_name vehicle_status;
     Fine.owner_id := VehicleStatus.owner_id vehicle_status;
     Fine.fine_type := fine_type;
     Fine.fine_amount := fine_amount;
     Fine.issued_at := clock env (ticks w);
     Fine.paid := false;
     Fine.paid_at := None |}.

(** The row [issue_fine] adds to [scan_logs] with it. *)
Definition issuing_log (env : Env) (w : World) (vehicle_status : VehicleStatus.t)
    (confidence : float) : ScanLog.t :=
  {| ScanLog.id := next_id (List.map ScanLog.id (scan_logs w));
     ScanLog.plate_number := VehicleStatus.plate_number vehicle_status;
     ScanLog.scanned_at := clock env (S (ticks w));
     ScanLog.confidence := confidence;
     ScanLog.road_tax_valid := Some (VehicleStatus.road_tax_valid vehicle_status);
     ScanLog.insurance_valid := Some (VehicleStatus.insurance_valid vehicle_status);
     ScanLog.fine_issued := true;
     ScanLog.cached_result := false |}.

(** The row [log_scan] adds to [scan_logs]. *)
Definition logged (env : Env) (w : World) (plate_number : str) (confidence : float)
    (vehicle_status : option VehicleStatus.t) (cached fine_issued : bool) : ScanLog.t :=
  {| ScanLog.id := next_id (List.map ScanLog.id (scan_logs w));
     ScanLog.plate_number := plate_number;
     ScanLog.scanned_at := clock env (ticks w);
     ScanLog.confidence := confidence;
     ScanLog.road_tax_valid := VehicleStatus.road_tax_valid <$> vehicle_status;
     ScanLog.insurance_valid := VehicleStatus.insurance_valid <$> vehicle_status;
     ScanLog.fine_issued := fine_issued;
     ScanLog.cached_result := cached |}.

(** ** The results of the pipeline *)

(** The result of a scan answered from the cache. *)
Definition cached_result (plate_number : str) (confidence : float)
    (status : VehicleStatus.t) : ScanResult.t :=
  {| ScanResult.plate_number := plate_number;
     ScanResult.confidence := confidence;
     ScanResult.cached := true;
     ScanResult.vehicle_status := Some status;
     ScanResult.fine_issued := false;
     ScanResult.fine_amount := None;
     ScanResult.error := None |}.

(** The result of a scan whose validation raised [e]. *)
Definition error_result (plate_number : str) (confidence : float) (e : Exception)
  : ScanResult.t :=
  {| ScanResult.plate_number := plate_number;
     ScanResult.confidence := confidence;
     ScanResult.cached := false;
     ScanResult.vehicle_status := None;
     ScanResult.fine_issued := false;
     ScanResult.fine_amount := None;
     ScanResult.error := Some (str_of_exception e) |}.

(** The result of a validated scan. *)
Definition fresh_result (plate_number : str) (confidence : float)
    (status : VehicleStatus.t) (fine_record : option FineRecord.t) : ScanResult.t :=
  {| ScanResult.plate_number := plate_number;
     ScanResult.confidence := confidence;
     ScanResult.cached := false;
     ScanResult.vehicle_status := Some status;
     ScanResult.fine_issued := bool_decide (is_Some fine_record);
     ScanResult.fine_amount := FineRecord.fine_amount <$> fine_record;
     ScanResult.error := None |}.

(** ** The scenarios of the specification *)

(** The validator answers that road tax and insurance have both expired. *)
Definition scenario_env : Env :=
  answering (Response 200 (json false false)) default_service.

(** Scenario A: ["ABC 123"], never seen, is scanned at confidence 0.95. *)
Definition after_first_scan : World :=
  snd (_process_plate (lit "ABC 123") 0.95 scenario_env start).

(** Scenario B: the same plate is scanned again two minutes later. *)
Definition after_second_scan : World :=
  snd (_process_plate (lit "ABC 123") 0.95 scenario_env after_first_scan).

(** Scenario C: and again, six minutes after the first scan. *)
Definition after_third_scan : World :=
  snd (_process_plate (lit "ABC 123") 0.95 scenario_env after_second_scan).

(** A clock that advances by exactly the cooldown, five minutes, from one
    reading to the next, and one that advances by a microsecond more. *)
Definition cooldown_clock (n : nat) : datetime := (Z.of_nat n * minutes 5)%Z.
Definition late_clock (n : nat) : datetime := (Z.of_nat n * (minutes 5 + 1))%Z.

Definition with_clock (c : nat -> datetime) (env : Env) : Env :=
  {| clock := c; http_get := http_get env; http_post := http_post env;
     random_seeded := random_seeded env; fine_service := fine_service env |}.

(** ** The states the cache can reach *)

(** The program's state at start-up. *)
Definition initial (settings : Settings.t) (cooldown_minutes : option Z) : World :=
  {| plate_cache := PlateCache.init settings cooldown_minutes;
     fines := []; scan_logs := []; ticks := 0 |}.

(** The calls that touch the cache: its methods, and a scan. *)
Inductive Call : Type :=
  | IsRecentlyScanned (plate_number : str)
  | GetCachedResult (plate_number : str)
  | AddPlate (plate_number : str) (result : VehicleStatus.t)
  | CleanupExpired
  | Clear
  | ProcessPlate (plate_number : str) (confidence : float).

Definition call (c : Call) : M unit :=
  match c with
  | IsRecentlyScanned plate_number => is_recently_scanned plate_number;; mret tt
  | GetCachedResult plate_number => get_cached_result plate_number;; mret tt
  | AddPlate plate_number result => add_plate plate_number result
  | CleanupExpired => cleanup_expired;; mret tt
  | Clear => clear
  | ProcessPlate plate_number confidence =>
      _process_plate plate_number confidence;; mret tt
  end.

(** The world after a sequence of calls, each in the environment of its
    time. *)
Definition after (trace : list (Env * Call)) (w : World) : World :=
  List.fold_left (fun w ec => snd (call ec.2 ec.1 w)) trace w.

(** Every entry is filed under a normalized key, the one it records. *)
Definition well_keyed (m : gmap str CacheEntry.t) : Prop :=
  forall key entry,
    m !! key = Some entry ->
    _normalize_plate key = key /\ CacheEntry.plate_number entry = key.

(** ** More vocabulary: the cache over time *)

(** The keys [cleanup_expired] finds expired: the entry at position [i] of
    the listing is judged at the reading [n + i] of the clock. *)
Fixpoint expired_from (clock : nat -> datetime) (n : nat) (cooldown : timedelta)
    (items : list (str * CacheEntry.t)) : list str :=
  match items with
  | [] => []
  | (key, entry) :: items' =>
      if CacheEntry.is_expired entry (clock n) cooldown
      then key :: expired_from clock (S n) cooldown items'
      else expired_from clock (S n) cooldown items'
  end.

(** The world after [n] more readings of the clock. *)
Definition ticked (n : nat) (w : World) : World :=
  {| plate_cache := plate_cache w; fines := fines w;
     scan_logs := scan_logs w; ticks := n + ticks w |}.

(** The lookups of a sequence of calls since its last [Clear], on top of
    [n] earlier ones. *)
Definition lookups_since_clear (trace : list (Env * Call)) (n : Z) : Z :=
  List.fold_left
    (fun n ec =>
       match ec.2 with
       | Clear => 0%Z
       | GetCachedResult _ | ProcessPlate _ _ => (n + 1)%Z
       | _ => n
       end)
    trace n.

(** The requests the cache has counted. *)
Definition counted (self : PlateCache.t) : Z :=
  (PlateCache._hit_count self + PlateCache._miss_count self)%Z.

(** ** More vocabulary: the tables over time *)

(** The same environment, with another answer to [POST /fines]. *)
Definition with_http_post (answer : HttpResult unit) (env : Env) : Env :=
  {| clock := clock env; http_get := http_get env; http_post := answer;
     random_seeded := random_seeded env; fine_service := fine_service env |}.

(** The fine types the policy has for a vehicle that is not compliant. *)
Definition fine_types : list str :=
  [lit "road_tax"; lit "insurance"; lit "both"].

(** A row of [fines] as [issue_fine] writes it into the tables of [w]. *)
Definition new_fine (w : World) (fine : Fine.t) : Prop :=
  Fine.id fine = next_id (List.map Fine.id (fines w)) /\
  (Fine.fine_amount fine =? 0)%float = false /\
  In (Fine.fine_type fine) fine_types /\
  Fine.paid fine = false /\
  Fine.paid_at fine = None.

(** A row of [scan_logs] as the pipeline writes it into the tables of [w]. *)
Definition new_log (w : World) (fine_issued : bool) (log : ScanLog.t) : Prop :=
  ScanLog.id log = next_id (List.map ScanLog.id (scan_logs w)) /\
  ScanLog.fine_issued log = fine_issued /\
  ScanLog.cached_result log = false.

(** What a step may do to the tables: nothing, log a scan, or log a scan
    with its fine. *)
Inductive Wrote (w w' : World) : Prop :=
  | wrote_nothing :
      fines w' = fines w -> scan_logs w' = scan_logs w -> Wrote w w'
  | wrote_log log :
      fines w' = fines w -> scan_logs w' = scan_logs w ++ [log] ->
      new_log w false log -> Wrote w w'
  | wrote_fine fine log :
      fines w' = fines w ++ [fine] -> scan_logs w' = scan_logs w ++ [log] ->
      new_fine w fine -> new_log w true log -> Wrote w w'.

(** The keys [1 .. n]. *)
Definition keys_upto (n : nat) : list Z := List.map Z.of_nat (List.seq 1 n).

(** The tables are in order: the keys count the rows, no fine is of amount
    zero or of a type other than the three, a fine is paid exactly when it
    has a payment time, every fine has its scan log, and no scan log is of
    a cached scan. *)
Definition tables_in_order (w : World) : Prop :=
  List.map Fine.id (fines w) = keys_upto (length (fines w)) /\
  List.map ScanLog.id (scan_logs w) = keys_upto (length (scan_logs w)) /\
  (forall fine, In fine (fines w) ->
     (Fine.fine_amount fine =? 0)%float = false /\
     In (Fine.fine_type fine) fine_types /\
     (Fine.paid fine = true <-> is_Some (Fine.paid_at fine))) /\
  length (List.filter ScanLog.fine_issued (scan_logs w)) = length (fines w) /\
  (forall log, In log (scan_logs w) -> ScanLog.cached_result log = false).

(** The requests the application serves. *)
Inductive Request : Type :=
  | ScanFrame (image_data : list Z) (detected : Result (list PlateDetection.t))
      (start_time end_time : float)
  | ScanFrameBase64 (detected : Result (list PlateDetection.t))
      (start_time end_time : float)
  | GetCacheStats
  | ClearCache
  | CleanupCache
  | TestFine
  | GetFines (limit : Z) (unpaid_only : bool)
  | GetFinesByPlate (plate_number : str)
  | MarkFinePaid (fine_id : Z)
  | GetFinesSummary.

Definition serve (request : Request) : M unit :=
  match request with
  | ScanFrame image_data detected start_time end_time =>
      scan_frame image_data detected start_time end_time;; mret tt
  | ScanFrameBase64 detected start_time end_time =>
      scan_frame_base64 detected start_time end_time;; mret tt
  | GetCacheStats => get_stats;; mret tt
  | ClearCache => clear
  | CleanupCache => cleanup_cache;; mret tt
  | TestFine => test_fine;; mret tt
  | GetFines limit unpaid_only => get_fines limit unpaid_only;; mret tt
  | GetFinesByPlate plate_number => get_fine_by_plate plate_number;; mret tt
  | MarkFinePaid fine_id => FinesRouter.mark_fine_paid fine_id;; mret tt
  | GetFinesSummary => FinesRouter.get_fines_summary;; mret tt
  end.

(** The world after a sequence of requests, each in the environment of its
    time. *)
Definition served (trace : list (Env * Request)) (w : World) : World :=
  List.fold_left (fun w er => snd (serve er.2 er.1 w)) trace w.

(** The same fine, but for the payment. *)
Definition same_fine (f f' : Fine.t) : Prop :=
  Fine.id f' = Fine.id f /\
  Fine.plate_number f' = Fine.plate_number f /\
  Fine.owner_name f' = Fine.owner_name f /\
  Fine.owner_id f' = Fine.owner_id f /\
  Fine.fine_type f' = Fine.fine_type f /\
  Fine.fine_amount f' = Fine.fine_amount f /\
  Fine.issued_at f' = Fine.issued_at f /\
  (Fine.paid f = true -> Fine.paid f' = true).

(** No request takes a fine or a scan log away, or changes a fine but to
    mark it paid. *)
Definition grows (w w' : World) : Prop :=
  (forall i f, fines w !! i = Some f ->
     exists f', fines w' !! i = Some f' /\ same_fine f f') /\
  (exists logs, scan_logs w' = scan_logs w ++ logs).

(** The fines after the fine of key [fine_id] was marked paid at [t]. *)
Definition paid_at_time (fine_id : Z) (t : datetime) (rows : list Fine.t)
  : list Fine.t :=
  List.map (fun f => if (Fine.id f =? fine_id)%Z then pay t f else f) rows.

(** ** The queries of the fines *)

(** The fines a query of all fines selects. *)
Definition selected (unpaid_only : bool) (rows : list Fine.t) : list Fine.t :=
  List.filter (fun f => negb unpaid_only || negb (Fine.paid f)) rows.

(** Times that do not increase along the list. *)
Fixpoint descending (times : list datetime) : Prop :=
  match times with
  | [] => True
  | t :: times' => Forall (fun t' => (t' <= t)%Z) times' /\ descending times'
  end.

(** Records in the order of their times of issue, the newest first. *)
Definition newest_first (records : list FineRecord.t) : Prop :=
  forall i j r r',
    (i < j)%nat -> records !! i = Some r -> records !! j = Some r' ->
    (FineRecord.issued_at r' <= FineRecord.issued_at r)%Z.

(** How many of the records are of a fine type. *)
Definition of_type (fine_type : str) (records : list FineRecord.t) : Z :=
  Z.of_nat (length (List.filter
                      (fun r => bool_decide (FineRecord.fine_type r = fine_type))
                      records)).

(** ** The texts of plates *)

Definition upper_letter (c : char) : bool := ((65 <=? c) && (c <=? 90))%N.

Definition digit_0_9 (c : char) : bool := ((48 <=? c) && (c <=? 57))%N.

Definition letter_or_digit (c : char) : bool := upper_letter c || digit_0_9 c.

(** The characters that are kept when a text is cleaned. *)
Definition plate_character (c : char) : bool :=
  upper_letter c || digit_0_9 c || isspace c.

(** A word of a cleaned text: letters [A] to [Z] and digits, one or more. *)
Definition word (w : str) : Prop :=
  w <> [] /\ forall c, In c w -> letter_or_digit c = true.



(** The characters of a list of ranges. *)
Definition members (runs : list (N * N)) : list N :=
  List.flat_map
    (fun '(lo, hi) =>
       List.map (fun i => (lo + N.of_nat i)%N)
                (List.seq 0 (N.to_nat (hi + 1 - lo))))
    runs.

(** * Properties *)

Example normalize_abc_123 : _normalize_plate (lit "abc 1-23") = lit "ABC123".
Proof. vm_compute. reflexivity. Qed.


(** ** Facts about the case tables *)
Section UnicodeFacts.
Import Unicode.

Lemma eqb_str_eq s t : eqb_str s t = true -> s = t.
Proof.
  revert t; induction s as [|c s IH]; intros [|d t]; simpl; try discriminate; auto.
  intros H. apply andb_true_iff in H as [Hc Hs].
  apply N.eqb_eq in Hc. f_equal; auto.
Qed.

Lemma in_run_members c r : in_run c r = true -> In c (run_members r).
Proof.
  destruct r as [[[lo hi] step] lo']. unfold in_run, run_members.
  rewrite !andb_true_iff, !N.leb_le, N.eqb_eq. intros [[Hlo Hhi] Hmod].
  apply in_map_iff. exists (N.to_nat ((c - lo) / step)). split.
  - rewrite N2Nat.id.
    pose proof (N.div_mod' (c - lo) step) as E. rewrite Hmod in E.
    rewrite (N.mul_comm _ step).
    revert E. generalize (step * ((c - lo) / step))%N. lia.
  - apply in_seq. split; [apply Nat.le_0_l|].
    assert ((c - lo) / step <= (hi - lo) / step)%N as Hle.
    { destruct (N.eq_dec step 0%N) as [->|Hs].
      - rewrite !N.div_0_r. reflexivity.
      - apply N.Div0.div_le_mono. lia. }
    revert Hle. generalize ((c - lo) / step)%N, ((hi - lo) / step)%N. lia.
Qed.

Lemma assoc_Some {A} c (l : list (N * A)) v :
  assoc c l = Some v -> In (c, v) l.
Proof.
  induction l as [|[k w] l IH]; simpl; [discriminate|].
  destruct (N.eqb_spec c k) as [->|_]; [intros [= ->]; auto | auto].
Qed.

(** A code point outside [cased] is its own upper case. *)
Lemma to_upper_full_cases c : to_upper_full c = [c] \/ In c cased.
Proof.
  unfold to_upper_full, cased.
  destruct (List.find (in_run c) upper_runs) as [r|] eqn:Hr.
  - right. apply find_some in Hr as [Hin Hc]. apply in_or_app. left.
    apply in_flat_map. exists r. split; [exact Hin | apply in_run_members, Hc].
  - destruct (assoc c upper_special) as [v|] eqn:Hs; [right | left; reflexivity].
    apply in_or_app. right. apply assoc_Some in Hs.
    apply in_map_iff. exists (c, v). auto.
Qed.

(** A property of the upper case of every changed code point, checked on the
    tables, holds of the upper case of every code point it holds of. *)
Lemma to_upper_full_forall (P : N -> bool) :
  forallb (fun c => forallb P (to_upper_full c)) cased = true ->
  forall c, P c = true -> forallb P (to_upper_full c) = true.
Proof.
  intros Htab c Hc. destruct (to_upper_full_cases c) as [-> | Hin].
  - simpl. now rewrite Hc.
  - rewrite forallb_forall in Htab. now apply Htab.
Qed.

Lemma cased_stable : forallb stable cased = true.
Proof. vm_compute. reflexivity. Qed.

(** Upper-casing an upper-cased code point changes nothing. *)
Lemma to_upper_full_stable c :
  List.flat_map to_upper_full (to_upper_full c) = to_upper_full c.
Proof.
  destruct (to_upper_full_cases c) as [E | Hin].
  - rewrite E at 1. simpl. now rewrite app_nil_r.
  - apply eqb_str_eq. pose proof cased_stable as H.
    rewrite forallb_forall in H. now apply H.
Qed.

Lemma cased_not_separator :
  forallb (fun c => forallb not_separator (to_upper_full c)) cased = true.
Proof. vm_compute. reflexivity. Qed.

(** No upper case holds a space or a hyphen, except theirs. *)
Lemma to_upper_full_separator c d :
  (d = SPACE \/ d = HYPHEN) -> In d (to_upper_full c) -> c = d.
Proof.
  intros Hd Hin. destruct (to_upper_full_cases c) as [E | Hc].
  - rewrite E in Hin. destruct Hin as [->|[]]. reflexivity.
  - pose proof cased_not_separator as H. rewrite forallb_forall in H.
    specialize (H c Hc). rewrite forallb_forall in H. specialize (H d Hin).
    unfold not_separator in H. apply andb_true_iff in H as [H1 H2].
    destruct Hd as [-> | ->]; [rewrite N.eqb_refl in H1 | rewrite N.eqb_refl in H2];
      discriminate.
Qed.

Lemma ascii_lower_changed :
  forallb (fun c => negb (eqb_str (to_upper_full c) [c]))
          (List.map N.of_nat (List.seq 97 26)) = true.
Proof. vm_compute. reflexivity. Qed.

Lemma eqb_str_refl s : eqb_str s s = true.
Proof. induction s as [|c s IH]; simpl; [reflexivity|]. now rewrite N.eqb_refl. Qed.

Lemma cased_not_ascii_lower :
  forallb (fun c => forallb not_ascii_lower (to_upper_full c)) cased = true.
Proof. vm_compute. reflexivity. Qed.

(** No upper case holds one of the letters [a] to [z]. *)
Lemma to_upper_full_not_ascii_lower c :
  forallb not_ascii_lower (to_upper_full c) = true.
Proof.
  destruct (not_ascii_lower c) eqn:Hc.
  - now apply to_upper_full_forall; [apply cased_not_ascii_lower|].
  - destruct (to_upper_full_cases c) as [E | Hin].
    + exfalso. unfold not_ascii_lower in Hc.
      apply negb_false_iff, andb_true_iff in Hc as [Hlo Hhi].
      apply N.leb_le in Hlo, Hhi.
      pose proof ascii_lower_changed as H. rewrite forallb_forall in H.
      specialize (H c). rewrite E, eqb_str_refl in H.
      assert (In c (List.map N.of_nat (List.seq 97 26))) as Hin; [|now apply H in Hin].
      apply in_map_iff. exists (N.to_nat c). split; [apply N2Nat.id|].
      apply in_seq. lia.
    + pose proof cased_not_ascii_lower as H. rewrite forallb_forall in H.
      now apply H.
Qed.

Lemma to_upper_full_SPACE : to_upper_full SPACE = [SPACE].
Proof. reflexivity. Qed.

Lemma to_upper_full_HYPHEN : to_upper_full HYPHEN = [HYPHEN].
Proof. reflexivity. Qed.

End UnicodeFacts.

(** ** Upper-casing and replacing *)
Section StrLemmas.

Lemma upper_app s t : upper (s ++ t) = upper s ++ upper t.
Proof. apply flat_map_app. Qed.

Lemma replace_app old new s t :
  replace old new (s ++ t) = replace old new s ++ replace old new t.
Proof. apply flat_map_app. Qed.

Lemma upper_idempotent s : upper (upper s) = upper s.
Proof.
  induction s as [|c s IH]; [reflexivity|].
  change (upper (c :: s)) with (Unicode.to_upper_full c ++ upper s).
  rewrite upper_app, IH. f_equal. apply to_upper_full_stable.
Qed.

(** Replacing a character by nothing removes it and keeps the rest. *)
Lemma replace_nil_filter old s :
  replace old [] s = List.filter (fun c => negb (c =? old)%N) s.
Proof.
  induction s as [|c s IH]; [reflexivity|]. simpl.
  destruct (c =? old)%N; simpl; now rewrite <- IH.
Qed.

Lemma in_replace_nil old s x :
  In x (replace old [] s) <-> In x s /\ x <> old.
Proof.
  rewrite replace_nil_filter, filter_In, negb_true_iff, N.eqb_neq. reflexivity.
Qed.

Lemma replace_absent old new s : ~ In old s -> replace old new s = s.
Proof.
  induction s as [|c s IH]; [reflexivity|]. simpl. intros H.
  destruct (N.eqb_spec c old) as [->|_]; [exfalso; auto|].
  simpl. f_equal. apply IH. auto.
Qed.

(** Upper-casing commutes with the removal of a separator. *)
Lemma upper_replace_separator d s :
  d = SPACE \/ d = HYPHEN ->
  upper (replace d [] s) = replace d [] (upper s).
Proof.
  intros Hd. induction s as [|c s IH]; [reflexivity|].
  change (upper (c :: s)) with (Unicode.to_upper_full c ++ upper s).
  rewrite replace_app, <- IH. simpl.
  destruct (N.eqb_spec c d) as [->|Hne].
  - simpl. destruct Hd as [-> | ->]; reflexivity.
  - change (upper ([c] ++ replace d [] s)
            = replace d [] (Unicode.to_upper_full c) ++ upper (replace d [] s)).
    rewrite upper_app. f_equal. unfold upper. simpl. rewrite app_nil_r.
    symmetry. apply replace_absent. intros Hin. apply Hne.
    eapply to_upper_full_separator; eauto.
Qed.

Lemma normalize_filter x :
  _normalize_plate x = List.filter not_separator (upper x).
Proof.
  unfold _normalize_plate. rewrite !replace_nil_filter.
  induction (upper x) as [|c s IH]; [reflexivity|]. simpl.
  unfold not_separator at 1.
  destruct (c =? SPACE)%N; simpl; [exact IH|].
  destruct (c =? HYPHEN)%N; simpl; now rewrite IH.
Qed.

Lemma normalize_not_ascii_lower x c :
  In c (_normalize_plate x) -> not_ascii_lower c = true.
Proof.
  rewrite normalize_filter, filter_In. intros [Hin _]. unfold upper in Hin.
  apply in_flat_map in Hin as (d & _ & Hin).
  pose proof (to_upper_full_not_ascii_lower d) as H.
  rewrite forallb_forall in H. now apply H.
Qed.

Lemma normalize_no_separator x d :
  d = SPACE \/ d = HYPHEN -> ~ In d (_normalize_plate x).
Proof.
  intros Hd. rewrite normalize_filter, filter_In. unfold not_separator.
  intros [_ H]. apply andb_true_iff in H as [H1 H2].
  destruct Hd as [-> | ->]; [rewrite N.eqb_refl in H1 | rewrite N.eqb_refl in H2];
    discriminate.
Qed.

Lemma normalize_upper x : upper (_normalize_plate x) = _normalize_plate x.
Proof.
  unfold _normalize_plate.
  rewrite !upper_replace_separator, upper_idempotent; auto.
Qed.

(** A string that is upper case and holds no separator is its own key. *)
Lemma normalize_fixed k :
  upper k = k -> ~ In SPACE k -> ~ In HYPHEN k -> _normalize_plate k = k.
Proof.
  intros Hu Hs Hh. unfold _normalize_plate. rewrite Hu.
  rewrite (replace_absent SPACE), (replace_absent HYPHEN); auto.
Qed.

End StrLemmas.

(** ** Normalization: the properties *)

(** C9.  Normalization is idempotent: normalizing a key again gives the
    same key, for every input string. *)
Theorem normalize_idempotent (x : str) :
  _normalize_plate (_normalize_plate x) = _normalize_plate x.
Proof.
  apply normalize_fixed.
  - apply normalize_upper.
  - apply normalize_no_separator. now left.
  - apply normalize_no_separator. now right.
Qed.

(** C6, as stated, fails: the key of ["ab.1_2 #c"] keeps the full stop, the
    underscore and the number sign, ASCII characters that are neither
    letters nor digits. *)
Lemma normalize_keeps_other_characters :
  _normalize_plate (lit "ab.1_2 #c") = lit "AB.1_2#C" /\
  exists c, In c (_normalize_plate (lit "ab.1_2 #c")) /\
            (c < 128)%N /\ ascii_letter_or_digit c = false.
Proof.
  split; [vm_compute; reflexivity|].
  exists 46%N. split; [vm_compute; tauto | split; reflexivity].
Qed.

(** C6, amended.  Normalization is a total function of the input string; the
    key is upper case (upper-casing it again changes nothing, and it holds
    none of the letters [a] to [z]) and holds no space and no hyphen; it is
    the upper-cased input with exactly the spaces and hyphens removed, every
    other character kept in place; and the empty string has the empty key. *)
Theorem normalize_spec (x : str) :
  upper (_normalize_plate x) = _normalize_plate x /\
  (forall c, In c (_normalize_plate x) -> ~ (97 <= c <= 122)%N) /\
  ~ In SPACE (_normalize_plate x) /\
  ~ In HYPHEN (_normalize_plate x) /\
  _normalize_plate x = List.filter not_separator (upper x) /\
  _normalize_plate [] = [].
Proof.
  split; [apply normalize_upper|].
  split.
  { intros c Hin [Hlo Hhi]. apply normalize_not_ascii_lower in Hin.
    unfold not_ascii_lower in Hin. apply negb_true_iff, andb_false_iff in Hin.
    rewrite !N.leb_gt in Hin. lia. }
  split; [apply normalize_no_separator; now left|].
  split; [apply normalize_no_separator; now right|].
  split; [apply normalize_filter | reflexivity].
Qed.

(** ** The lookup *)

Lemma is_expired_false w t entry :
  CacheEntry.is_expired entry t (PlateCache._cooldown (plate_cache w)) = false
  <-> live w t entry.
Proof. unfold CacheEntry.is_expired, live. rewrite Z.ltb_ge. reflexivity. Qed.

Lemma is_expired_true w t entry :
  CacheEntry.is_expired entry t (PlateCache._cooldown (plate_cache w)) = true
  <-> ~ live w t entry.
Proof. unfold CacheEntry.is_expired, live. rewrite Z.ltb_lt. lia. Qed.

(** *** The three cases of the lookup *)

Lemma get_cached_result_hit env w plate_number entry :
  cached_entry w plate_number = Some entry ->
  live w (clock env (ticks w)) entry ->
  get_cached_result plate_number env w =
    (Return (Some (CacheEntry.result entry)),
     {| plate_cache := PlateCache.hit (plate_cache w);
        fines := fines w; scan_logs := scan_logs w; ticks := S (ticks w) |}).
Proof.
  intros He Hl. apply is_expired_false in Hl.
  unfold get_cached_result, cached_entry in *. run. rewrite He. run.
  rewrite Hl. reflexivity.
Qed.

Lemma get_cached_result_expired env w plate_number entry :
  cached_entry w plate_number = Some entry ->
  ~ live w (clock env (ticks w)) entry ->
  get_cached_result plate_number env w =
    (Return None,
     {| plate_cache :=
          PlateCache.miss
            (PlateCache.with_cache
               (delete (_normalize_plate plate_number)
                       (PlateCache._cache (plate_cache w)))
               (plate_cache w));
        fines := fines w; scan_logs := scan_logs w; ticks := S (ticks w) |}).
Proof.
  intros He Hl. apply is_expired_true in Hl.
  unfold get_cached_result, cached_entry in *. run. rewrite He. run.
  rewrite Hl. reflexivity.
Qed.

Lemma get_cached_result_absent env w plate_number :
  cached_entry w plate_number = None ->
  get_cached_result plate_number env w =
    (Return None,
     {| plate_cache := PlateCache.miss (plate_cache w);
        fines := fines w; scan_logs := scan_logs w; ticks := ticks w |}).
Proof.
  intros He. unfold get_cached_result, cached_entry in *. run. rewrite He.
  reflexivity.
Qed.

Lemma live_dec w t entry : {live w t entry} + {~ live w t entry}.
Proof. unfold live. apply Z_le_dec. Qed.

Lemma get_cached_result_Some env w plate_number status :
  fst (get_cached_result plate_number env w) = Return (Some status)
  <-> hit env w plate_number status.
Proof.
  unfold hit. destruct (cached_entry w plate_number) as [entry|] eqn:He.
  - destruct (live_dec w (clock env (ticks w)) entry) as [Hl|Hl].
    + rewrite (get_cached_result_hit env w plate_number entry He Hl). simpl.
      split.
      * intros [= <-]. eauto.
      * intros (e & [= <-] & _ & <-). reflexivity.
    + rewrite (get_cached_result_expired env w plate_number entry He Hl). simpl.
      split; [discriminate|]. intros (e & [= <-] & Hl' & _). contradiction.
  - rewrite (get_cached_result_absent env w plate_number He). simpl.
    split; [discriminate|]. intros (e & [=] & _).
Qed.

Lemma get_cached_result_returns env w plate_number :
  exists r, fst (get_cached_result plate_number env w) = Return r.
Proof.
  destruct (cached_entry w plate_number) as [entry|] eqn:He.
  - destruct (live_dec w (clock env (ticks w)) entry) as [Hl|Hl].
    + rewrite (get_cached_result_hit env w plate_number entry He Hl). eauto.
    + rewrite (get_cached_result_expired env w plate_number entry He Hl). eauto.
  - rewrite (get_cached_result_absent env w plate_number He). eauto.
Qed.

(** C3.  The lookup of a plate, made when the clock reads [now], returns the
    stored snapshot and adds one to the hit counter exactly when the cache
    holds an entry for the plate's key with [now - timestamp <= cooldown]
    (the cache is then left as it is); an entry older than the cooldown is
    deleted by the lookup, which then adds one to the miss counter and
    returns [None]; with no entry the lookup adds one to the miss counter
    and returns [None]. *)
Theorem get_cached_result_spec (env : Env) (w : World) (plate_number : str) :
  let self := plate_cache w in
  let key := _normalize_plate plate_number in
  let now := clock env (ticks w) in
  let returned := fst (get_cached_result plate_number env w) in
  let self' := plate_cache (snd (get_cached_result plate_number env w)) in
  let live_entry entry :=
    PlateCache._cache self !! key = Some entry /\
    (now - CacheEntry.timestamp entry <= PlateCache._cooldown self)%Z in
  (forall status,
      returned = Return (Some status) <->
      exists entry, live_entry entry /\ CacheEntry.result entry = status) /\
  (PlateCache._hit_count self' = (PlateCache._hit_count self + 1)%Z <->
   exists entry, live_entry entry) /\
  (forall entry, live_entry entry ->
      returned = Return (Some (CacheEntry.result entry)) /\
      PlateCache._hit_count self' = (PlateCache._hit_count self + 1)%Z /\
      PlateCache._miss_count self' = PlateCache._miss_count self /\
      PlateCache._cache self' = PlateCache._cache self) /\
  (forall entry,
      PlateCache._cache self !! key = Some entry ->
      (PlateCache._cooldown self < now - CacheEntry.timestamp entry)%Z ->
      returned = Return None /\
      PlateCache._cache self' = delete key (PlateCache._cache self) /\
      PlateCache._cache self' !! key = None /\
      PlateCache._miss_count self' = (PlateCache._miss_count self + 1)%Z /\
      PlateCache._hit_count self' = PlateCache._hit_count self) /\
  (PlateCache._cache self !! key = None ->
      returned = Return None /\
      PlateCache._cache self' = PlateCache._cache self /\
      PlateCache._miss_count self' = (PlateCache._miss_count self + 1)%Z /\
      PlateCache._hit_count self' = PlateCache._hit_count self).
Proof.
  cbv zeta. fold (cached_entry w plate_number).
  destruct (cached_entry w plate_number) as [entry|] eqn:He.
  - destruct (live_dec w (clock env (ticks w)) entry) as [Hl|Hl].
    + rewrite (get_cached_result_hit env w plate_number entry He Hl).
      unfold live in Hl. simpl. split; [|split; [|split; [|split]]].
      * intros status. split.
        -- intros [= <-]. eauto.
        -- intros (e & [[= <-] _] & <-). reflexivity.
      * split; eauto.
      * intros e [[= <-] _]. auto.
      * intros e [= <-] Hold. lia.
      * discriminate.
    + rewrite (get_cached_result_expired env w plate_number entry He Hl).
      unfold live in Hl. simpl. split; [|split; [|split; [|split]]].
      * intros status. split; [discriminate|].
        intros (e & [[= <-] Hl'] & _). contradiction.
      * split; [lia|]. intros (e & [= <-] & Hl'). contradiction.
      * intros e [[= <-] Hl']. contradiction.
      * intros e [= <-] _. repeat split; auto. apply lookup_delete_eq.
      * discriminate.
  - rewrite (get_cached_result_absent env w plate_number He). simpl.
    split; [|split; [|split; [|split]]].
    + intros status. split; [discriminate|]. intros (e & [[=] _] & _).
    + split; [lia|]. intros (e & [=] & _).
    + intros e [[=] _].
    + intros e [=].
    + auto.
Qed.

(** ** Entries per key *)

Lemma filter_key_NoDup {V} (key : str) (l : list (str * V)) :
  NoDup (l.*1) ->
  filter (fun kv => kv.1 = key) l = [] \/
  exists v, filter (fun kv => kv.1 = key) l = [(key, v)].
Proof.
  induction l as [|[k v] l IH]; [now left|].
  rewrite fmap_cons, NoDup_cons. intros [Hk Hl].
  destruct (decide (k = key)) as [->|Hne].
  - right. exists v. rewrite filter_cons_True by reflexivity. f_equal.
    destruct (filter (fun kv => kv.1 = key) l) as [|[k' v'] l'] eqn:Hf; [reflexivity|].
    exfalso. apply Hk.
    assert ((k', v') ∈ filter (fun kv : str * V => kv.1 = key) l) as Hin
      by (rewrite Hf; left).
    apply list_elem_of_filter in Hin as [Hk' Hin]. simpl in Hk'. subst k'.
    apply list_elem_of_fmap. exists (key, v'). auto.
  - rewrite filter_cons_False by (simpl; congruence). auto.
Qed.

(** Under a key the dictionary lists the entry it holds for it, once, and
    nothing else. *)
Lemma entries_for_lookup key self :
  entries_for key self =
    match PlateCache._cache self !! key with
    | Some entry => [(key, entry)]
    | None => []
    end.
Proof.
  unfold entries_for.
  pose proof (NoDup_fst_map_to_list (PlateCache._cache self)) as Hnd.
  destruct (filter_key_NoDup key _ Hnd) as [Hf | [v Hf]]; rewrite Hf.
  - destruct (PlateCache._cache self !! key) as [entry|] eqn:He; [|reflexivity].
    exfalso. apply elem_of_map_to_list in He.
    apply (filter_nil_not_elem_of _ _ (key, entry)) in Hf; [contradiction | reflexivity].
  - assert ((key, v) ∈ filter (fun kv : str * CacheEntry.t => kv.1 = key)
                         (map_to_list (PlateCache._cache self))) as Hin
      by (rewrite Hf; left).
    apply list_elem_of_filter in Hin as [_ Hin].
    apply elem_of_map_to_list in Hin. now rewrite Hin.
Qed.

Lemma add_plate_run env w plate_number result :
  add_plate plate_number result env w =
    (Return tt,
     {| plate_cache :=
          PlateCache.with_cache
            (<[_normalize_plate plate_number :=
                 {| CacheEntry.plate_number := _normalize_plate plate_number;
                    CacheEntry.result := result;
                    CacheEntry.timestamp := clock env (ticks w) |}]>
               (PlateCache._cache (plate_cache w)))
            (plate_cache w);
        fines := fines w; scan_logs := scan_logs w; ticks := S (ticks w) |}).
Proof. reflexivity. Qed.

(** ** The fine policy *)

(** C5.  The fine is a total function of the status, by its four variants:
    compliant, nothing and ["none"]; tax expired, the road-tax fine and
    ["road_tax"]; insurance expired, the insurance fine and ["insurance"];
    both expired, the sum of the two and ["both"].  Each variant arises, and
    the two validity flags decide which.  With the default settings the
    fines are 150.00 and 300.00, and the fine for both is 450.00. *)
Theorem calculate_fine_spec :
  (forall (self : FineService.t) (v : VehicleStatus.t),
     FineService.calculate_fine self v =
       match VehicleStatus.compliance_status v with
       | COMPLIANT => (0%float, lit "none")
       | TAX_EXPIRED => (FineService._road_tax_fine self, lit "road_tax")
       | INSURANCE_EXPIRED => (FineService._insurance_fine self, lit "insurance")
       | BOTH_EXPIRED =>
           ((FineService._road_tax_fine self + FineService._insurance_fine self)%float,
            lit "both")
       end) /\
  (forall v : VehicleStatus.t,
     VehicleStatus.compliance_status v =
       match VehicleStatus.road_tax_valid v, VehicleStatus.insurance_valid v with
       | true, true => COMPLIANT
       | false, true => TAX_EXPIRED
       | true, false => INSURANCE_EXPIRED
       | false, false => BOTH_EXPIRED
       end) /\
  (forall status : ComplianceStatus,
     exists v, VehicleStatus.compliance_status v = status) /\
  FineService._road_tax_fine (FineService.init Settings.default) = 150%float /\
  FineService._insurance_fine (FineService.init Settings.default) = 300%float /\
  (forall v : VehicleStatus.t,
     VehicleStatus.compliance_status v = BOTH_EXPIRED ->
     FineService.calculate_fine (FineService.init Settings.default) v
       = (450%float, lit "both")).
Proof.
  split; [|split; [|split; [|split; [|split]]]].
  - intros self v. unfold FineService.calculate_fine.
    destruct (VehicleStatus.compliance_status v); reflexivity.
  - intros v. unfold VehicleStatus.compliance_status.
    destruct (VehicleStatus.road_tax_valid v), (VehicleStatus.insurance_valid v);
      reflexivity.
  - intros status.
    exists {| VehicleStatus.plate_number := [];
              VehicleStatus.owner_name := None;
              VehicleStatus.owner_id := None;
              VehicleStatus.road_tax_valid :=
                match status with COMPLIANT | INSURANCE_EXPIRED => true | _ => false end;
              VehicleStatus.road_tax_expiry := None;
              VehicleStatus.insurance_valid :=
                match status with COMPLIANT | TAX_EXPIRED => true | _ => false end;
              VehicleStatus.insurance_expiry := None |}.
    destruct status; reflexivity.
  - reflexivity.
  - reflexivity.
  - intros v Hv. unfold FineService.calculate_fine. rewrite Hv. reflexivity.
Qed.

(** ** The validator *)

Lemma check_vehicle_200 env w plate_number data :
  http_get env (vehicle_path plate_number) = Response 200 data ->
  check_vehicle plate_number env w = (Return (status_of_json plate_number data), w).
Proof.
  intros H. unfold check_vehicle, vehicle_path in *. run. rewrite H. reflexivity.
Qed.

Lemma check_vehicle_404 env w plate_number data :
  http_get env (vehicle_path plate_number) = Response 404 data ->
  check_vehicle plate_number env w = (Return (unknown_vehicle plate_number), w).
Proof.
  intros H. unfold check_vehicle, vehicle_path in *. run. rewrite H. reflexivity.
Qed.

Lemma check_vehicle_upstream_error env w plate_number status_code data :
  http_get env (vehicle_path plate_number) = Response status_code data ->
  status_code <> 200%Z -> status_code <> 404%Z ->
  check_vehicle plate_number env w =
    (Raise (Exc (lit "API returned status " ++ lit (pretty status_code))), w).
Proof.
  intros H H200 H404. unfold check_vehicle, vehicle_path in *. run. rewrite H.
  destruct (Z.eqb_spec status_code 200); [contradiction|].
  destruct (Z.eqb_spec status_code 404); [contradiction|]. reflexivity.
Qed.

Lemma check_vehicle_request_error env w plate_number :
  http_get env (vehicle_path plate_number) = RequestError ->
  exists status,
    check_vehicle plate_number env w = (Return status, tick w) /\
    VehicleStatus.plate_number status = plate_number.
Proof.
  intros H. unfold check_vehicle, vehicle_path in *. run. rewrite H.
  unfold _get_mock_status. run. eexists. split; reflexivity.
Qed.

(** The validator leaves the cache and the tables alone, and the status it
    returns carries the plate as it was given. *)
Lemma check_vehicle_frame env w plate_number r w' :
  check_vehicle plate_number env w = (r, w') ->
  plate_cache w' = plate_cache w /\ fines w' = fines w /\
  scan_logs w' = scan_logs w /\
  (forall status, r = Return status ->
     VehicleStatus.plate_number status = plate_number).
Proof.
  unfold check_vehicle, _get_mock_status. run.
  destruct (http_get env _) as [status_code data|].
  - destruct (status_code =? 200)%Z; [|destruct (status_code =? 404)%Z];
      intros [= <- <-]; repeat split; auto; intros status [= <-]; reflexivity.
  - intros [= <- <-]. repeat split; auto. intros status [= <-]. reflexivity.
Qed.

(** ** The fine service *)

Lemma issue_fine_compliant env w vehicle_status confidence :
  VehicleStatus.is_compliant vehicle_status = true ->
  issue_fine vehicle_status confidence env w = (Return None, w).
Proof. intros H. unfold issue_fine. rewrite H. reflexivity. Qed.

Lemma issue_fine_zero env w vehicle_status confidence :
  (fst (FineService.calculate_fine (fine_service env) vehicle_status) =? 0)%float
    = true ->
  issue_fine vehicle_status confidence env w = (Return None, w).
Proof.
  intros H. unfold issue_fine.
  destruct (VehicleStatus.is_compliant vehicle_status); [reflexivity|]. run.
  destruct (FineService.calculate_fine _ _) as [amount type]. simpl in H.
  rewrite H. reflexivity.
Qed.

Lemma issue_fine_issued env w vehicle_status confidence :
  VehicleStatus.is_compliant vehicle_status = false ->
  (fst (FineService.calculate_fine (fine_service env) vehicle_status) =? 0)%float
    = false ->
  let fine := issued_fine env w vehicle_status in
  issue_fine vehicle_status confidence env w =
    (Return (Some (FineRecord_of fine)),
     {| plate_cache := plate_cache w;
        fines := fines w ++ [fine];
        scan_logs := scan_logs w ++ [issuing_log env w vehicle_status confidence];
        ticks := S (S (S (ticks w))) |}).
Proof.
  intros Hc Hz. unfold issue_fine, notify_fine, issued_fine, issuing_log.
  rewrite Hc. run.
  destruct (FineService.calculate_fine _ _) as [amount type]. simpl in Hz.
  rewrite Hz. simpl. destruct (http_post env); reflexivity.
Qed.

Lemma log_scan_run env w plate_number confidence vehicle_status cached fine_issued :
  log_scan plate_number confidence vehicle_status cached fine_issued env w =
    (Return tt,
     {| plate_cache := plate_cache w;
        fines := fines w;
        scan_logs := scan_logs w ++
          [logged env w plate_number confidence vehicle_status cached fine_issued];
        ticks := S (ticks w) |}).
Proof. reflexivity. Qed.

(** ** The pipeline, path by path *)

Lemma process_hit env w plate_number confidence status :
  hit env w plate_number status ->
  _process_plate plate_number confidence env w =
    (Return (cached_result plate_number confidence status),
     {| plate_cache := PlateCache.hit (plate_cache w);
        fines := fines w; scan_logs := scan_logs w; ticks := S (ticks w) |}).
Proof.
  intros (entry & He & Hl & <-). unfold _process_plate. run.
  rewrite (get_cached_result_hit env w plate_number entry He Hl). reflexivity.
Qed.

Lemma process_raise env w plate_number confidence w1 e w2 :
  get_cached_result plate_number env w = (Return None, w1) ->
  check_vehicle plate_number env w1 = (Raise e, w2) ->
  _process_plate plate_number confidence env w =
    (Return (error_result plate_number confidence e), w2).
Proof.
  intros Hmiss Hcheck. unfold _process_plate. run. rewrite Hmiss, Hcheck.
  reflexivity.
Qed.

(** A validated scan that logs without a fine: the vehicle is compliant, or
    the confidence is not at least the threshold. *)
Lemma process_logged env w plate_number confidence w1 status w2 :
  get_cached_result plate_number env w = (Return None, w1) ->
  check_vehicle plate_number env w1 = (Return status, w2) ->
  VehicleStatus.is_compliant status = true \/
  (MIN_FINE_CONFIDENCE <=? confidence)%float = false ->
  let w3 := snd (add_plate plate_number status env w2) in
  _process_plate plate_number confidence env w =
    (Return (fresh_result plate_number confidence status None),
     snd (log_scan plate_number confidence (Some status) false false env w3)).
Proof.
  intros Hmiss Hcheck Hcase. cbv zeta. unfold _process_plate. run.
  rewrite Hmiss, Hcheck. rewrite add_plate_run. cbn [fst snd].
  destruct Hcase as [Hc | Hconf].
  - rewrite Hc. cbn [negb andb]. rewrite log_scan_run. reflexivity.
  - rewrite Hconf, andb_false_r.
    destruct (VehicleStatus.is_compliant status); cbn [negb];
      rewrite log_scan_run; reflexivity.
Qed.

(** A validated scan of a non-compliant vehicle at a confidence of at least
    the threshold: the fine service decides. *)
Lemma process_issue env w plate_number confidence w1 status w2 :
  get_cached_result plate_number env w = (Return None, w1) ->
  check_vehicle plate_number env w1 = (Return status, w2) ->
  VehicleStatus.is_compliant status = false ->
  (MIN_FINE_CONFIDENCE <=? confidence)%float = true ->
  let w3 := snd (add_plate plate_number status env w2) in
  exists fine_record w4,
    issue_fine status confidence env w3 = (Return fine_record, w4) /\
    _process_plate plate_number confidence env w =
      (Return (fresh_result plate_number confidence status fine_record), w4).
Proof.
  intros Hmiss Hcheck Hc Hconf. cbv zeta. unfold _process_plate. run.
  rewrite Hmiss, Hcheck. rewrite add_plate_run. cbn [fst snd].
  rewrite Hc, Hconf. cbn [negb andb].
  destruct (fst (FineService.calculate_fine (fine_service env) status) =? 0)%float
    eqn:Hz.
  - rewrite (issue_fine_zero _ _ _ _ Hz). eauto.
  - rewrite (issue_fine_issued _ _ _ _ Hc Hz). eauto.
Qed.

(** ** Comparing floats *)

Lemma compare_cont_swap (p q : positive) :
  Pos.compare_cont Eq q p = CompOpp (Pos.compare_cont Eq p q).
Proof. rewrite (Pos.compare_cont_antisym p q Eq). reflexivity. Qed.

Lemma SFcompare_Lt_Gt (a b : spec_float) :
  SFcompare a b = Some Lt -> SFcompare b a = Some Gt.
Proof.
  destruct a as [sa|sa| |sa ma ea], b as [sb|sb| |sb mb eb]; simpl;
    try discriminate;
    try (destruct sa; (discriminate || reflexivity));
    try (destruct sb; (discriminate || reflexivity));
    try (destruct sa, sb; (discriminate || reflexivity)).
  change PosDef.Pos.compare_cont with Pos.compare_cont.
  rewrite (Z.compare_antisym ea eb), (compare_cont_swap ma mb).
  destruct sa, sb; try discriminate; try reflexivity;
    destruct (ea ?= eb)%Z; simpl; try discriminate; try reflexivity;
    destruct (Pos.compare_cont Eq ma mb); simpl; (discriminate || reflexivity).
Qed.

(** [x < y] excludes [x >= y]. *)
Lemma ltb_not_geb (x y : float) :
  (x <? y)%float = true -> (y <=? x)%float = false.
Proof.
  rewrite ltb_spec, leb_spec. unfold SFltb, SFleb.
  destruct (SFcompare (Prim2SF x) (Prim2SF y)) as [[| |]|] eqn:Hc; try discriminate.
  intros _. now rewrite (SFcompare_Lt_Gt _ _ Hc).
Qed.

(** ** The lookup and the tables *)

Lemma get_cached_result_frame env w plate_number r w' :
  get_cached_result plate_number env w = (r, w') ->
  fines w' = fines w /\ scan_logs w' = scan_logs w.
Proof.
  destruct (cached_entry w plate_number) as [entry|] eqn:He.
  - destruct (live_dec w (clock env (ticks w)) entry) as [Hl|Hl].
    + rewrite (get_cached_result_hit env w plate_number entry He Hl).
      intros [= <- <-]. auto.
    + rewrite (get_cached_result_expired env w plate_number entry He Hl).
      intros [= <- <-]. auto.
  - rewrite (get_cached_result_absent env w plate_number He).
    intros [= <- <-]. auto.
Qed.

(** After a miss the cache holds no entry for the plate. *)
Lemma get_cached_result_miss env w plate_number w1 :
  get_cached_result plate_number env w = (Return None, w1) ->
  cached_entry w1 plate_number = None.
Proof.
  unfold cached_entry at 1.
  destruct (cached_entry w plate_number) as [entry|] eqn:He.
  - destruct (live_dec w (clock env (ticks w)) entry) as [Hl|Hl].
    + rewrite (get_cached_result_hit env w plate_number entry He Hl). discriminate.
    + rewrite (get_cached_result_expired env w plate_number entry He Hl).
      intros [= <-]. simpl. apply lookup_delete_eq.
  - rewrite (get_cached_result_absent env w plate_number He).
    intros [= <-]. exact He.
Qed.

(** ** The pipeline: the properties *)

(** C4.  On a cache hit, whatever the confidence and whether or not the
    cached status is compliant, the pipeline creates no fine and writes no
    scan log, and its result has [cached = true] and [fine_issued = false]. *)
Theorem cache_hit_never_fines (env : Env) (w : World) (plate_number : str)
    (confidence : float) (status : VehicleStatus.t) :
  fst (get_cached_result plate_number env w) = Return (Some status) ->
  let result := fst (_process_plate plate_number confidence env w) in
  let w' := snd (_process_plate plate_number confidence env w) in
  result = Return (cached_result plate_number confidence status) /\
  ScanResult.cached (cached_result plate_number confidence status) = true /\
  ScanResult.fine_issued (cached_result plate_number confidence status) = false /\
  fines w' = fines w /\
  scan_logs w' = scan_logs w.
Proof.
  intros Hhit. apply get_cached_result_Some in Hhit. cbv zeta.
  rewrite (process_hit env w plate_number confidence status Hhit).
  repeat split; reflexivity.
Qed.

(** Scenario B of the specification: the second scan of ["ABC 123"], two
    minutes after the first, is answered from the cache; no fine and no log
    is added. *)
Lemma cache_hit_never_fines_witness :
  let status := status_of_json (lit "ABC 123") (json false false) in
  let again := _process_plate (lit "ABC 123") 0.95 scenario_env after_first_scan in
  fst (get_cached_result (lit "ABC 123") scenario_env after_first_scan)
    = Return (Some status) /\
  VehicleStatus.is_compliant status = false /\
  fst again = Return (cached_result (lit "ABC 123") 0.95 status) /\
  fines (snd again) = fines after_first_scan /\
  scan_logs (snd again) = scan_logs after_first_scan.
Proof.
  cbv zeta.
  assert (fst (get_cached_result (lit "ABC 123") scenario_env after_first_scan)
          = Return (Some (status_of_json (lit "ABC 123") (json false false)))) as H
    by (vm_compute; reflexivity).
  pose proof (cache_hit_never_fines scenario_env after_first_scan (lit "ABC 123")
                0.95 _ H) as (Hr & _ & _ & Hf & Hl).
  repeat split; assumption || reflexivity.
Defined.

(** Once validated, a scan returns the status it was given and leaves the
    cache as the insert made it. *)
Lemma process_validated env w plate_number confidence w1 status w2 :
  get_cached_result plate_number env w = (Return None, w1) ->
  check_vehicle plate_number env w1 = (Return status, w2) ->
  exists fine_record w',
    _process_plate plate_number confidence env w =
      (Return (fresh_result plate_number confidence status fine_record), w') /\
    plate_cache w' = plate_cache (snd (add_plate plate_number status env w2)).
Proof.
  intros Hmiss Hcheck.
  destruct (VehicleStatus.is_compliant status) eqn:Hc.
  - rewrite (process_logged env w plate_number confidence w1 status w2 Hmiss Hcheck)
      by auto.
    eexists _, _. split; reflexivity.
  - destruct (MIN_FINE_CONFIDENCE <=? confidence)%float eqn:Hconf.
    + destruct (process_issue env w plate_number confidence w1 status w2
                  Hmiss Hcheck Hc Hconf) as (fine_record & w4 & Hissue & ->).
      exists fine_record, w4. split; [reflexivity|].
      destruct (fst (FineService.calculate_fine (fine_service env) status) =? 0)%float
        eqn:Hz.
      * rewrite (issue_fine_zero _ _ _ _ Hz) in Hissue.
        now injection Hissue as _ <-.
      * rewrite (issue_fine_issued _ _ _ _ Hc Hz) in Hissue.
        now injection Hissue as _ <-.
    + rewrite (process_logged env w plate_number confidence w1 status w2 Hmiss Hcheck)
        by auto.
      eexists _, _. split; reflexivity.
Qed.

(** C10.  When the validation service answers 404 for a plate,
    [check_vehicle] returns a status with road tax and insurance both valid,
    a compliant one, and the pipeline issues no fine for the plate. *)
Theorem unknown_vehicle_never_fined (env : Env) (w : World) (plate_number : str)
    (confidence : float) (data : VehicleJson.t) :
  http_get env (vehicle_path plate_number) = Response 404 data ->
  (forall w0, check_vehicle plate_number env w0 =
                (Return (unknown_vehicle plate_number), w0)) /\
  VehicleStatus.road_tax_valid (unknown_vehicle plate_number) = true /\
  VehicleStatus.insurance_valid (unknown_vehicle plate_number) = true /\
  VehicleStatus.is_compliant (unknown_vehicle plate_number) = true /\
  exists result w',
    _process_plate plate_number confidence env w = (Return result, w') /\
    ScanResult.fine_issued result = false /\
    ScanResult.fine_amount result = None /\
    ScanResult.error result = None /\
    fines w' = fines w.
Proof.
  intros H404. split; [intros w0; apply (check_vehicle_404 _ _ _ _ H404)|].
  do 3 (split; [reflexivity|]).
  destruct (get_cached_result plate_number env w) as [r w1] eqn:Hget.
  destruct (get_cached_result_returns env w plate_number) as [[status|] Hr];
    rewrite Hget in Hr; simpl in Hr; subst r.
  - assert (hit env w plate_number status) as Hhit
      by (apply get_cached_result_Some; now rewrite Hget).
    rewrite (process_hit env w plate_number confidence status Hhit).
    eexists _, _. repeat split; reflexivity.
  - pose proof (check_vehicle_404 env w1 plate_number data H404) as Hcheck.
    rewrite (process_logged env w plate_number confidence w1 _ w1 Hget Hcheck)
      by (left; reflexivity).
    eexists _, _. split; [reflexivity|]. repeat split; try reflexivity.
    rewrite log_scan_run, add_plate_run. simpl.
    apply (get_cached_result_frame _ _ _ _ _ Hget).
Qed.

(** A first sighting of a plate the service does not know, at confidence
    0.99: no fine. *)
Lemma unknown_vehicle_never_fined_witness :
  let env := answering (Response 404 (json false false)) default_service in
  http_get env (vehicle_path (lit "NEW 1")) = Response 404 (json false false) /\
  check_vehicle (lit "NEW 1") env start = (Return (unknown_vehicle (lit "NEW 1")), start) /\
  exists result w',
    _process_plate (lit "NEW 1") 0.99 env start = (Return result, w') /\
    ScanResult.fine_issued result = false /\
    ScanResult.fine_amount result = None /\
    ScanResult.error result = None /\
    fines w' = fines start.
Proof.
  cbv zeta.
  assert (http_get (answering (Response 404 (json false false)) default_service)
            (vehicle_path (lit "NEW 1")) = Response 404 (json false false)) as H
    by reflexivity.
  pose proof (unknown_vehicle_never_fined _ start (lit "NEW 1") 0.99 _ H)
    as (Hcheck & _ & _ & _ & Hrun).
  split; [exact H|]. split; [apply Hcheck | exact Hrun].
Defined.

(** With the default amounts every non-compliant status has a fine that is
    not zero. *)
Lemma default_fine_nonzero (status : VehicleStatus.t) :
  VehicleStatus.is_compliant status = false ->
  (fst (FineService.calculate_fine default_service status) =? 0)%float = false.
Proof.
  unfold VehicleStatus.is_compliant, FineService.calculate_fine,
    VehicleStatus.compliance_status.
  destruct (VehicleStatus.road_tax_valid status),
    (VehicleStatus.insurance_valid status); (discriminate || reflexivity).
Qed.

(** C1, as stated, fails: a service configured with a road-tax fine of zero
    issues no fine for a first sighting of a vehicle whose road tax has
    expired, at confidence 0.95: [issue_fine] returns [None] when the fine
    it computes is zero. *)
Lemma zero_fine_not_issued :
  let env := answering (Response 200 (json false true)) free_road_tax_service in
  let plate := lit "WXY 1234" in
  let w1 := snd (get_cached_result plate env start) in
  let status := status_of_json plate (json false true) in
  get_cached_result plate env start = (Return None, w1) /\
  check_vehicle plate env w1 = (Return status, w1) /\
  VehicleStatus.is_compliant status = false /\
  (MIN_FINE_CONFIDENCE <=? 0.95)%float = true /\
  fines (snd (_process_plate plate 0.95 env start)) = [].
Proof. cbv zeta. repeat split; vm_compute; reflexivity. Qed.

(** C1, amended.  For an observation that misses the cache and whose
    validated status is not compliant: at a confidence of at least 0.9, and
    when the fine computed for the status is not zero (as with the default
    amounts), exactly one fine is created, with one scan log that has
    [fine_issued = true], and the result carries the fine; at a confidence
    below 0.9 no fine is created and one scan log with [fine_issued = false]
    is written. *)
Theorem confidence_gate (env : Env) (w : World) (plate_number : str)
    (confidence : float) (w1 : World) (status : VehicleStatus.t) (w2 : World) :
  get_cached_result plate_number env w = (Return None, w1) ->
  check_vehicle plate_number env w1 = (Return status, w2) ->
  VehicleStatus.is_compliant status = false ->
  let w3 := snd (add_plate plate_number status env w2) in
  let amount := fst (FineService.calculate_fine (fine_service env) status) in
  let result := fst (_process_plate plate_number confidence env w) in
  let w' := snd (_process_plate plate_number confidence env w) in
  ((MIN_FINE_CONFIDENCE <=? confidence)%float = true ->
   (amount =? 0)%float = false ->
     fines w' = fines w ++ [issued_fine env w3 status] /\
     Fine.fine_amount (issued_fine env w3 status) = amount /\
     scan_logs w' = scan_logs w ++ [issuing_log env w3 status confidence] /\
     ScanLog.fine_issued (issuing_log env w3 status confidence) = true /\
     result = Return (fresh_result plate_number confidence status
                        (Some (FineRecord_of (issued_fine env w3 status)))) /\
     (forall r, result = Return r ->
        ScanResult.fine_issued r = true /\ ScanResult.fine_amount r = Some amount)) /\
  ((confidence <? MIN_FINE_CONFIDENCE)%float = true ->
     fines w' = fines w /\
     scan_logs w' =
       scan_logs w ++ [logged env w3 plate_number confidence (Some status) false false] /\
     ScanLog.fine_issued
       (logged env w3 plate_number confidence (Some status) false false) = false /\
     result = Return (fresh_result plate_number confidence status None) /\
     (forall r, result = Return r ->
        ScanResult.fine_issued r = false /\ ScanResult.fine_amount r = None)) /\
  (fine_service env = default_service -> (amount =? 0)%float = false).
Proof.
  intros Hmiss Hcheck Hc w3 amount result w'.
  destruct (get_cached_result_frame _ _ _ _ _ Hmiss) as [Hf1 Hl1].
  destruct (check_vehicle_frame _ _ _ _ _ Hcheck) as (_ & Hf2 & Hl2 & _).
  assert (fines w3 = fines w) as Hf3
    by (subst w3; rewrite add_plate_run; simpl; congruence).
  assert (scan_logs w3 = scan_logs w) as Hl3
    by (subst w3; rewrite add_plate_run; simpl; congruence).
  assert (Fine.fine_amount (issued_fine env w3 status) = amount) as Hamount.
  { subst amount. unfold issued_fine.
    destruct (FineService.calculate_fine (fine_service env) status); reflexivity. }
  pose proof (process_issue env w plate_number confidence w1 status w2
                Hmiss Hcheck Hc) as Pissue.
  pose proof (process_logged env w plate_number confidence w1 status w2
                Hmiss Hcheck) as Plogged.
  cbv zeta in Pissue, Plogged. fold w3 in Pissue, Plogged.
  subst result w'. clearbody w3.
  split; [|split].
  - intros Hconf Hz. destruct (Pissue Hconf) as (fine_record & w4 & Hissue & ->).
    rewrite (issue_fine_issued _ _ _ _ Hc Hz) in Hissue.
    injection Hissue as <- <-. cbn [fst snd fines scan_logs]. rewrite Hf3, Hl3.
    split; [reflexivity|]. split; [exact Hamount|]. do 3 (split; [reflexivity|]).
    intros r [= <-]. split; [reflexivity|]. simpl. now rewrite Hamount.
  - intros Hlow. apply ltb_not_geb in Hlow. rewrite Plogged by auto.
    rewrite log_scan_run. cbn [fst snd fines scan_logs]. rewrite Hf3, Hl3.
    do 4 (split; [reflexivity|]). intros r [= <-]. split; reflexivity.
  - intros Hsvc. subst amount. rewrite Hsvc. now apply default_fine_nonzero.
Qed.

(** Scenarios A and D of the specification: a first sighting of ["ABC 123"],
    both obligations expired, default amounts.  At confidence 0.95 one fine
    of 450.00 is created; at confidence 0.4 none is, and one scan log is
    written. *)
Lemma confidence_gate_witness :
  let plate := lit "ABC 123" in
  let status := status_of_json plate (json false false) in
  let w1 := snd (get_cached_result plate scenario_env start) in
  let high := snd (_process_plate plate 0.95 scenario_env start) in
  let low := snd (_process_plate plate 0.4 scenario_env start) in
  get_cached_result plate scenario_env start = (Return None, w1) /\
  check_vehicle plate scenario_env w1 = (Return status, w1) /\
  VehicleStatus.is_compliant status = false /\
  (MIN_FINE_CONFIDENCE <=? 0.95)%float = true /\
  (0.4 <? MIN_FINE_CONFIDENCE)%float = true /\
  (fst (FineService.calculate_fine (fine_service scenario_env) status) =? 0)%float
    = false /\
  List.map Fine.fine_amount (fines high) = [450%float] /\
  List.map ScanLog.fine_issued (scan_logs high) = [true] /\
  fines low = [] /\
  List.map ScanLog.fine_issued (scan_logs low) = [false].
Proof.
  cbv zeta.
  assert (get_cached_result (lit "ABC 123") scenario_env start
          = (Return None, snd (get_cached_result (lit "ABC 123") scenario_env start)))
    as Hmiss by (vm_compute; reflexivity).
  assert (check_vehicle (lit "ABC 123") scenario_env
            (snd (get_cached_result (lit "ABC 123") scenario_env start))
          = (Return (status_of_json (lit "ABC 123") (json false false)),
             snd (get_cached_result (lit "ABC 123") scenario_env start)))
    as Hcheck by (vm_compute; reflexivity).
  assert (VehicleStatus.is_compliant
            (status_of_json (lit "ABC 123") (json false false)) = false)
    as Hc by reflexivity.
  assert ((MIN_FINE_CONFIDENCE <=? 0.95)%float = true) as Hhigh by reflexivity.
  assert ((0.4 <? MIN_FINE_CONFIDENCE)%float = true) as Hlow by reflexivity.
  assert ((fst (FineService.calculate_fine (fine_service scenario_env)
                  (status_of_json (lit "ABC 123") (json false false))) =? 0)%float
          = false) as Hz by reflexivity.
  destruct (confidence_gate scenario_env start (lit "ABC 123") 0.95 _ _ _
              Hmiss Hcheck Hc) as (Hissue & _ & _).
  destruct (confidence_gate scenario_env start (lit "ABC 123") 0.4 _ _ _
              Hmiss Hcheck Hc) as (_ & Hskip & _).
  destruct (Hissue Hhigh Hz) as (Hf & Ha & Hl & Hi & _).
  destruct (Hskip Hlow) as (Hf' & Hl' & Hi' & _).
  do 6 (split; [assumption|]).
  rewrite Hf, Hl, Hf', Hl'. repeat split; vm_compute; reflexivity.
Defined.

(** C2, as stated, fails: with the network down, the first sighting of
    ["ABC123"] at confidence 0.95 returns no error; [check_vehicle] falls
    back on a mock status (here with both obligations expired), which is
    cached, fined and logged. *)
Lemma network_error_not_reported :
  let env := answering RequestError default_service in
  let plate := lit "ABC123" in
  let run := _process_plate plate 0.95 env start in
  http_get env (vehicle_path plate) = RequestError /\
  fst (get_cached_result plate env start) = Return None /\
  (exists r, fst run = Return r /\ ScanResult.error r = None /\
             ScanResult.fine_issued r = true) /\
  cached_entry start plate = None /\
  is_Some (cached_entry (snd run) plate) /\
  length (fines (snd run)) = 1 /\
  length (scan_logs (snd run)) = 1.
Proof.
  cbv zeta. split; [reflexivity|]. split; [vm_compute; reflexivity|].
  split; [eexists; split; [vm_compute; reflexivity | split; reflexivity]|].
  split; [vm_compute; reflexivity|].
  split; [eexists; vm_compute; reflexivity|].
  split; vm_compute; reflexivity.
Qed.

(** C2, amended.  For an observation that misses the cache: when the
    validation service answers with a status other than 200 and 404,
    [check_vehicle] raises, and the pipeline returns a result whose error is
    the message ["API returned status <code>"], with the world as the missed
    lookup left it: no entry for the plate in the cache, no fine, no scan
    log.  When the request itself fails (network error, time-out),
    [check_vehicle] does not fail: it returns a mock status, and the
    pipeline goes on as after a validation, with no error in its result and
    the mock status in the cache. *)
Theorem validator_failure (env : Env) (w : World) (plate_number : str)
    (confidence : float) (w1 : World) :
  get_cached_result plate_number env w = (Return None, w1) ->
  let result := fst (_process_plate plate_number confidence env w) in
  let w' := snd (_process_plate plate_number confidence env w) in
  (forall status_code data,
     http_get env (vehicle_path plate_number) = Response status_code data ->
     status_code <> 200%Z -> status_code <> 404%Z ->
     let message := lit "API returned status " ++ lit (pretty status_code) in
     check_vehicle plate_number env w1 = (Raise (Exc message), w1) /\
     result = Return (error_result plate_number confidence (Exc message)) /\
     ScanResult.error (error_result plate_number confidence (Exc message))
       = Some message /\
     w' = w1 /\
     cached_entry w' plate_number = None /\
     fines w' = fines w /\
     scan_logs w' = scan_logs w) /\
  (http_get env (vehicle_path plate_number) = RequestError ->
     exists status,
       check_vehicle plate_number env w1 = (Return status, tick w1) /\
       (exists fine_record,
          result = Return (fresh_result plate_number confidence status fine_record)) /\
       (forall r, result = Return r -> ScanResult.error r = None) /\
       cached_entry w' plate_number =
         Some {| CacheEntry.plate_number := _normalize_plate plate_number;
                 CacheEntry.result := status;
                 CacheEntry.timestamp := clock env (ticks (tick w1)) |}).
Proof.
  intros Hmiss result w'. subst result w'. split.
  - intros status_code data Hget H200 H404 message.
    pose proof (check_vehicle_upstream_error env w1 plate_number status_code data
                  Hget H200 H404) as Hcheck.
    fold message in Hcheck.
    rewrite (process_raise env w plate_number confidence w1 _ w1 Hmiss Hcheck).
    cbn [fst snd].
    destruct (get_cached_result_frame _ _ _ _ _ Hmiss) as [Hf Hl].
    repeat split; auto. apply (get_cached_result_miss _ _ _ _ Hmiss).
  - intros Hget.
    destruct (check_vehicle_request_error env w1 plate_number Hget)
      as (status & Hcheck & _).
    exists status. split; [exact Hcheck|].
    destruct (process_validated env w plate_number confidence w1 status (tick w1)
                Hmiss Hcheck) as (fine_record & w' & -> & Hcache).
    cbn [fst snd]. split; [eauto|]. split; [intros r [= <-]; reflexivity|].
    unfold cached_entry. rewrite Hcache, add_plate_run. simpl.
    apply lookup_insert_eq.
Qed.

(** A first sighting of ["ABC123"] while the service answers 503: the
    result carries ["API returned status 503"], and nothing is stored. *)
Lemma validator_failure_witness :
  let env := answering (Response 503 (json true true)) default_service in
  let plate := lit "ABC123" in
  let run := _process_plate plate 0.95 env start in
  get_cached_result plate env start
    = (Return None, snd (get_cached_result plate env start)) /\
  fst run = Return (error_result plate 0.95 (Exc (lit "API returned status 503"))) /\
  cached_entry (snd run) plate = None /\
  fines (snd run) = [] /\
  scan_logs (snd run) = [].
Proof.
  cbv zeta.
  assert (get_cached_result (lit "ABC123")
            (answering (Response 503 (json true true)) default_service) start
          = (Return None,
             snd (get_cached_result (lit "ABC123")
                    (answering (Response 503 (json true true)) default_service) start)))
    as Hmiss by (vm_compute; reflexivity).
  destruct (validator_failure _ start (lit "ABC123") 0.95 _ Hmiss) as [Herr _].
  destruct (Herr 503%Z (json true true)) as (_ & Hr & _ & _ & Hc & Hf & Hl);
    [reflexivity | lia | lia |].
  split; [exact Hmiss|]. split; [exact Hr|]. repeat split; assumption.
Defined.

(** ** Fines by plate *)

(** The fine a scan creates carries the plate as the scanner read it. *)
Lemma issued_fine_plate_number env w plate_number r w' status w3 :
  check_vehicle plate_number env w = (r, w') ->
  r = Return status ->
  Fine.plate_number (issued_fine env w3 status) = plate_number.
Proof.
  intros Hcheck Hr. destruct (check_vehicle_frame _ _ _ _ _ Hcheck) as (_ & _ & _ & Hp).
  unfold issued_fine.
  destruct (FineService.calculate_fine (fine_service env) status). simpl. auto.
Qed.

(** C7.  What the code does at ["ABC 123"] (scenario A): the fine created
    for the scan carries ["ABC 123"], the plate as read, not its key
    ["ABC123"]; a query of the fines by ["ABC 123"] looks for ["ABC123"] and
    finds none. *)
Theorem fine_not_found_by_plate :
  List.map Fine.plate_number (fines after_first_scan) = [lit "ABC 123"] /\
  _normalize_plate (lit "ABC 123") = lit "ABC123" /\
  fst (get_fine_by_plate (lit "ABC 123") scenario_env after_first_scan) = Return [].
Proof. repeat split; vm_compute; reflexivity. Qed.

(** ** The keys of the cache *)

Lemma normalize_is_key x : _normalize_plate (_normalize_plate x) = _normalize_plate x.
Proof.
  apply normalize_fixed;
    [apply normalize_upper | apply normalize_no_separator; now left
     | apply normalize_no_separator; now right].
Qed.

Lemma well_keyed_empty : well_keyed ∅.
Proof. intros key entry H. now rewrite lookup_empty in H. Qed.

Lemma well_keyed_delete m key : well_keyed m -> well_keyed (delete key m).
Proof.
  intros Hm k e H. apply lookup_delete_Some in H as [_ H]. now apply Hm.
Qed.

Lemma well_keyed_insert m plate_number result t :
  well_keyed m ->
  well_keyed (<[_normalize_plate plate_number :=
                  {| CacheEntry.plate_number := _normalize_plate plate_number;
                     CacheEntry.result := result;
                     CacheEntry.timestamp := t |}]> m).
Proof.
  intros Hm k e H. apply lookup_insert_Some in H as [[<- <-] | [_ H]].
  - split; [apply normalize_is_key | reflexivity].
  - now apply Hm.
Qed.

Lemma well_keyed_drop_all keys self :
  well_keyed (PlateCache._cache self) ->
  well_keyed (PlateCache._cache
                (List.fold_left (fun c key => drop_entry key c) keys self)).
Proof.
  revert self. induction keys as [|key keys IH]; intros self H; [exact H|].
  simpl. apply IH. simpl. now apply well_keyed_delete.
Qed.

(** The comprehension of [cleanup_expired] reads the clock and changes
    nothing else. *)
Lemma expired_keys_run cooldown items env w :
  exists keys,
    expired_keys cooldown items env w =
      (Return keys,
       {| plate_cache := plate_cache w; fines := fines w;
          scan_logs := scan_logs w; ticks := length items + ticks w |}).
Proof.
  revert w. induction items as [|[key entry] items IH]; intros w.
  - exists []. destruct w; reflexivity.
  - simpl. run. destruct (IH (tick w)) as [keys Hk]. unfold tick in Hk.
    rewrite Hk. run. eexists. f_equal. f_equal. simpl. lia.
Qed.

Lemma get_cached_result_well_keyed env w plate_number :
  well_keyed (PlateCache._cache (plate_cache w)) ->
  well_keyed (PlateCache._cache
                (plate_cache (snd (get_cached_result plate_number env w)))).
Proof.
  intros H. destruct (cached_entry w plate_number) as [entry|] eqn:He.
  - destruct (live_dec w (clock env (ticks w)) entry) as [Hl|Hl].
    + now rewrite (get_cached_result_hit env w plate_number entry He Hl).
    + rewrite (get_cached_result_expired env w plate_number entry He Hl).
      simpl. now apply well_keyed_delete.
  - now rewrite (get_cached_result_absent env w plate_number He).
Qed.

Lemma process_plate_well_keyed env w plate_number confidence :
  well_keyed (PlateCache._cache (plate_cache w)) ->
  well_keyed (PlateCache._cache
                (plate_cache (snd (_process_plate plate_number confidence env w)))).
Proof.
  intros H.
  pose proof (get_cached_result_well_keyed env w plate_number H) as H1.
  destruct (get_cached_result plate_number env w) as [r w1] eqn:Hget.
  destruct (get_cached_result_returns env w plate_number) as [[status|] Hr];
    rewrite Hget in Hr; simpl in Hr; subst r.
  - assert (hit env w plate_number status) as Hhit
      by (apply get_cached_result_Some; now rewrite Hget).
    now rewrite (process_hit env w plate_number confidence status Hhit).
  - simpl in H1.
    destruct (check_vehicle plate_number env w1) as [[status|e] w2] eqn:Hcheck;
      destruct (check_vehicle_frame _ _ _ _ _ Hcheck) as (Hc & _).
    + destruct (process_validated env w plate_number confidence w1 status w2
                  Hget Hcheck) as (fine_record & w' & -> & Hc').
      cbn [snd]. rewrite Hc', add_plate_run. simpl. rewrite Hc.
      now apply well_keyed_insert.
    + rewrite (process_raise env w plate_number confidence w1 e w2 Hget Hcheck).
      simpl. now rewrite Hc.
Qed.

Lemma call_well_keyed env c w :
  well_keyed (PlateCache._cache (plate_cache w)) ->
  well_keyed (PlateCache._cache (plate_cache (snd (call c env w)))).
Proof.
  intros H. destruct c as [p|p|p result| | |p confidence]; unfold call.
  - unfold is_recently_scanned. run.
    destruct (PlateCache._cache (plate_cache w) !! _normalize_plate p); [|exact H].
    destruct (negb _); simpl; [exact H | now apply well_keyed_delete].
  - pose proof (get_cached_result_well_keyed env w p H) as H1. run.
    destruct (get_cached_result p env w) as [[r|e] w1]; exact H1.
  - rewrite add_plate_run. simpl. now apply well_keyed_insert.
  - unfold cleanup_expired. run.
    destruct (expired_keys_run (PlateCache._cooldown (plate_cache w))
                (map_to_list (PlateCache._cache (plate_cache w))) env w) as [keys ->].
    simpl. now apply well_keyed_drop_all.
  - apply well_keyed_empty.
  - pose proof (process_plate_well_keyed env w p confidence H) as H1. run.
    destruct (_process_plate p confidence env w) as [[r|e] w1]; exact H1.
Qed.

Lemma after_well_keyed trace w :
  well_keyed (PlateCache._cache (plate_cache w)) ->
  well_keyed (PlateCache._cache (plate_cache (after trace w))).
Proof.
  revert w. induction trace as [|[env c] trace IH]; intros w H; [exact H|].
  apply IH. now apply call_well_keyed.
Qed.

(** ** The cache: one entry per key *)

(** C8.  The cache holds at most one entry per normalized key at every
    instant: in every state the cache reaches from start-up, two entries
    whose keys normalize alike are one entry, and the dictionary lists at
    most one entry under a key.  An insert for a key that has an entry
    replaces it by one with the time of the insert: after two inserts of
    plates with the same key the cache holds exactly one entry for the key,
    the second status with the second insert's clock reading; it has grown
    by no entry at the second insert, and the entries of other keys are
    untouched. *)
Theorem add_plate_replaces (env : Env) (w : World)
    (plate1 plate2 : str) (status1 status2 : VehicleStatus.t) :
  _normalize_plate plate1 = _normalize_plate plate2 ->
  let key := _normalize_plate plate2 in
  let w1 := snd (add_plate plate1 status1 env w) in
  let w2 := snd (add_plate plate2 status2 env w1) in
  let second :=
    {| CacheEntry.plate_number := key;
       CacheEntry.result := status2;
       CacheEntry.timestamp := clock env (ticks w1) |} in
  (forall settings cooldown_minutes trace key1 entry1 key2 entry2,
     let reached := after trace (initial settings cooldown_minutes) in
     PlateCache._cache (plate_cache reached) !! key1 = Some entry1 ->
     PlateCache._cache (plate_cache reached) !! key2 = Some entry2 ->
     _normalize_plate key1 = _normalize_plate key2 ->
     key1 = key2 /\ entry1 = entry2) /\
  (forall (self : PlateCache.t) (k : str), length (entries_for k self) <= 1) /\
  entries_for key (plate_cache w1) =
    [(key, {| CacheEntry.plate_number := key;
              CacheEntry.result := status1;
              CacheEntry.timestamp := clock env (ticks w) |})] /\
  entries_for key (plate_cache w2) = [(key, second)] /\
  PlateCache._cache (plate_cache w2) !! key = Some second /\
  size (PlateCache._cache (plate_cache w2)) = size (PlateCache._cache (plate_cache w1)) /\
  (forall k, k <> key ->
     PlateCache._cache (plate_cache w2) !! k = PlateCache._cache (plate_cache w) !! k).
Proof.
  intros Hkey. cbv zeta. rewrite !add_plate_run. simpl. rewrite Hkey.
  split; [|split; [|split; [|split; [|split; [|split]]]]].
  - intros settings cooldown_minutes trace key1 entry1 key2 entry2 H1 H2 Hsame.
    pose proof (after_well_keyed trace (initial settings cooldown_minutes)
                  well_keyed_empty) as Hwk.
    destruct (Hwk _ _ H1) as [Hk1 _], (Hwk _ _ H2) as [Hk2 _].
    assert (key1 = key2) as -> by congruence.
    split; [reflexivity | congruence].
  - intros self k. rewrite entries_for_lookup.
    destruct (PlateCache._cache self !! k); simpl; lia.
  - rewrite entries_for_lookup. simpl. now rewrite lookup_insert_eq.
  - rewrite entries_for_lookup. simpl. now rewrite lookup_insert_eq.
  - now rewrite lookup_insert_eq.
  - rewrite insert_insert_eq, !map_size_insert. reflexivity.
  - intros k Hk. rewrite !lookup_insert_ne by congruence. reflexivity.
Qed.

(** ["ABC 123"] and ["abc-123"] share the key ["ABC123"]: after the two
    inserts the cache lists one entry for it, the second status at the
    second reading of the clock. *)
Lemma add_plate_replaces_witness :
  let env := answering RequestError default_service in
  let status1 := {| VehicleStatus.plate_number := lit "ABC 123";
                    VehicleStatus.owner_name := None;
                    VehicleStatus.owner_id := None;
                    VehicleStatus.road_tax_valid := false;
                    VehicleStatus.road_tax_expiry := None;
                    VehicleStatus.insurance_valid := true;
                    VehicleStatus.insurance_expiry := None |} in
  let status2 := {| VehicleStatus.plate_number := lit "abc-123";
                    VehicleStatus.owner_name := None;
                    VehicleStatus.owner_id := None;
                    VehicleStatus.road_tax_valid := true;
                    VehicleStatus.road_tax_expiry := None;
                    VehicleStatus.insurance_valid := true;
                    VehicleStatus.insurance_expiry := None |} in
  let w1 := snd (add_plate (lit "ABC 123") status1 env start) in
  let w2 := snd (add_plate (lit "abc-123") status2 env w1) in
  _normalize_plate (lit "ABC 123") = _normalize_plate (lit "abc-123") /\
  entries_for (lit "ABC123") (plate_cache w2) =
    [(lit "ABC123",
      {| CacheEntry.plate_number := lit "ABC123";
         CacheEntry.result := status2;
         CacheEntry.timestamp := scenario_clock 1 |})].
Proof.
  cbv zeta.
  assert (_normalize_plate (lit "ABC 123") = _normalize_plate (lit "abc-123")) as H
    by (vm_compute; reflexivity).
  split; [exact H|].
  exact (proj1 (proj2 (proj2 (proj2 (add_plate_replaces _ start _ _ _ _ H))))).
Defined.

(** ** The scenarios of the specification, run *)

(** Scenario A: one fine of 450.00 for both obligations, and the cache
    holds the status under ["ABC123"]. *)
Example scenario_A :
  List.map (fun f => (Fine.fine_amount f, Fine.fine_type f)) (fines after_first_scan)
    = [(450%float, lit "both")] /\
  List.map ScanLog.fine_issued (scan_logs after_first_scan) = [true] /\
  List.map fst (map_to_list (PlateCache._cache (plate_cache after_first_scan)))
    = [lit "ABC123"].
Proof. repeat split; vm_compute; reflexivity. Qed.

(** Scenario B: two minutes later the scan hits the cache; nothing is added
    to the tables, and the cache counts one hit and one miss. *)
Example scenario_B :
  fines after_second_scan = fines after_first_scan /\
  scan_logs after_second_scan = scan_logs after_first_scan /\
  PlateCache._hit_count (plate_cache after_second_scan) = 1%Z /\
  PlateCache._miss_count (plate_cache after_second_scan) = 1%Z.
Proof. repeat split; vm_compute; reflexivity. Qed.

(** Scenario C: six minutes after the first scan the entry has expired; the
    lookup misses, the validator is asked again, and a second fine follows. *)
Example scenario_C :
  fst (get_cached_result (lit "ABC 123") scenario_env after_second_scan) = Return None /\
  length (fines after_third_scan) = 2 /\
  PlateCache._miss_count (plate_cache after_third_scan) = 2%Z /\
  CacheEntry.timestamp <$> cached_entry after_third_scan (lit "ABC 123")
    = Some (minutes 6).
Proof. repeat split; vm_compute; reflexivity. Qed.

(** An entry exactly as old as the cooldown is still live; a microsecond
    later it has expired. *)
Example lookup_at_the_cooldown :
  let status := unknown_vehicle (lit "ABC123") in
  let on_time := with_clock cooldown_clock scenario_env in
  let late := with_clock late_clock scenario_env in
  fst (get_cached_result (lit "ABC123") on_time
         (snd (add_plate (lit "ABC123") status on_time start)))
    = Return (Some status) /\
  fst (get_cached_result (lit "ABC123") late
         (snd (add_plate (lit "ABC123") status late start)))
    = Return None.
Proof. cbv zeta. split; vm_compute; reflexivity. Qed.

(** * More properties *)

(** ** The cache: insert, then look up *)

Lemma entry_after_insert env w plate1 status w' plate2 :
  _normalize_plate plate1 = _normalize_plate plate2 ->
  plate_cache w' = plate_cache (snd (add_plate plate1 status env w)) ->
  cached_entry w' plate2 =
    Some {| CacheEntry.plate_number := _normalize_plate plate1;
            CacheEntry.result := status;
            CacheEntry.timestamp := clock env (ticks w) |} /\
  PlateCache._cooldown (plate_cache w') = PlateCache._cooldown (plate_cache w).
Proof.
  intros Hkey Hcache. unfold cached_entry.
  rewrite Hcache, add_plate_run, <- Hkey. simpl.
  split; [apply lookup_insert_eq | reflexivity].
Qed.

(** X1.  A status inserted for a plate is what a lookup of any plate with
    the same key returns, as long as the clock at the lookup reads no more
    than the cooldown after the insert; later than that the lookup returns
    [None] and the entry is gone.  What happens in between does not matter,
    as long as it leaves the cache alone. *)
Theorem insert_then_lookup (env : Env) (w : World) (plate1 : str)
    (status : VehicleStatus.t) (env' : Env) (w' : World) (plate2 : str) :
  _normalize_plate plate1 = _normalize_plate plate2 ->
  plate_cache w' = plate_cache (snd (add_plate plate1 status env w)) ->
  let inserted_at := clock env (ticks w) in
  let looked_up_at := clock env' (ticks w') in
  let cooldown := PlateCache._cooldown (plate_cache w) in
  let returned := fst (get_cached_result plate2 env' w') in
  let self' := plate_cache (snd (get_cached_result plate2 env' w')) in
  ((looked_up_at - inserted_at <= cooldown)%Z ->
     returned = Return (Some status) /\
     PlateCache._cache self' = PlateCache._cache (plate_cache w')) /\
  ((cooldown < looked_up_at - inserted_at)%Z ->
     returned = Return None /\
     PlateCache._cache self' !! _normalize_plate plate2 = None).
Proof.
  intros Hkey Hcache. cbv zeta.
  destruct (entry_after_insert env w plate1 status w' plate2 Hkey Hcache) as [He Hcd].
  split; intros Hage.
  - rewrite (get_cached_result_hit env' w' plate2 _ He)
      by (unfold live; simpl; lia).
    split; reflexivity.
  - rewrite (get_cached_result_expired env' w' plate2 _ He)
      by (unfold live; simpl; lia).
    split; [reflexivity|]. simpl. apply lookup_delete_eq.
Qed.

(** ["abc-123"] looked up right after ["ABC 123"] was inserted, on a clock
    that advances by the cooldown between readings. *)
Lemma insert_then_lookup_witness :
  let env := with_clock cooldown_clock scenario_env in
  let status := unknown_vehicle (lit "ABC 123") in
  let w1 := snd (add_plate (lit "ABC 123") status env start) in
  _normalize_plate (lit "ABC 123") = _normalize_plate (lit "abc-123") /\
  (clock env (ticks w1) - clock env (ticks start)
     <= PlateCache._cooldown (plate_cache start))%Z /\
  fst (get_cached_result (lit "abc-123") env w1) = Return (Some status).
Proof.
  cbv zeta.
  assert (_normalize_plate (lit "ABC 123") = _normalize_plate (lit "abc-123")) as Hk
    by (vm_compute; reflexivity).
  assert (clock (with_clock cooldown_clock scenario_env)
            (ticks (snd (add_plate (lit "ABC 123") (unknown_vehicle (lit "ABC 123"))
                           (with_clock cooldown_clock scenario_env) start)))
          - clock (with_clock cooldown_clock scenario_env) (ticks start)
          <= PlateCache._cooldown (plate_cache start))%Z as Hage
    by (vm_compute; discriminate).
  split; [exact Hk|]. split; [exact Hage|].
  exact (proj1 (proj1 (insert_then_lookup _ start _ _ _ _ _ Hk eq_refl) Hage)).
Defined.

(** ** [is_recently_scanned] *)

(** X2.  [is_recently_scanned] answers [True] exactly when a lookup in the
    same state would return a status; like the lookup it deletes an entry
    it finds expired, but it counts neither a hit nor a miss. *)
Theorem is_recently_scanned_agrees (env : Env) (w : World) (plate_number : str) :
  let answer := fst (is_recently_scanned plate_number env w) in
  let w' := snd (is_recently_scanned plate_number env w) in
  let looked_up := get_cached_result plate_number env w in
  (answer = Return true \/ answer = Return false) /\
  (answer = Return true <-> exists status, fst looked_up = Return (Some status)) /\
  PlateCache._cache (plate_cache w') = PlateCache._cache (plate_cache (snd looked_up)) /\
  PlateCache._hit_count (plate_cache w') = PlateCache._hit_count (plate_cache w) /\
  PlateCache._miss_count (plate_cache w') = PlateCache._miss_count (plate_cache w) /\
  fines w' = fines w /\ scan_logs w' = scan_logs w.
Proof.
  cbv zeta. unfold is_recently_scanned. run.
  fold (cached_entry w plate_number).
  destruct (cached_entry w plate_number) as [entry|] eqn:He.
  - destruct (live_dec w (clock env (ticks w)) entry) as [Hl|Hl].
    + rewrite (get_cached_result_hit env w plate_number entry He Hl).
      apply is_expired_false in Hl. rewrite Hl. simpl.
      repeat split; eauto.
    + rewrite (get_cached_result_expired env w plate_number entry He Hl).
      apply is_expired_true in Hl. rewrite Hl. simpl.
      repeat split; auto; try discriminate. intros [status [=]].
  - rewrite (get_cached_result_absent env w plate_number He). simpl.
    repeat split; auto; try discriminate. intros [status [=]].
Qed.

(** ** [cleanup_expired] *)

Lemma expired_keys_eq cooldown items env w :
  expired_keys cooldown items env w =
    (Return (expired_from (clock env) (ticks w) cooldown items),
     ticked (length items) w).
Proof.
  revert w. induction items as [|[key entry] items IH]; intros w.
  - destruct w; reflexivity.
  - simpl. run. specialize (IH (tick w)). unfold tick in IH. rewrite IH.
    unfold ticked. simpl. f_equal. f_equal. lia.
Qed.




Lemma drop_all_counters keys self :
  let self' := List.fold_left (fun c key => drop_entry key c) keys self in
  PlateCache._hit_count self' = PlateCache._hit_count self /\
  PlateCache._miss_count self' = PlateCache._miss_count self /\
  PlateCache._cooldown self' = PlateCache._cooldown self.
Proof.
  revert self. induction keys as [|key keys IH]; intros self; simpl; [auto|].
  apply (IH (drop_entry key self)).
Qed.


Lemma cleanup_expired_run env w :
  let self := plate_cache w in
  let keys := expired_from (clock env) (ticks w) (PlateCache._cooldown self)
                (map_to_list (PlateCache._cache self)) in
  cleanup_expired env w =
    (Return (Z.of_nat (length keys)),
     {| plate_cache := List.fold_left (fun c key => drop_entry key c) keys self;
        fines := fines w; scan_logs := scan_logs w;
        ticks := size (PlateCache._cache self) + ticks w |}).
Proof.
  cbv zeta. unfold cleanup_expired. run. rewrite expired_keys_eq.
  unfold ticked. simpl. rewrite length_map_to_list. reflexivity.
Qed.


Lemma is_recently_scanned_frame env w plate_number :
  let w' := snd (is_recently_scanned plate_number env w) in
  PlateCache._hit_count (plate_cache w') = PlateCache._hit_count (plate_cache w) /\
  PlateCache._miss_count (plate_cache w') = PlateCache._miss_count (plate_cache w) /\
  PlateCache._cooldown (plate_cache w') = PlateCache._cooldown (plate_cache w).
Proof.
  cbv zeta. unfold is_recently_scanned. run.
  destruct (PlateCache._cache (plate_cache w) !! _normalize_plate plate_number);
    [|auto].
  destruct (negb _); simpl; auto.
Qed.

(** ** The counters *)

Lemma get_cached_result_counts env w plate_number :
  let self := plate_cache w in
  let self' := plate_cache (snd (get_cached_result plate_number env w)) in
  PlateCache._cooldown self' = PlateCache._cooldown self /\
  ((PlateCache._hit_count self' = (PlateCache._hit_count self + 1)%Z /\
    PlateCache._miss_count self' = PlateCache._miss_count self) \/
   (PlateCache._hit_count self' = PlateCache._hit_count self /\
    PlateCache._miss_count self' = (PlateCache._miss_count self + 1)%Z)).
Proof.
  cbv zeta. destruct (cached_entry w plate_number) as [entry|] eqn:He.
  - destruct (live_dec w (clock env (ticks w)) entry) as [Hl|Hl].
    + rewrite (get_cached_result_hit env w plate_number entry He Hl). simpl. auto.
    + rewrite (get_cached_result_expired env w plate_number entry He Hl). simpl. auto.
  - rewrite (get_cached_result_absent env w plate_number He). simpl. auto.
Qed.

(** A scan leaves the counters as its lookup left them. *)
Lemma process_plate_counts env w plate_number confidence :
  let looked_up := plate_cache (snd (get_cached_result plate_number env w)) in
  let self' := plate_cache (snd (_process_plate plate_number confidence env w)) in
  PlateCache._hit_count self' = PlateCache._hit_count looked_up /\
  PlateCache._miss_count self' = PlateCache._miss_count looked_up /\
  PlateCache._cooldown self' = PlateCache._cooldown looked_up.
Proof.
  cbv zeta.
  destruct (get_cached_result plate_number env w) as [r w1] eqn:Hget.
  destruct (get_cached_result_returns env w plate_number) as [[status|] Hr];
    rewrite Hget in Hr; simpl in Hr; subst r.
  - assert (hit env w plate_number status) as Hhit
      by (apply get_cached_result_Some; now rewrite Hget).
    pose proof Hhit as (entry & He & Hl & _).
    rewrite (get_cached_result_hit env w plate_number entry He Hl) in Hget.
    injection Hget as _ <-.
    rewrite (process_hit env w plate_number confidence status Hhit). auto.
  - destruct (check_vehicle plate_number env w1) as [[status|e] w2] eqn:Hcheck;
      destruct (check_vehicle_frame _ _ _ _ _ Hcheck) as (Hc & _).
    + destruct (process_validated env w plate_number confidence w1 status w2
                  Hget Hcheck) as (fine_record & w' & -> & Hc').
      cbn [snd]. rewrite Hc', add_plate_run. simpl. rewrite Hc. auto.
    + rewrite (process_raise env w plate_number confidence w1 e w2 Hget Hcheck).
      simpl. rewrite Hc. auto.
Qed.

Lemma call_counted env c w :
  let self := plate_cache w in
  let self' := plate_cache (snd (call c env w)) in
  (0 <= PlateCache._hit_count self)%Z -> (0 <= PlateCache._miss_count self)%Z ->
  (0 <= PlateCache._hit_count self')%Z /\ (0 <= PlateCache._miss_count self')%Z /\
  counted self' = lookups_since_clear [(env, c)] (counted self).
Proof.
  cbv zeta. intros Hh Hm. unfold counted, lookups_since_clear.
  destruct c as [p|p|p result| | |p confidence]; unfold call; simpl List.fold_left;
    cbn [snd].
  - destruct (is_recently_scanned_frame env w p) as (Hh' & Hm' & _).
    run. destruct (is_recently_scanned p env w) as [[b|e] w']; simpl in *; lia.
  - destruct (get_cached_result_counts env w p) as (_ & Hc). run.
    destruct (get_cached_result p env w) as [[r|e] w']; simpl in *; lia.
  - rewrite add_plate_run. simpl. lia.
  - run. rewrite cleanup_expired_run. simpl.
    destruct (drop_all_counters
                (expired_from (clock env) (ticks w)
                   (PlateCache._cooldown (plate_cache w))
                   (map_to_list (PlateCache._cache (plate_cache w))))
                (plate_cache w)) as (Hh' & Hm' & _).
    simpl in Hh', Hm'. lia.
  - simpl. lia.
  - destruct (process_plate_counts env w p confidence) as (Hh' & Hm' & _).
    destruct (get_cached_result_counts env w p) as (_ & Hc). run.
    destruct (_process_plate p confidence env w) as [[r|e] w']; simpl in *; lia.
Qed.

Lemma after_counted trace w :
  (0 <= PlateCache._hit_count (plate_cache w))%Z ->
  (0 <= PlateCache._miss_count (plate_cache w))%Z ->
  (0 <= PlateCache._hit_count (plate_cache (after trace w)))%Z /\
  (0 <= PlateCache._miss_count (plate_cache (after trace w)))%Z /\
  counted (plate_cache (after trace w))
    = lookups_since_clear trace (counted (plate_cache w)).
Proof.
  revert w. induction trace as [|[env c] trace IH]; intros w Hh Hm; [auto|].
  destruct (call_counted env c w Hh Hm) as (Hh' & Hm' & Hc).
  destruct (IH _ Hh' Hm') as (Hh'' & Hm'' & Hc'').
  change (after ((env, c) :: trace) w) with (after trace (snd (call c env w))).
  change (lookups_since_clear ((env, c) :: trace) (counted (plate_cache w)))
    with (lookups_since_clear trace
            (lookups_since_clear [(env, c)] (counted (plate_cache w)))).
  rewrite <- Hc. auto.
Qed.

(** X4.  In every state the cache reaches from start-up, the hits and the
    misses add up to the number of lookups (calls of [get_cached_result],
    scans included) made since the cache was last cleared, and neither is
    negative: [is_recently_scanned], [add_plate] and [cleanup_expired]
    count nothing. *)
Theorem counters_count_lookups (settings : Settings.t) (cooldown_minutes : option Z)
    (trace : list (Env * Call)) :
  let self := plate_cache (after trace (initial settings cooldown_minutes)) in
  (0 <= PlateCache._hit_count self)%Z /\
  (0 <= PlateCache._miss_count self)%Z /\
  (PlateCache._hit_count self + PlateCache._miss_count self)%Z
    = lookups_since_clear trace 0.
Proof.
  cbv zeta.
  destruct (after_counted trace (initial settings cooldown_minutes)) as (Hh & Hm & Hc);
    [simpl; lia | simpl; lia |].
  split; [exact Hh|]. split; [exact Hm|]. exact Hc.
Qed.

(** ** [get_stats] *)

Lemma count_expired_eq cooldown items env w :
  count_expired cooldown (List.map snd items) env w =
    (Return (Z.of_nat (length (expired_from (clock env) (ticks w) cooldown items))),
     ticked (length items) w).
Proof.
  revert w. induction items as [|[key entry] items IH]; intros w.
  - destruct w; reflexivity.
  - simpl. run. specialize (IH (tick w)). unfold tick in IH. rewrite IH.
    unfold ticked. simpl.
    destruct (CacheEntry.is_expired entry (clock env (ticks w)) cooldown);
      simpl; rewrite ?Nat2Z.inj_succ, ?Nat.add_succ_r, <- ?Z.add_1_l; reflexivity.
Qed.

Lemma expired_from_length clock n cooldown items :
  length (expired_from clock n cooldown items) <= length items.
Proof.
  revert n. induction items as [|[key entry] items IH]; intros n; simpl; [lia|].
  destruct (CacheEntry.is_expired entry (clock n) cooldown); simpl;
    specialize (IH (S n)); lia.
Qed.

(** X5.  [get_stats] changes nothing but the number of readings of the
    clock, one for each entry.  It reports the size of the cache as the
    total; as expired the number of entries a [cleanup_expired] would remove
    at the same readings, which is at most the total; as active the rest;
    the two counters as they are; and a hit rate of 0.0 when nothing has
    been counted, the rounded quotient of the hits by the requests
    otherwise. *)
Theorem get_stats_spec (env : Env) (w : World) :
  let self := plate_cache w in
  exists stats,
    get_stats env w = (Return stats, ticked (size (PlateCache._cache self)) w) /\
    CacheStats.total_entries stats = Z.of_nat (size (PlateCache._cache self)) /\
    fst (cleanup_expired env w) = Return (CacheStats.expired_entries stats) /\
    (0 <= CacheStats.expired_entries stats <= CacheStats.total_entries stats)%Z /\
    (CacheStats.active_entries stats + CacheStats.expired_entries stats)%Z
      = CacheStats.total_entries stats /\
    CacheStats.hit_count stats = PlateCache._hit_count self /\
    CacheStats.miss_count stats = PlateCache._miss_count self /\
    ((counted self <= 0)%Z -> CacheStats.hit_rate stats = 0%float) /\
    ((0 < counted self)%Z ->
       CacheStats.hit_rate stats
         = true_divide (PlateCache._hit_count self) (counted self)).
Proof.
  cbv zeta. unfold get_stats. run. rewrite count_expired_eq. run.
  rewrite length_map_to_list, cleanup_expired_run. cbn [fst].
  pose proof (expired_from_length (clock env) (ticks w)
                (PlateCache._cooldown (plate_cache w))
                (map_to_list (PlateCache._cache (plate_cache w)))) as Hle.
  rewrite length_map_to_list in Hle.
  eexists. split; [reflexivity|]. cbn.
  repeat split; try lia; unfold counted.
  - intros Hz. destruct (Z.ltb_spec 0
      (PlateCache._hit_count (plate_cache w) + PlateCache._miss_count (plate_cache w)));
      [lia | reflexivity].
  - intros Hz. destruct (Z.ltb_spec 0
      (PlateCache._hit_count (plate_cache w) + PlateCache._miss_count (plate_cache w)));
      [reflexivity | lia].
Qed.

(** The statistics after scenario B: one entry, one hit, one miss, a hit
    rate of one half. *)
Example stats_after_second_scan :
  fst (get_stats scenario_env after_second_scan) =
    Return {| CacheStats.total_entries := 1;
              CacheStats.active_entries := 0;
              CacheStats.expired_entries := 1;
              CacheStats.hit_count := 1;
              CacheStats.miss_count := 1;
              CacheStats.hit_rate := 0.5 |}.
Proof. vm_compute. reflexivity. Qed.

(** ** [get_or_fetch] *)

Lemma get_or_fetch_hit env w plate_number fetch_func status :
  fst (get_cached_result plate_number env w) = Return (Some status) ->
  get_or_fetch plate_number fetch_func env w
    = (Return (status, true), snd (get_cached_result plate_number env w)).
Proof.
  unfold get_or_fetch. run.
  destruct (get_cached_result plate_number env w) as [r w1]. cbn [fst snd].
  intros ->. reflexivity.
Qed.

Lemma get_or_fetch_fetched env w plate_number fetch_func w1 status w2 :
  get_cached_result plate_number env w = (Return None, w1) ->
  fetch_func plate_number env w1 = (Return status, w2) ->
  get_or_fetch plate_number fetch_func env w
    = (Return (status, false), snd (add_plate plate_number status env w2)).
Proof.
  intros Hmiss Hfetch. unfold get_or_fetch. run. rewrite Hmiss, Hfetch.
  rewrite add_plate_run. reflexivity.
Qed.

Lemma get_or_fetch_raised env w plate_number fetch_func w1 e w2 :
  get_cached_result plate_number env w = (Return None, w1) ->
  fetch_func plate_number env w1 = (Raise e, w2) ->
  get_or_fetch plate_number fetch_func env w = (Raise e, w2).
Proof.
  intros Hmiss Hfetch. unfold get_or_fetch. run. now rewrite Hmiss, Hfetch.
Qed.

(** X6.  [get_or_fetch] calls [fetch_func] only on a miss, once, with the
    plate as it was given.  On a hit it returns the cached status and
    [True], and the state is the one the lookup left, whatever [fetch_func]
    is.  On a miss, when [fetch_func] returns a status, it is cached under
    the plate's key with the time of the insert, and returned with [False];
    when [fetch_func] raises, the exception goes to the caller and nothing
    is inserted. *)
Theorem get_or_fetch_spec (env : Env) (w : World) (plate_number : str)
    (fetch_func : str -> M VehicleStatus.t) :
  let looked_up := get_cached_result plate_number env w in
  let w1 := snd looked_up in
  (forall status,
     fst looked_up = Return (Some status) ->
     get_or_fetch plate_number fetch_func env w = (Return (status, true), w1)) /\
  (fst looked_up = Return None ->
     (forall status w2,
        fetch_func plate_number env w1 = (Return status, w2) ->
        get_or_fetch plate_number fetch_func env w
          = (Return (status, false), snd (add_plate plate_number status env w2)) /\
        cached_entry (snd (get_or_fetch plate_number fetch_func env w)) plate_number
          = Some {| CacheEntry.plate_number := _normalize_plate plate_number;
                    CacheEntry.result := status;
                    CacheEntry.timestamp := clock env (ticks w2) |}) /\
     (forall e w2,
        fetch_func plate_number env w1 = (Raise e, w2) ->
        get_or_fetch plate_number fetch_func env w = (Raise e, w2))).
Proof.
  cbv zeta. split.
  - intros status Hhit. now apply get_or_fetch_hit.
  - intros Hnone.
    destruct (get_cached_result plate_number env w) as [r w1] eqn:Hget.
    cbn [fst snd] in *. subst r. split.
    + intros status w2 Hfetch.
      rewrite (get_or_fetch_fetched env w plate_number fetch_func w1 status w2
                 Hget Hfetch).
      split; [reflexivity|]. cbn [snd]. rewrite add_plate_run.
      unfold cached_entry. simpl. apply lookup_insert_eq.
    + intros e w2 Hfetch. now apply (get_or_fetch_raised env w _ _ w1).
Qed.

(** X7.  After a [get_or_fetch] that fetched a status, a [get_or_fetch] of a
    plate with the same key, made while the clock reads no more than the
    cooldown after the insert, returns that status and [True]; its own
    [fetch_func] is not called. *)
Theorem get_or_fetch_twice (env : Env) (w : World) (plate1 : str)
    (fetch1 : str -> M VehicleStatus.t) (w1 : World) (status : VehicleStatus.t)
    (w2 : World) (env' : Env) (plate2 : str) (fetch2 : str -> M VehicleStatus.t) :
  get_cached_result plate1 env w = (Return None, w1) ->
  fetch1 plate1 env w1 = (Return status, w2) ->
  _normalize_plate plate1 = _normalize_plate plate2 ->
  let w3 := snd (get_or_fetch plate1 fetch1 env w) in
  (clock env' (ticks w3) - clock env (ticks w2)
     <= PlateCache._cooldown (plate_cache w2))%Z ->
  fst (get_or_fetch plate2 fetch2 env' w3) = Return (status, true) /\
  snd (get_or_fetch plate2 fetch2 env' w3) = snd (get_cached_result plate2 env' w3).
Proof.
  intros Hmiss Hfetch Hkey w3 Hage.
  assert (w3 = snd (add_plate plate1 status env w2)) as Hw3
    by (unfold w3;
        now rewrite (get_or_fetch_fetched env w plate1 fetch1 w1 status w2 Hmiss Hfetch)).
  destruct (entry_after_insert env w2 plate1 status w3 plate2 Hkey
              (f_equal plate_cache Hw3)) as [He Hcd].
  assert (fst (get_cached_result plate2 env' w3) = Return (Some status)) as Hret.
  { rewrite (get_cached_result_hit env' w3 plate2 _ He); [reflexivity|].
    unfold live. simpl. lia. }
  rewrite (get_or_fetch_hit env' w3 plate2 fetch2 status Hret). split; reflexivity.
Qed.

(** The validator as [fetch_func]: ["ABC 123"] is fetched, and a lookup of
    ["abc-123"] right after it is answered from the cache, by a
    [fetch_func] that would raise if it were called. *)
Lemma get_or_fetch_twice_witness :
  let w1 := snd (get_cached_result (lit "ABC 123") scenario_env start) in
  let status := status_of_json (lit "ABC 123") (json false false) in
  let w3 := snd (get_or_fetch (lit "ABC 123") check_vehicle scenario_env start) in
  get_cached_result (lit "ABC 123") scenario_env start = (Return None, w1) /\
  check_vehicle (lit "ABC 123") scenario_env w1 = (Return status, w1) /\
  _normalize_plate (lit "ABC 123") = _normalize_plate (lit "abc-123") /\
  (clock scenario_env (ticks w3) - clock scenario_env (ticks w1)
     <= PlateCache._cooldown (plate_cache w1))%Z /\
  fst (get_or_fetch (lit "abc-123") (fun _ => raise (Exc (lit "not called")))
         scenario_env w3) = Return (status, true).
Proof.
  cbv zeta.
  assert (get_cached_result (lit "ABC 123") scenario_env start
          = (Return None, snd (get_cached_result (lit "ABC 123") scenario_env start)))
    as Hmiss by (vm_compute; reflexivity).
  assert (check_vehicle (lit "ABC 123") scenario_env
            (snd (get_cached_result (lit "ABC 123") scenario_env start))
          = (Return (status_of_json (lit "ABC 123") (json false false)),
             snd (get_cached_result (lit "ABC 123") scenario_env start)))
    as Hfetch by (vm_compute; reflexivity).
  assert (_normalize_plate (lit "ABC 123") = _normalize_plate (lit "abc-123")) as Hkey
    by (vm_compute; reflexivity).
  assert (clock scenario_env
            (ticks (snd (get_or_fetch (lit "ABC 123") check_vehicle scenario_env start)))
          - clock scenario_env
              (ticks (snd (get_cached_result (lit "ABC 123") scenario_env start)))
          <= PlateCache._cooldown
               (plate_cache (snd (get_cached_result (lit "ABC 123") scenario_env start))))%Z
    as Hage by (vm_compute; discriminate).
  do 4 (split; [assumption|]).
  exact (proj1 (get_or_fetch_twice scenario_env start (lit "ABC 123") check_vehicle
                  _ _ _ scenario_env (lit "abc-123") _ Hmiss Hfetch Hkey Hage)).
Defined.

(** ** What a scan returns *)

Lemma process_plate_outcome (env : Env) (w : World) (plate_number : str)
    (confidence : float) :
  exists result w',
    _process_plate plate_number confidence env w = (Return result, w') /\
    ScanResult.plate_number result = plate_number /\
    ScanResult.confidence result = confidence /\
    ((ScanResult.fine_issued result = false /\
      ScanResult.fine_amount result = None /\
      fines w' = fines w) \/
     (ScanResult.fine_issued result = true /\
      exists fine,
        fines w' = fines w ++ [fine] /\
        ScanResult.fine_amount result = Some (Fine.fine_amount fine) /\
        Fine.plate_number fine = plate_number)) /\
    (ScanResult.error result <> None ->
       ScanResult.vehicle_status result = None /\
       ScanResult.fine_issued result = false /\
       fines w' = fines w /\ scan_logs w' = scan_logs w).
Proof.
  destruct (get_cached_result plate_number env w) as [r w1] eqn:Hget.
  destruct (get_cached_result_frame _ _ _ _ _ Hget) as [Hf1 Hl1].
  destruct (get_cached_result_returns env w plate_number) as [[status|] Hr];
    rewrite Hget in Hr; simpl in Hr; subst r.
  - assert (hit env w plate_number status) as Hhit
      by (apply get_cached_result_Some; now rewrite Hget).
    rewrite (process_hit env w plate_number confidence status Hhit).
    eexists _, _. split; [reflexivity|]. do 2 (split; [reflexivity|]).
    split; [left; auto|]. intros H. now contradiction H.
  - destruct (check_vehicle plate_number env w1) as [[status|e] w2] eqn:Hcheck;
      destruct (check_vehicle_frame _ _ _ _ _ Hcheck) as (_ & Hf2 & Hl2 & Hp).
    + destruct (VehicleStatus.is_compliant status) eqn:Hc;
        [|destruct (MIN_FINE_CONFIDENCE <=? confidence)%float eqn:Hconf].
      * rewrite (process_logged env w plate_number confidence w1 status w2
                   Hget Hcheck) by auto.
        rewrite log_scan_run, add_plate_run. simpl.
        eexists _, _. split; [reflexivity|]. do 2 (split; [reflexivity|]).
        split; [left; repeat split; simpl; (reflexivity || congruence)|]. intros H. now contradiction H.
      * destruct (process_issue env w plate_number confidence w1 status w2
                    Hget Hcheck Hc Hconf) as (fine_record & w4 & Hissue & ->).
        set (w3 := snd (add_plate plate_number status env w2)) in *.
        assert (fines w3 = fines w) as Hf3
          by (unfold w3; rewrite add_plate_run; simpl; congruence).
        clearbody w3.
        exists (fresh_result plate_number confidence status fine_record), w4.
        split; [reflexivity|]. do 2 (split; [reflexivity|]).
        split; [|intros H; now contradiction H].
        destruct (fst (FineService.calculate_fine (fine_service env) status) =? 0)%float
          eqn:Hz.
        -- rewrite (issue_fine_zero _ _ _ _ Hz) in Hissue.
           injection Hissue as <- <-. left. repeat split; (reflexivity || congruence).
        -- rewrite (issue_fine_issued _ _ _ _ Hc Hz) in Hissue.
           injection Hissue as <- <-. right. split; [reflexivity|].
           exists (issued_fine env w3 status). cbn [fines].
           split; [now rewrite Hf3|]. split; [reflexivity|].
           unfold issued_fine.
           destruct (FineService.calculate_fine (fine_service env) status).
           simpl. now apply Hp.
      * rewrite (process_logged env w plate_number confidence w1 status w2
                   Hget Hcheck) by auto.
        rewrite log_scan_run, add_plate_run. simpl.
        eexists _, _. split; [reflexivity|]. do 2 (split; [reflexivity|]).
        split; [left; repeat split; simpl; (reflexivity || congruence)|]. intros H. now contradiction H.
    + rewrite (process_raise env w plate_number confidence w1 e w2 Hget Hcheck).
      eexists _, _. split; [reflexivity|]. do 2 (split; [reflexivity|]).
      split; [left; repeat split; simpl; (reflexivity || congruence)|].
      intros _. repeat split; simpl; (reflexivity || congruence).
Qed.

(** X8.  A scan never raises: it returns a result for the plate and the
    confidence it was given.  It appends at most one row to the fines and
    changes none, and [fine_issued] in the result is true exactly when it
    appended one; the result then carries that fine's amount, and the fine
    the plate as it was scanned.  A result with an error comes with no
    status, no fine and no new row in either table. *)
Theorem process_plate_returns (env : Env) (w : World) (plate_number : str)
    (confidence : float) :
  exists result w',
    _process_plate plate_number confidence env w = (Return result, w') /\
    ScanResult.plate_number result = plate_number /\
    ScanResult.confidence result = confidence /\
    (ScanResult.fine_issued result = true <-> fines w' <> fines w) /\
    (exists added,
       fines w' = fines w ++ added /\
       length added <= 1 /\
       forall fine, In fine added ->
         ScanResult.fine_amount result = Some (Fine.fine_amount fine) /\
         Fine.plate_number fine = plate_number) /\
    (ScanResult.error result <> None ->
       ScanResult.vehicle_status result = None /\
       ScanResult.fine_issued result = false /\
       fines w' = fines w /\ scan_logs w' = scan_logs w).
Proof.
  destruct (process_plate_outcome env w plate_number confidence)
    as (result & w' & Hrun & Hp & Hc & Hfine & Herr).
  exists result, w'. do 3 (split; [assumption|]).
  split; [|split; [|exact Herr]].
  - destruct Hfine as [(Hno & _ & Hf) | (Hyes & fine & Hf & _)].
    + rewrite Hno, Hf. split; [discriminate | intros H; now contradiction H].
    + rewrite Hyes, Hf. split; [|reflexivity]. intros _ H.
      apply (f_equal (@length _)) in H. rewrite length_app in H. simpl in H. lia.
  - destruct Hfine as [(_ & _ & Hf) | (_ & fine & Hf & Ha & Hpl)].
    + exists []. rewrite app_nil_r. split; [exact Hf|].
      split; [simpl; lia | intros fine []].
    + exists [fine]. split; [exact Hf|]. split; [simpl; lia|].
      intros f [<- | []]. auto.
Qed.


(** ** Scanning a plate again *)



(** ** The frame routes *)

Lemma process_plates_cons env w plate plates :
  process_plates (plate :: plates) env w =
    let first := _process_plate (PlateDetection.plate_number plate)
                   (PlateDetection.confidence plate) env w in
    let rest := process_plates plates env (snd first) in
    match fst first, fst rest with
    | Return result, Return results => (Return (result :: results), snd rest)
    | Return _, Raise e => (Raise e, snd rest)
    | Raise e, _ => (Raise e, snd first)
    end.
Proof.
  cbv zeta. simpl. run.
  destruct (_process_plate _ _ env w) as [[result|e] w1]; [|reflexivity].
  cbn [fst snd]. destruct (process_plates plates env w1) as [[results|e] w2];
    reflexivity.
Qed.

(** The number of results that say a fine was issued. *)
Lemma process_plates_returns env w plates :
  exists results w',
    process_plates plates env w = (Return results, w') /\
    List.map ScanResult.plate_number results
      = List.map PlateDetection.plate_number plates /\
    List.map ScanResult.confidence results
      = List.map PlateDetection.confidence plates /\
    (exists added,
       fines w' = fines w ++ added /\
       length added
         = length (List.filter ScanResult.fine_issued results)).
Proof.
  revert w. induction plates as [|plate plates IH]; intros w.
  - exists [], w. repeat split. exists []. now rewrite app_nil_r.
  - rewrite process_plates_cons. cbv zeta.
    destruct (process_plate_outcome env w (PlateDetection.plate_number plate)
                (PlateDetection.confidence plate))
      as (result & w1 & -> & Hp & Hc & Hfine & _).
    cbn [fst snd].
    destruct (IH w1) as (results & w2 & -> & Hps & Hcs & added & Hf & Hn).
    cbn [fst snd]. exists (result :: results), w2.
    split; [reflexivity|]. simpl. rewrite Hp, Hc, Hps, Hcs.
    do 2 (split; [reflexivity|]).
    destruct Hfine as [(Hno & _ & Hf1) | (Hyes & fine & Hf1 & _)].
    + exists added. rewrite Hno, Hf, Hf1. auto.
    + exists (fine :: added). rewrite Hyes, Hf, Hf1, <- app_assoc. simpl. auto.
Qed.

(** X10.  The loop over the plates of a frame never raises, whatever the
    validator answers for each plate: it returns one result for each
    detection, in order, with the detection's plate and confidence, and it
    appends to the fines as many rows as there are results with
    [fine_issued] true. *)
Theorem process_plates_spec (env : Env) (w : World) (plates : list PlateDetection.t) :
  exists results w',
    process_plates plates env w = (Return results, w') /\
    length results = length plates /\
    List.map ScanResult.plate_number results
      = List.map PlateDetection.plate_number plates /\
    List.map ScanResult.confidence results
      = List.map PlateDetection.confidence plates /\
    exists added,
      fines w' = fines w ++ added /\
      length added = length (List.filter ScanResult.fine_issued results).
Proof.
  destruct (process_plates_returns env w plates)
    as (results & w' & Hrun & Hp & Hc & Hadded).
  exists results, w'. split; [exact Hrun|]. split; [|auto].
  apply (f_equal (@length _)) in Hp. now rewrite !length_map in Hp.
Qed.

(** X11.  [scan_frame] never raises.  It reports success exactly when the
    upload is not empty and the OCR service returned; [plates_detected] is
    then the number of plates, each with its result.  On an empty upload, or
    when the OCR service raises, it reports no success, no plate and no
    result, and the state is untouched; the processing time is 0 for the
    empty upload. *)
Theorem scan_frame_spec (env : Env) (w : World) (image_data : list Z)
    (detected : Result (list PlateDetection.t)) (start_time end_time : float) :
  exists response w',
    scan_frame image_data detected start_time end_time env w = (Return response, w') /\
    (ScanFrameResponse.success response = true <->
     image_data <> [] /\ exists plates, detected = Return plates) /\
    (forall plates,
       image_data <> [] -> detected = Return plates ->
       process_plates plates env w = (Return (ScanFrameResponse.results response), w') /\
       ScanFrameResponse.plates_detected response = Z.of_nat (length plates) /\
       length (ScanFrameResponse.results response) = length plates) /\
    (ScanFrameResponse.success response = false ->
       w' = w /\
       ScanFrameResponse.plates_detected response = 0%Z /\
       ScanFrameResponse.results response = []) /\
    (image_data = [] -> ScanFrameResponse.processing_time_ms response = 0%float).
Proof.
  unfold scan_frame. run.
  destruct image_data as [|b image_data].
  - eexists _, _. split; [reflexivity|]. simpl.
    split; [split; [discriminate | intros [H _]; now contradiction H]|].
    split; [intros plates H; now contradiction H|]. auto.
  - destruct detected as [[|plate plates]|e].
    + eexists _, _. split; [reflexivity|]. simpl.
      split; [split; [intros _; split; [discriminate|eauto] | reflexivity]|].
      split; [|split; [discriminate|discriminate]].
      intros plates _ [= <-]. simpl. auto.
    + destruct (process_plates_returns env w (plate :: plates))
        as (results & w' & Hrun & Hlen & _).
      apply (f_equal (@length _)) in Hlen. rewrite !length_map in Hlen.
      rewrite Hrun. eexists _, _. split; [reflexivity|]. simpl.
      split; [split; [intros _; split; [discriminate|eauto] | reflexivity]|].
      split; [|split; [discriminate|discriminate]].
      intros plates' _ [= <-]. auto.
    + eexists _, _. split; [reflexivity|]. simpl.
      split; [split; [discriminate | intros [_ [plates [=]]]]|].
      split; [intros plates _ [=]|]. split; [auto|discriminate].
Qed.

(** ** The tables *)

Lemma max_keys_from s n :
  List.fold_right Z.max 0%Z (List.map Z.of_nat (List.seq s n)) =
    match n with 0 => 0%Z | S n' => Z.of_nat (s + n') end.
Proof.
  revert s. induction n as [|n IH]; intros s; [reflexivity|].
  simpl. rewrite IH. destruct n; lia.
Qed.

Lemma next_id_keys n : next_id (keys_upto n) = Z.of_nat (S n).
Proof.
  unfold next_id, keys_upto. rewrite max_keys_from. destruct n; lia.
Qed.

Lemma keys_upto_S n : keys_upto (S n) = keys_upto n ++ [Z.of_nat (S n)].
Proof. unfold keys_upto. now rewrite seq_S, map_app. Qed.

Lemma fine_type_of_status self status :
  VehicleStatus.is_compliant status = false ->
  In (snd (FineService.calculate_fine self status)) fine_types.
Proof.
  unfold VehicleStatus.is_compliant, FineService.calculate_fine,
    VehicleStatus.compliance_status, fine_types.
  destruct (VehicleStatus.road_tax_valid status),
    (VehicleStatus.insurance_valid status); simpl; intros H;
    (discriminate || tauto).
Qed.

Lemma Wrote_from w0 w w' :
  fines w0 = fines w -> scan_logs w0 = scan_logs w -> Wrote w0 w' -> Wrote w w'.
Proof.
  intros Hf Hl [Hf' Hl' | log Hf' Hl' Hlog | fine log Hf' Hl' Hfine Hlog].
  - apply wrote_nothing; congruence.
  - apply (wrote_log _ _ log); [congruence | congruence |].
    unfold new_log in *. now rewrite <- Hl.
  - apply (wrote_fine _ _ fine log); [congruence | congruence | |].
    + unfold new_fine in *. now rewrite <- Hf.
    + unfold new_log in *. now rewrite <- Hl.
Qed.

Lemma issue_fine_wrote env w vehicle_status confidence :
  exists fine_record w',
    issue_fine vehicle_status confidence env w = (Return fine_record, w') /\
    plate_cache w' = plate_cache w /\ Wrote w w'.
Proof.
  destruct (VehicleStatus.is_compliant vehicle_status) eqn:Hc.
  - rewrite (issue_fine_compliant _ _ _ _ Hc). eexists _, _.
    split; [reflexivity|]. split; [reflexivity|]. now apply wrote_nothing.
  - destruct (fst (FineService.calculate_fine (fine_service env) vehicle_status) =? 0)%float
      eqn:Hz.
    + rewrite (issue_fine_zero _ _ _ _ Hz). eexists _, _.
      split; [reflexivity|]. split; [reflexivity|]. now apply wrote_nothing.
    + rewrite (issue_fine_issued _ _ _ _ Hc Hz). eexists _, _.
      split; [reflexivity|]. split; [reflexivity|].
      apply (wrote_fine _ _ (issued_fine env w vehicle_status)
               (issuing_log env w vehicle_status confidence));
        [reflexivity | reflexivity | |].
      * pose proof (fine_type_of_status (fine_service env) vehicle_status Hc) as Ht.
        unfold new_fine, issued_fine.
        destruct (FineService.calculate_fine (fine_service env) vehicle_status).
        simpl in *. auto.
      * unfold new_log, issuing_log. simpl. auto.
Qed.

Lemma process_plate_wrote env w plate_number confidence :
  Wrote w (snd (_process_plate plate_number confidence env w)).
Proof.
  destruct (get_cached_result plate_number env w) as [r w1] eqn:Hget.
  destruct (get_cached_result_frame _ _ _ _ _ Hget) as [Hf1 Hl1].
  destruct (get_cached_result_returns env w plate_number) as [[status|] Hr];
    rewrite Hget in Hr; simpl in Hr; subst r.
  - assert (hit env w plate_number status) as Hhit
      by (apply get_cached_result_Some; now rewrite Hget).
    rewrite (process_hit env w plate_number confidence status Hhit).
    now apply wrote_nothing.
  - destruct (check_vehicle plate_number env w1) as [[status|e] w2] eqn:Hcheck;
      destruct (check_vehicle_frame _ _ _ _ _ Hcheck) as (_ & Hf2 & Hl2 & _).
    + set (w3 := snd (add_plate plate_number status env w2)).
      assert (fines w3 = fines w) as Hf3
        by (unfold w3; rewrite add_plate_run; simpl; congruence).
      assert (scan_logs w3 = scan_logs w) as Hl3
        by (unfold w3; rewrite add_plate_run; simpl; congruence).
      assert (Wrote w (snd (log_scan plate_number confidence (Some status)
                              false false env w3))) as Hlogged.
      { apply (Wrote_from w3); [exact Hf3 | exact Hl3 |].
        rewrite log_scan_run. cbn [snd].
        apply (wrote_log _ _ (logged env w3 plate_number confidence (Some status)
                                false false)); [reflexivity | reflexivity |].
        unfold new_log, logged. simpl. auto. }
      destruct (VehicleStatus.is_compliant status) eqn:Hc;
        [|destruct (MIN_FINE_CONFIDENCE <=? confidence)%float eqn:Hconf].
      * rewrite (process_logged env w plate_number confidence w1 status w2
                   Hget Hcheck) by auto.
        exact Hlogged.
      * destruct (process_issue env w plate_number confidence w1 status w2
                    Hget Hcheck Hc Hconf) as (fine_record & w4 & Hissue & ->).
        fold w3 in Hissue.
        destruct (issue_fine_wrote env w3 status confidence)
          as (fr & w4' & Hrun & _ & Hw).
        rewrite Hrun in Hissue. injection Hissue as _ <-.
        apply (Wrote_from w3); assumption.
      * rewrite (process_logged env w plate_number confidence w1 status w2
                   Hget Hcheck) by auto.
        exact Hlogged.
    + rewrite (process_raise env w plate_number confidence w1 e w2 Hget Hcheck).
      apply wrote_nothing; simpl; congruence.
Qed.

Lemma keys_app {A} (key : A -> Z) (rows : list A) (row : A) :
  List.map key rows = keys_upto (length rows) ->
  key row = next_id (List.map key rows) ->
  List.map key (rows ++ [row]) = keys_upto (length (rows ++ [row])).
Proof.
  intros Hrows Hrow. rewrite map_app, length_app, Nat.add_1_r, keys_upto_S.
  cbn [List.map]. now rewrite Hrow, Hrows, next_id_keys.
Qed.

Lemma count_app {A} (p : A -> bool) (rows : list A) (row : A) :
  length (List.filter p (rows ++ [row])) =
    length (List.filter p rows) + (if p row then 1 else 0).
Proof.
  rewrite List.filter_app, length_app. cbn [List.filter].
  destruct (p row); reflexivity.
Qed.

Lemma Wrote_in_order w w' : tables_in_order w -> Wrote w w' -> tables_in_order w'.
Proof.
  intros (Hfi & Hli & Hfines & Hcount & Hcached)
         [Hf Hl | log Hf Hl Hlog | fine log Hf Hl Hfine Hlog];
    unfold tables_in_order; rewrite ?Hf, ?Hl.
  - auto.
  - destruct Hlog as (Hid & Hissued & Hc).
    split; [exact Hfi|]. split; [now apply keys_app|]. split; [exact Hfines|].
    split; [rewrite count_app, Hissued; lia|].
    intros l Hin. apply in_app_or in Hin as [Hin | [<- | []]]; auto.
  - destruct Hlog as (Hid & Hissued & Hc).
    destruct Hfine as (Hfid & Hamount & Htype & Hpaid & Hpaid_at).
    split; [now apply keys_app|]. split; [now apply keys_app|]. split.
    + intros f Hin. apply in_app_or in Hin as [Hin | [<- | []]]; [auto|].
      split; [exact Hamount|]. split; [exact Htype|].
      rewrite Hpaid, Hpaid_at. split; [discriminate | intros [x [=]]].
    + split; [rewrite count_app, Hissued, length_app; simpl; lia|].
      intros l Hin. apply in_app_or in Hin as [Hin | [<- | []]]; auto.
Qed.

Lemma process_plates_wrote env w plates :
  rtc Wrote w (snd (process_plates plates env w)).
Proof.
  revert w. induction plates as [|plate plates IH]; intros w; [apply rtc_refl|].
  rewrite process_plates_cons. cbv zeta.
  pose proof (process_plate_wrote env w (PlateDetection.plate_number plate)
                (PlateDetection.confidence plate)) as Hw.
  destruct (_process_plate _ _ env w) as [[result|e] w1]; cbn [fst snd] in *.
  - specialize (IH w1).
    destruct (process_plates plates env w1) as [[results|e] w2]; cbn [fst snd] in *;
      eapply rtc_l; eauto.
  - now apply rtc_once.
Qed.

Lemma scan_frame_wrote env w image_data detected start_time end_time :
  rtc Wrote w (snd (scan_frame image_data detected start_time end_time env w)).
Proof.
  unfold scan_frame. run. destruct image_data as [|b image_data]; [apply rtc_refl|].
  destruct detected as [[|plate plates]|e]; try apply rtc_refl.
  pose proof (process_plates_wrote env w (plate :: plates)) as Hw.
  destruct (process_plates (plate :: plates) env w) as [[results|e] w']; exact Hw.
Qed.

Lemma scan_frame_base64_wrote env w detected start_time end_time :
  rtc Wrote w (snd (scan_frame_base64 detected start_time end_time env w)).
Proof.
  unfold scan_frame_base64. run.
  destruct detected as [[|plate plates]|e]; try apply rtc_refl.
  pose proof (process_plates_wrote env w (plate :: plates)) as Hw.
  destruct (process_plates (plate :: plates) env w) as [[results|e] w']; exact Hw.
Qed.

Lemma get_stats_run env w :
  exists stats,
    get_stats env w =
      (Return stats, ticked (size (PlateCache._cache (plate_cache w))) w).
Proof.
  unfold get_stats. run. rewrite count_expired_eq. run.
  rewrite length_map_to_list. eexists. reflexivity.
Qed.

(** What [mark_fine_paid] does, by the rows of the key. *)
Lemma mark_fine_paid_run env w fine_id :
  match List.filter (fun f => (Fine.id f =? fine_id)%Z) (fines w) with
  | [] => mark_fine_paid fine_id env w = (Return false, w)
  | [_] =>
      mark_fine_paid fine_id env w =
        (Return true,
         {| plate_cache := plate_cache w;
            fines := paid_at_time fine_id (clock env (ticks w)) (fines w);
            scan_logs := scan_logs w;
            ticks := S (ticks w) |})
  | _ :: _ :: _ =>
      mark_fine_paid fine_id env w =
        (Raise (Exc (lit "Multiple rows were found when one or none was required")), w)
  end.
Proof.
  unfold mark_fine_paid. run.
  destruct (List.filter _ (fines w)) as [|f [|g l]]; try reflexivity.
Qed.

(** What a request does to the tables: it writes scans, or it marks a fine
    paid. *)
Lemma serve_tables env request w :
  let w' := snd (serve request env w) in
  rtc Wrote w w' \/
  (exists fine_id t,
     fines w' = paid_at_time fine_id t (fines w) /\ scan_logs w' = scan_logs w).
Proof.
  cbv zeta.
  destruct request as [image_data detected t0 t1 | detected t0 t1 | | | | |
                       limit unpaid_only | plate_number | fine_id | ];
    unfold serve.
  - left. pose proof (scan_frame_wrote env w image_data detected t0 t1) as H. run.
    destruct (scan_frame _ _ _ _ env w) as [[r|e] w']; exact H.
  - left. pose proof (scan_frame_base64_wrote env w detected t0 t1) as H. run.
    destruct (scan_frame_base64 _ _ _ env w) as [[r|e] w']; exact H.
  - left. destruct (get_stats_run env w) as [stats Hs]. run. rewrite Hs.
    apply rtc_once, wrote_nothing; reflexivity.
  - left. apply rtc_once, wrote_nothing; reflexivity.
  - left. unfold cleanup_cache. run. rewrite cleanup_expired_run.
    apply rtc_once, wrote_nothing; reflexivity.
  - left. unfold test_fine.
    destruct (issue_fine_wrote env w
                {| VehicleStatus.plate_number := lit "TEST123";
                   VehicleStatus.owner_name := Some (lit "Test Owner");
                   VehicleStatus.owner_id := Some (lit "123456789");
                   VehicleStatus.road_tax_valid := false;
                   VehicleStatus.road_tax_expiry := None;
                   VehicleStatus.insurance_valid := false;
                   VehicleStatus.insurance_expiry := None |} 0.95)
      as (fr & w' & Hrun & _ & Hw).
    run. rewrite Hrun. now apply rtc_once.
  - left. apply rtc_refl.
  - left. apply rtc_refl.
  - unfold FinesRouter.mark_fine_paid. run.
    pose proof (mark_fine_paid_run env w fine_id) as Hrun.
    destruct (List.filter _ (fines w)) as [|f [|g l]]; rewrite Hrun.
    + left. apply rtc_refl.
    + right. eexists _, _. split; reflexivity.
    + left. apply rtc_refl.
  - left. apply rtc_refl.
Qed.

Lemma paid_at_time_row fine_id t f :
  let f' := if (Fine.id f =? fine_id)%Z then pay t f else f in
  same_fine f f' /\
  ((Fine.paid f = true <-> is_Some (Fine.paid_at f)) ->
   (Fine.paid f' = true <-> is_Some (Fine.paid_at f'))).
Proof.
  cbv zeta. unfold same_fine. destruct (Fine.id f =? fine_id)%Z; simpl.
  - repeat split; eauto.
  - repeat split; tauto.
Qed.

Lemma paid_in_order w w' fine_id t :
  fines w' = paid_at_time fine_id t (fines w) -> scan_logs w' = scan_logs w ->
  tables_in_order w -> tables_in_order w'.
Proof.
  intros Hf Hl (Hfi & Hli & Hfines & Hcount & Hcached).
  unfold tables_in_order. rewrite Hf, Hl. unfold paid_at_time.
  rewrite length_map, map_map.
  split; [|split; [exact Hli | split; [|split; [exact Hcount | exact Hcached]]]].
  - rewrite <- Hfi. apply map_ext. intros f.
    now destruct (paid_at_time_row fine_id t f) as [(-> & _) _].
  - intros f' Hin. apply in_map_iff in Hin as (f & <- & Hin).
    destruct (Hfines f Hin) as (Ha & Ht & Hp).
    destruct (paid_at_time_row fine_id t f) as [(_ & _ & _ & _ & -> & -> & _) Hp'].
    auto.
Qed.

Lemma rtc_Wrote_in_order w w' :
  rtc Wrote w w' -> tables_in_order w -> tables_in_order w'.
Proof.
  induction 1 as [|w w1 w' Hw _ IH]; [auto|]. intros H. apply IH.
  now apply (Wrote_in_order w).
Qed.

Lemma served_in_order trace w :
  tables_in_order w -> tables_in_order (served trace w).
Proof.
  revert w. induction trace as [|[env request] trace IH]; intros w H; [exact H|].
  apply IH. cbn [fst snd].
  destruct (serve_tables env request w) as [Hw | (fine_id & t & Hf & Hl)].
  - now apply (rtc_Wrote_in_order w).
  - now apply (paid_in_order w _ fine_id t).
Qed.

(** X12.  In every state the application reaches from start-up, whatever
    requests it served and whatever the validator answered: the keys of the
    fines, and of the scan logs, are 1, 2, ... in the order of the rows (so
    no two rows share a key); no fine has amount zero or a type other than
    road_tax, insurance and both; a fine is paid exactly when it has a
    payment time; there are as many scan logs with [fine_issued] as there
    are fines; and no scan log is of a cached scan. *)
Theorem tables_stay_in_order (settings : Settings.t) (cooldown_minutes : option Z)
    (trace : list (Env * Request)) :
  let w := served trace (initial settings cooldown_minutes) in
  List.map Fine.id (fines w) = keys_upto (length (fines w)) /\
  List.map ScanLog.id (scan_logs w) = keys_upto (length (scan_logs w)) /\
  NoDup (List.map Fine.id (fines w)) /\
  (forall fine, In fine (fines w) ->
     (Fine.fine_amount fine =? 0)%float = false /\
     In (Fine.fine_type fine) fine_types /\
     (Fine.paid fine = true <-> is_Some (Fine.paid_at fine))) /\
  length (List.filter ScanLog.fine_issued (scan_logs w)) = length (fines w) /\
  (forall log, In log (scan_logs w) -> ScanLog.cached_result log = false).
Proof.
  cbv zeta.
  assert (tables_in_order (initial settings cooldown_minutes)) as H0.
  { unfold tables_in_order. simpl.
    split; [reflexivity|]. split; [reflexivity|]. split; [intros x []|].
    split; [reflexivity | intros x []]. }
  destruct (served_in_order trace _ H0) as (Hfi & Hli & Hfines & Hcount & Hcached).
  split; [exact Hfi|]. split; [exact Hli|]. split; [|auto].
  rewrite Hfi. unfold keys_upto. apply NoDup_fmap_2; [apply _|].
  apply NoDup_ListNoDup, List.seq_NoDup.
Qed.

(** ** Fines are kept *)

Lemma same_fine_refl f : same_fine f f.
Proof. unfold same_fine. repeat split; auto. Qed.

Lemma same_fine_trans f g h : same_fine f g -> same_fine g h -> same_fine f h.
Proof.
  unfold same_fine. intros (? & ? & ? & ? & ? & ? & ? & ?) (? & ? & ? & ? & ? & ? & ? & ?).
  repeat split; try congruence. auto.
Qed.

Lemma grows_refl w : grows w w.
Proof.
  split; [|exists []; now rewrite app_nil_r].
  intros i f H. exists f. split; [exact H | apply same_fine_refl].
Qed.

Lemma grows_trans w1 w2 w3 : grows w1 w2 -> grows w2 w3 -> grows w1 w3.
Proof.
  intros [Hf1 [l1 Hl1]] [Hf2 [l2 Hl2]]. split.
  - intros i f H. destruct (Hf1 i f H) as (g & Hg & Hfg).
    destruct (Hf2 i g Hg) as (h & Hh & Hgh). exists h.
    split; [exact Hh | now apply (same_fine_trans f g h)].
  - exists (l1 ++ l2). now rewrite Hl2, Hl1, app_assoc.
Qed.

Lemma Wrote_grows w w' : Wrote w w' -> grows w w'.
Proof.
  intros [Hf Hl | log Hf Hl _ | fine log Hf Hl _ _]; split;
    try (intros i f H; exists f; split; [|apply same_fine_refl];
         rewrite Hf; try apply lookup_app_l_Some; exact H).
  - exists []. now rewrite app_nil_r.
  - eauto.
  - eauto.
Qed.

Lemma paid_grows w w' fine_id t :
  fines w' = paid_at_time fine_id t (fines w) -> scan_logs w' = scan_logs w ->
  grows w w'.
Proof.
  intros Hf Hl. split; [|exists []; now rewrite app_nil_r].
  intros i f H. rewrite Hf. unfold paid_at_time.
  eexists. split; [rewrite list_lookup_fmap, H; reflexivity|].
  apply paid_at_time_row.
Qed.

Lemma served_grows trace w : grows w (served trace w).
Proof.
  revert w. induction trace as [|[env request] trace IH]; intros w; [apply grows_refl|].
  apply (grows_trans w (snd (serve request env w))); [|apply IH].
  destruct (serve_tables env request w) as [Hw | (fine_id & t & Hf & Hl)].
  - induction Hw as [|w w1 w' Hw _ IHw]; [apply grows_refl|].
    apply (grows_trans w w1); [now apply Wrote_grows | exact IHw].
  - now apply (paid_grows w _ fine_id t).
Qed.

(** X13.  No request takes a row away.  Whatever requests are served from a
    state, every fine of that state is still there afterwards, at the same
    position, with the same key, plate, owner, type, amount and time of
    issue, and paid if it was paid: a payment is never undone.  The scan
    logs of the state are a prefix of the scan logs afterwards. *)
Theorem fines_are_kept (w : World) (trace : list (Env * Request)) :
  let w' := served trace w in
  (forall i fine,
     fines w !! i = Some fine ->
     exists fine',
       fines w' !! i = Some fine' /\
       Fine.id fine' = Fine.id fine /\
       Fine.plate_number fine' = Fine.plate_number fine /\
       Fine.owner_name fine' = Fine.owner_name fine /\
       Fine.owner_id fine' = Fine.owner_id fine /\
       Fine.fine_type fine' = Fine.fine_type fine /\
       Fine.fine_amount fine' = Fine.fine_amount fine /\
       Fine.issued_at fine' = Fine.issued_at fine /\
       (Fine.paid fine = true -> Fine.paid fine' = true)) /\
  length (fines w) <= length (fines w') /\
  exists logs, scan_logs w' = scan_logs w ++ logs.
Proof.
  cbv zeta. destruct (served_grows trace w) as [Hf Hl].
  split; [exact Hf|]. split; [|exact Hl].
  destruct (Nat.le_gt_cases (length (fines w)) (length (fines (served trace w))))
    as [|Hlt]; [assumption|].
  exfalso. destruct (fines w) as [|f l] eqn:E; [simpl in Hlt; lia|].
  destruct (lookup_lt_is_Some_2 (f :: l) (length (fines (served trace w))) Hlt)
    as [g Hg].
  destruct (Hf _ _ Hg) as (g' & Hg' & _).
  apply lookup_lt_Some in Hg'. lia.
Qed.

(** ** Paying a fine *)




(** ** The notification *)

Lemma issue_fine_any_post env answer vehicle_status confidence w :
  issue_fine vehicle_status confidence (with_http_post answer env) w
    = issue_fine vehicle_status confidence env w.
Proof.
  unfold issue_fine, notify_fine. run.
  destruct (VehicleStatus.is_compliant vehicle_status); [reflexivity|].
  cbn [fine_service with_http_post http_post clock].
  destruct (FineService.calculate_fine (fine_service env) vehicle_status)
    as [amount type].
  destruct (amount =? 0)%float; [reflexivity|].
  destruct answer, (http_post env); reflexivity.
Qed.

(** X15.  What the external service answers to the notification of a fine,
    or whether it can be reached at all, changes nothing: a scan returns the
    same result and leaves the same state, with the same fine, under any
    answer to [POST /fines]. *)
Theorem fine_stands_without_notification (env : Env) (answer : HttpResult unit)
    (plate_number : str) (confidence : float) (w : World) :
  _process_plate plate_number confidence (with_http_post answer env) w
    = _process_plate plate_number confidence env w.
Proof.
  assert (forall w, get_cached_result plate_number (with_http_post answer env) w
                    = get_cached_result plate_number env w) as Hlookup.
  { intros w0. unfold get_cached_result. run.
    destruct (PlateCache._cache (plate_cache w0) !! _normalize_plate plate_number)
      as [entry|]; [|reflexivity].
    cbn [with_http_post clock].
    destruct (negb (CacheEntry.is_expired entry _ _)); reflexivity. }
  assert (forall w, check_vehicle plate_number (with_http_post answer env) w
                    = check_vehicle plate_number env w) as Hcheck.
  { intros w0. unfold check_vehicle. run. cbn [with_http_post http_get].
    destruct (http_get env _) as [status_code body|].
    - destruct (status_code =? 200)%Z; [reflexivity|].
      destruct (status_code =? 404)%Z; reflexivity.
    - reflexivity. }
  unfold _process_plate. run.
  rewrite Hlookup.
  destruct (get_cached_result plate_number env w) as [[[status|]|e] w1];
    try reflexivity.
  rewrite Hcheck.
  destruct (check_vehicle plate_number env w1) as [[status|e] w2]; [|reflexivity].
  change (add_plate plate_number status (with_http_post answer env) w2)
    with (add_plate plate_number status env w2).
  destruct (add_plate plate_number status env w2) as [[[]|e] w3]; [|reflexivity].
  destruct (negb (VehicleStatus.is_compliant status)
            && (MIN_FINE_CONFIDENCE <=? confidence)%float).
  - rewrite issue_fine_any_post. reflexivity.
  - destruct (negb (VehicleStatus.is_compliant status)); reflexivity.
Qed.

(** ** The queries of the fines *)

Lemma insert_desc_perm f l : insert_desc f l ≡ₚ f :: l.
Proof.
  induction l as [|g l IH]; [reflexivity|]. cbn [insert_desc].
  destruct (Fine.issued_at g <? Fine.issued_at f)%Z; [reflexivity|].
  rewrite IH. apply Permutation_swap.
Qed.

Lemma order_perm l : order_by_issued_at_desc l ≡ₚ l.
Proof.
  induction l as [|f l IH]; [reflexivity|].
  unfold order_by_issued_at_desc in *. cbn [fold_right].
  now rewrite insert_desc_perm, IH.
Qed.

Lemma insert_desc_descending f l :
  descending (List.map Fine.issued_at l) ->
  descending (List.map Fine.issued_at (insert_desc f l)).
Proof.
  induction l as [|g l IH]; [intros _; cbn; auto|].
  cbn [insert_desc List.map descending]. intros [Hg Hl].
  destruct (Z.ltb_spec (Fine.issued_at g) (Fine.issued_at f)) as [Hlt|Hge].
  - cbn [List.map descending]. split; [|split; assumption].
    constructor; [lia|]. eapply Forall_impl; [exact Hg|]. cbn. intros. lia.
  - cbn [List.map descending]. split; [|now apply IH].
    change (Forall (fun t' => (t' <= Fine.issued_at g)%Z)
              (Fine.issued_at <$> insert_desc f l)).
    rewrite (insert_desc_perm f l). constructor; [lia | exact Hg].
Qed.

Lemma order_descending l :
  descending (List.map Fine.issued_at (order_by_issued_at_desc l)).
Proof.
  induction l as [|f l IH]; [exact I|]. now apply insert_desc_descending.
Qed.

Lemma descending_app l1 l2 :
  descending (l1 ++ l2) ->
  descending l1 /\ forall t t', In t l1 -> In t' l2 -> (t' <= t)%Z.
Proof.
  induction l1 as [|x l1 IH]; [intros _; split; [exact I | intros t t' []]|].
  cbn [app descending]. intros [Hx Hl]. destruct (IH Hl) as [Hd Hcmp].
  apply Forall_app in Hx as [Hx1 Hx2].
  split; [split; assumption|]. intros t t' [<- | Hin] Hin'.
  - rewrite Forall_forall in Hx2. apply Hx2. now apply list_elem_of_In.
  - now apply Hcmp.
Qed.

Lemma descending_lookup times i j t t' :
  descending times -> (i < j)%nat ->
  times !! i = Some t -> times !! j = Some t' -> (t' <= t)%Z.
Proof.
  revert i j. induction times as [|x times IH]; intros i j Hd Hij Hi Hj;
    [discriminate|].
  destruct Hd as [Hx Hd]. destruct j as [|j]; [lia|]. cbn in Hj.
  destruct i as [|i].
  - cbn in Hi. injection Hi as <-. rewrite Forall_forall in Hx. apply Hx.
    eapply list_elem_of_lookup_2, Hj.
  - cbn in Hi. apply (IH i j); auto. lia.
Qed.

Lemma newest_first_map (rows : list Fine.t) :
  descending (List.map Fine.issued_at rows) ->
  newest_first (List.map FineRecord_of rows).
Proof.
  intros Hd i j r r' Hij Hi Hj.
  change (List.map FineRecord_of rows) with (FineRecord_of <$> rows) in Hi, Hj.
  rewrite list_lookup_fmap in Hi, Hj.
  destruct (rows !! i) as [f|] eqn:Hfi; [|discriminate].
  destruct (rows !! j) as [g|] eqn:Hgj; [|discriminate].
  injection Hi as <-. injection Hj as <-.
  apply (descending_lookup (List.map Fine.issued_at rows) i j); auto;
    change (List.map Fine.issued_at rows) with (Fine.issued_at <$> rows);
    rewrite list_lookup_fmap; [now rewrite Hfi | now rewrite Hgj].
Qed.

Lemma get_fines_run env w limit unpaid_only :
  get_fines limit unpaid_only env w
    = (Return (List.map FineRecord_of
                 (sql_limit limit
                    (order_by_issued_at_desc (selected unpaid_only (fines w))))),
       w).
Proof.
  unfold get_fines, selected. run. destruct unpaid_only; [reflexivity|].
  assert (List.filter (fun f => negb false || negb (Fine.paid f)) (fines w)
          = fines w) as ->; [|reflexivity].
  induction (fines w) as [|f l IH]; [reflexivity|].
  cbn [List.filter negb orb] in *. now rewrite IH.
Qed.

(** X16.  The query of all fines reads and changes nothing else.  It
    returns the fines, only the unpaid ones if so asked, the newest first;
    with a limit of [n >= 0] it returns the first [n] of them, so that no
    fine it leaves out was issued after one it returns; a negative limit is
    no limit. *)
Theorem get_fines_spec (env : Env) (w : World) (limit : Z) (unpaid_only : bool) :
  exists records rest,
    get_fines limit unpaid_only env w = (Return records, w) /\
    newest_first records /\
    records ++ rest ≡ₚ List.map FineRecord_of (selected unpaid_only (fines w)) /\
    (forall r r', In r records -> In r' rest ->
       (FineRecord.issued_at r' <= FineRecord.issued_at r)%Z) /\
    (forall r, In r (records ++ rest) <->
       exists fine, In fine (fines w) /\ r = FineRecord_of fine /\
                    (unpaid_only = true -> Fine.paid fine = false)) /\
    length records
      = (if (limit <? 0)%Z then length (selected unpaid_only (fines w))
         else Nat.min (Z.to_nat limit) (length (selected unpaid_only (fines w)))).
Proof.
  rewrite get_fines_run.
  set (rows := selected unpaid_only (fines w)).
  pose proof (order_perm rows) as Hperm.
  pose proof (order_descending rows) as Hdesc.
  set (sorted := order_by_issued_at_desc rows) in *. clearbody sorted.
  assert (forall r, In r (List.map FineRecord_of rows) <->
            exists fine, In fine (fines w) /\ r = FineRecord_of fine /\
                         (unpaid_only = true -> Fine.paid fine = false)) as Hin.
  { intros r. rewrite in_map_iff. unfold rows, selected. split.
    - intros (f & <- & Hf). apply filter_In in Hf as [Hf Hsel]. exists f.
      split; [exact Hf|]. split; [reflexivity|]. intros ->.
      cbn in Hsel. now destruct (Fine.paid f).
    - intros (f & Hf & -> & Hpaid). exists f. split; [reflexivity|].
      apply filter_In. split; [exact Hf|]. destruct unpaid_only; [|reflexivity].
      now rewrite Hpaid. }
  assert (forall rs, rs ≡ₚ List.map FineRecord_of rows ->
            forall r, In r rs <->
              exists fine, In fine (fines w) /\ r = FineRecord_of fine /\
                           (unpaid_only = true -> Fine.paid fine = false)) as Hin'.
  { intros rs Hrs r. rewrite <- Hin. split; intros H.
    - apply list_elem_of_In. rewrite <- Hrs. now apply list_elem_of_In.
    - apply list_elem_of_In. rewrite Hrs. now apply list_elem_of_In. }
  unfold sql_limit. destruct (limit <? 0)%Z.
  - exists (List.map FineRecord_of sorted), []. split; [reflexivity|].
    split; [now apply newest_first_map|]. rewrite app_nil_r.
    assert (List.map FineRecord_of sorted ≡ₚ List.map FineRecord_of rows) as Hp
      by (change (FineRecord_of <$> sorted ≡ₚ FineRecord_of <$> rows);
          now rewrite Hperm).
    split; [exact Hp|]. split; [intros r r' _ []|]. split; [now apply Hin'|].
    rewrite !length_map. now rewrite Hperm.
  - set (n := Z.to_nat limit).
    exists (List.map FineRecord_of (firstn n sorted)),
           (List.map FineRecord_of (skipn n sorted)).
    rewrite <- (firstn_skipn n sorted), map_app in Hdesc.
    apply descending_app in Hdesc as [Hd Hcmp].
    assert (List.map FineRecord_of (firstn n sorted)
              ++ List.map FineRecord_of (skipn n sorted)
            ≡ₚ List.map FineRecord_of rows) as Hp.
    { rewrite <- map_app, firstn_skipn.
      change (FineRecord_of <$> sorted ≡ₚ FineRecord_of <$> rows).
      now rewrite Hperm. }
    split; [reflexivity|]. split; [now apply newest_first_map|].
    split; [exact Hp|]. split; [|split; [now apply Hin'|]].
    + intros r r' Hr Hr'. apply in_map_iff in Hr as (f & <- & Hf).
      apply in_map_iff in Hr' as (g & <- & Hg).
      apply (Hcmp (Fine.issued_at f) (Fine.issued_at g)); now apply in_map.
    + rewrite length_map, length_firstn. now rewrite Hperm.
Qed.

Lemma get_fine_by_plate_run env w plate_number :
  get_fine_by_plate plate_number env w
    = (Return (List.map FineRecord_of
                 (order_by_issued_at_desc
                    (List.filter
                       (fun f => bool_decide
                                   (Fine.plate_number f = _normalize_plate plate_number))
                       (fines w)))),
       w).
Proof. reflexivity. Qed.

Lemma get_fine_by_plate_In env w plate_number records r :
  fst (get_fine_by_plate plate_number env w) = Return records ->
  In r records <->
  exists fine, In fine (fines w) /\ r = FineRecord_of fine /\
               Fine.plate_number fine = _normalize_plate plate_number.
Proof.
  rewrite get_fine_by_plate_run. cbn [fst]. intros [= <-].
  rewrite in_map_iff. split.
  - intros (f & <- & Hf). apply list_elem_of_In in Hf. rewrite order_perm in Hf.
    apply list_elem_of_In, filter_In in Hf as [Hf Hplate].
    apply bool_decide_eq_true in Hplate. now exists f.
  - intros (f & Hf & -> & Hplate). exists f. split; [reflexivity|].
    apply list_elem_of_In. rewrite order_perm.
    apply list_elem_of_In, filter_In. split; [exact Hf|].
    now apply bool_decide_eq_true.
Qed.

(** X17.  The query of the fines of a plate reads and changes nothing
    else.  It returns, the newest first and each one once, the fines whose
    stored plate is the key of the plate asked for; so two spellings with
    one key get the same answer, and a fine whose stored plate is not a key
    (it has a lower-case letter, a space or a hyphen) is returned for no
    plate at all. *)
Theorem get_fine_by_plate_spec (env : Env) (w : World) (plate_number : str) :
  exists records,
    get_fine_by_plate plate_number env w = (Return records, w) /\
    newest_first records /\
    (forall r, In r records <->
       exists fine, In fine (fines w) /\ r = FineRecord_of fine /\
                    Fine.plate_number fine = _normalize_plate plate_number) /\
    length records
      = length (List.filter
                  (fun f => bool_decide
                              (Fine.plate_number f = _normalize_plate plate_number))
                  (fines w)) /\
    (forall other,
       _normalize_plate other = _normalize_plate plate_number ->
       get_fine_by_plate other env w = (Return records, w)) /\
    (forall r, In r records ->
       _normalize_plate (FineRecord.plate_number r) = FineRecord.plate_number r).
Proof.
  eexists. split; [apply get_fine_by_plate_run|].
  split; [apply newest_first_map, order_descending|].
  assert (forall r,
            In r (List.map FineRecord_of
                    (order_by_issued_at_desc
                       (List.filter
                          (fun f => bool_decide
                             (Fine.plate_number f = _normalize_plate plate_number))
                          (fines w)))) <->
            exists fine, In fine (fines w) /\ r = FineRecord_of fine /\
                         Fine.plate_number fine = _normalize_plate plate_number)
    as Hin.
  { intros r. apply (get_fine_by_plate_In env w plate_number).
    now rewrite get_fine_by_plate_run. }
  split; [exact Hin|]. split; [|split].
  - rewrite length_map. now rewrite order_perm.
  - intros other Hkey. rewrite get_fine_by_plate_run. now rewrite Hkey.
  - intros r Hr. apply Hin in Hr as (f & _ & -> & Hplate).
    cbn [FineRecord_of FineRecord.plate_number]. rewrite Hplate.
    apply normalize_is_key.
Qed.

(** X18.  A fine issued at the scan of a plate that is its own key (it has
    no lower-case letter, space or hyphen) is found afterwards by the query
    of the fines of that plate, under any spelling with that key, with the
    amount the scan reported. *)
Theorem fine_found_by_its_key (env : Env) (w : World) (plate_number : str)
    (confidence : float) (spelling : str) :
  _normalize_plate plate_number = plate_number ->
  _normalize_plate spelling = plate_number ->
  let result := fst (_process_plate plate_number confidence env w) in
  let w' := snd (_process_plate plate_number confidence env w) in
  forall scanned, result = Return scanned ->
  ScanResult.fine_issued scanned = true ->
  exists records r,
    fst (get_fine_by_plate spelling env w') = Return records /\
    In r records /\
    FineRecord.plate_number r = plate_number /\
    Some (FineRecord.fine_amount r) = ScanResult.fine_amount scanned /\
    FineRecord.paid r = false.
Proof.
  intros Hkey Hspelling. cbv zeta.
  destruct (process_plate_outcome env w plate_number confidence)
    as (result & w' & Hrun & _ & _ & Hfine & _).
  rewrite Hrun. cbn [fst snd]. intros scanned [= <-] Hissued.
  destruct Hfine as [[Hno _] | (_ & fine & Hfines & Hamount & Hplate)];
    [congruence|].
  eexists. exists (FineRecord_of fine).
  split; [now rewrite get_fine_by_plate_run|]. split; [|split; [|split]].
  - apply (get_fine_by_plate_In env w' spelling _ _ eq_refl).
    exists fine. split; [|split; [reflexivity | congruence]].
    rewrite Hfines. apply in_or_app. right. now left.
  - exact Hplate.
  - now rewrite Hamount.
  - pose proof (process_plate_wrote env w plate_number confidence) as Hwrote.
    rewrite Hrun in Hwrote. cbn [snd] in Hwrote.
    destruct Hwrote as [Hsame _ | log Hsame _ _ | fine' log Hfines' _ Hnew _].
    + rewrite Hsame in Hfines. apply (f_equal (@length _)) in Hfines.
      rewrite length_app in Hfines. cbn in Hfines. lia.
    + rewrite Hsame in Hfines. apply (f_equal (@length _)) in Hfines.
      rewrite length_app in Hfines. cbn in Hfines. lia.
    + rewrite Hfines in Hfines'. apply app_inj_tail in Hfines' as [_ <-].
      apply Hnew.
Qed.

(** The plate ["ABC123"] is fined at its first scan; the fine is found under
    the spelling ["abc-123"]. *)
Lemma fine_found_by_its_key_witness :
  exists records r,
    fst (get_fine_by_plate (lit "abc-123") scenario_env
           (snd (_process_plate (lit "ABC123") 0.95 scenario_env start)))
      = Return records /\
    In r records /\
    FineRecord.plate_number r = lit "ABC123" /\
    FineRecord.fine_amount r = 450%float.
Proof.
  destruct (fine_found_by_its_key scenario_env start (lit "ABC123") 0.95
              (lit "abc-123") eq_refl eq_refl _ eq_refl eq_refl)
    as (records & r & Hrecords & Hr & Hplate & Hamount & _).
  exists records, r. split; [exact Hrecords|]. split; [exact Hr|].
  split; [exact Hplate|].
  assert (Some (FineRecord.fine_amount r) = Some 450%float) as [= ->]
    by (rewrite Hamount; vm_compute; reflexivity).
  reflexivity.
Defined.

(** ** The summary of the fines *)

Lemma count_by_type_from (records : list FineRecord.t) (counts : gmap str Z)
    (fine_type : str) :
  List.fold_left
    (fun type_counts fine =>
       <[FineRecord.fine_type fine :=
           (default 0%Z (type_counts !! FineRecord.fine_type fine) + 1)%Z]> type_counts)
    records counts !! fine_type
  = if (of_type fine_type records =? 0)%Z then counts !! fine_type
    else Some (default 0%Z (counts !! fine_type) + of_type fine_type records)%Z.
Proof.
  revert counts. induction records as [|r records IH]; intros counts;
    [reflexivity|].
  cbn [List.fold_left]. rewrite IH. unfold of_type. cbn [List.filter].
  destruct (decide (FineRecord.fine_type r = fine_type)) as [Heq|Hne].
  - rewrite Heq, lookup_insert_eq, (bool_decide_eq_true_2 _ eq_refl).
    cbn [length default].
    destruct (Z.eqb_spec (Z.of_nat (length (List.filter
                (fun r0 => bool_decide (FineRecord.fine_type r0 = fine_type))
                records))) 0) as [Hz|Hnz];
      destruct (Z.eqb_spec (Z.of_nat (S (length (List.filter
                (fun r0 => bool_decide (FineRecord.fine_type r0 = fine_type))
                records)))) 0) as [Hz'|Hnz']; try lia;
      unfold id; apply (f_equal Some); lia.
  - rewrite lookup_insert_ne by exact Hne.
    now rewrite (bool_decide_eq_false_2 _ Hne).
Qed.

Lemma count_by_type_lookup records fine_type :
  count_by_type records !! fine_type
  = if (of_type fine_type records =? 0)%Z then None
    else Some (of_type fine_type records).
Proof.
  unfold count_by_type. rewrite count_by_type_from, lookup_empty.
  destruct (of_type fine_type records =? 0)%Z; [reflexivity|].
  cbn [default]. f_equal.
Qed.

Lemma filter_split {A} (p : A -> bool) (l : list A) :
  (length (List.filter p l) + length (List.filter (fun x => negb (p x)) l)
   = length l)%nat.
Proof.
  induction l as [|x l IH]; [reflexivity|]. cbn [List.filter].
  destruct (p x); cbn [negb length]; lia.
Qed.

Lemma sum_floats_from (l : list float) (x : float) :
  exists y, List.fold_left (fun acc x => number_add acc (Float x)) l (Float x)
            = Float y.
Proof.
  revert x. induction l as [|z l IH]; intros x; [now exists x|].
  cbn [List.fold_left number_add]. apply IH.
Qed.

Lemma sum_floats_cases (l : list float) :
  match l with
  | [] => sum_floats l = Int 0
  | _ :: _ => exists y, sum_floats l = Float y
  end.
Proof.
  destruct l as [|x l]; [reflexivity|]. unfold sum_floats.
  cbn [List.fold_left number_add]. apply sum_floats_from.
Qed.

Lemma selected_all rows : selected false rows = rows.
Proof.
  unfold selected. induction rows as [|f l IH]; [reflexivity|].
  cbn [List.filter negb orb] in *. now rewrite IH.
Qed.

(** X19.  The summary reads and changes nothing else.  It is made from the
    10000 newest fines at most: the total counts them, the paid and the
    unpaid ones among them add up to it, and the fine types are listed with
    the number of these fines of each type, a type none of them has not
    being listed.  With no fine at all the three amounts are the integer 0;
    with one or more, the total amount is a float. *)
Theorem get_fines_summary_spec (env : Env) (w : World) :
  exists summary counted,
    FinesRouter.get_fines_summary env w = (Return summary, w) /\
    get_fines 10000 false env w = (Return counted, w) /\
    FinesSummary.total_fines summary = Z.of_nat (length counted) /\
    FinesSummary.total_fines summary
      = Z.min 10000 (Z.of_nat (length (fines w))) /\
    FinesSummary.unpaid_fines summary
      = Z.of_nat (length (List.filter (fun r => negb (FineRecord.paid r)) counted)) /\
    FinesSummary.paid_fines summary
      = Z.of_nat (length (List.filter FineRecord.paid counted)) /\
    (forall fine_type,
       FinesSummary.fines_by_type summary !! fine_type
       = if (of_type fine_type counted =? 0)%Z then None
         else Some (of_type fine_type counted)) /\
    (fines w = [] ->
       FinesSummary.total_amount summary = Int 0 /\
       FinesSummary.unpaid_amount summary = Int 0 /\
       FinesSummary.collected_amount summary = Int 0) /\
    (fines w <> [] -> exists x, FinesSummary.total_amount summary = Float x).
Proof.
  unfold FinesRouter.get_fines_summary. run. rewrite get_fines_run.
  set (counted := List.map FineRecord_of
                    (sql_limit 10000
                       (order_by_issued_at_desc (selected false (fines w))))).
  assert (Z.of_nat (length counted)
          = Z.min 10000 (Z.of_nat (length (fines w)))) as Hlen.
  { unfold counted, sql_limit. change (10000 <? 0)%Z with false.
    cbn match. rewrite length_map, length_firstn.
    rewrite order_perm, selected_all. lia. }
  clearbody counted.
  eexists _, counted. split; [reflexivity|]. split; [reflexivity|].
  cbn [FinesSummary.total_fines FinesSummary.unpaid_fines FinesSummary.paid_fines
       FinesSummary.fines_by_type FinesSummary.total_amount
       FinesSummary.unpaid_amount FinesSummary.collected_amount].
  split; [reflexivity|]. split; [exact Hlen|]. split; [reflexivity|].
  split; [|split; [apply count_by_type_lookup|split]].
  - pose proof (filter_split FineRecord.paid counted). lia.
  - intros Hempty. rewrite Hempty in Hlen. cbn [length] in Hlen.
    destruct counted; [|cbn [length] in Hlen; lia].
    repeat split; reflexivity.
  - intros Hsome. destruct (fines w) as [|f l]; [congruence|].
    destruct counted as [|r counted]; [cbn [length] in Hlen; lia|].
    apply (sum_floats_cases (List.map FineRecord.fine_amount (r :: counted))).
Qed.

(** ** The mock vehicles *)

Lemma ord_sum_perm (p q : str) : p ≡ₚ q -> ord_sum p = ord_sum q.
Proof.
  unfold ord_sum. induction 1 as [|c p q _ IH|c d p|p q r _ IH1 _ IH2];
    cbn [List.fold_right]; [reflexivity | now rewrite IH | lia | congruence].
Qed.

Lemma mock_name_listed (seed : Z) :
  In (List.nth (Z.to_nat (seed mod 9)) mock_names []) mock_names.
Proof.
  apply nth_In. change (length mock_names) with 9%nat.
  pose proof (Z.mod_pos_bound seed 9). lia.
Qed.

(** X20.  The mock status, used when the validator cannot be reached, is
    always returned, after one reading of the clock and with nothing else
    changed.  It carries the plate as given, an owner name from the list of
    nine (the index is never out of range), and an owner id of twelve
    decimal digits, each the successor modulo ten of the one before it.
    When the day counts drawn are positive, as those of [randint] are, the
    road tax is valid exactly when its expiry lies after the reading of the
    clock, and so the insurance. *)
Theorem mock_status_spec (env : Env) (w : World) (plate_number : str) :
  exists status name id tax_expiry insurance_expiry,
    _get_mock_status plate_number env w = (Return status, tick w) /\
    VehicleStatus.plate_number status = plate_number /\
    VehicleStatus.owner_name status = Some name /\ In name mock_names /\
    VehicleStatus.owner_id status = Some id /\
    length id = 12%nat /\
    (forall i c, id !! i = Some c -> (48 <= c <= 57)%N) /\
    (forall i c c', id !! i = Some c -> id !! S i = Some c' ->
       c' = if (c =? 57)%N then 48%N else (c + 1)%N) /\
    VehicleStatus.road_tax_expiry status = Some tax_expiry /\
    VehicleStatus.insurance_expiry status = Some insurance_expiry /\
    let draws := random_seeded env (ord_sum plate_number) in
    ((0 < MockDraws.randint1 draws)%Z ->
       VehicleStatus.road_tax_valid status = true <->
       (clock env (ticks w) < tax_expiry)%Z) /\
    ((0 < MockDraws.randint2 draws)%Z ->
       VehicleStatus.insurance_valid status = true <->
       (clock env (ticks w) < insurance_expiry)%Z).
Proof.
  unfold _get_mock_status. run. cbv zeta.
  set (seed := ord_sum plate_number).
  set (draws := random_seeded env seed).
  eexists _, _, _, _, _. split; [reflexivity|].
  cbn [VehicleStatus.plate_number VehicleStatus.owner_name VehicleStatus.owner_id
       VehicleStatus.road_tax_expiry VehicleStatus.insurance_expiry
       VehicleStatus.road_tax_valid VehicleStatus.insurance_valid].
  split; [reflexivity|]. split; [reflexivity|]. split; [apply mock_name_listed|].
  split; [reflexivity|]. split; [reflexivity|].
  assert (forall i c,
            List.map (fun i => digit ((seed * 7 + Z.of_nat i) mod 10)) (List.seq 0 12)
              !! i = Some c ->
            (i < 12)%nat /\ c = digit ((seed * 7 + Z.of_nat i) mod 10)) as Hdigit.
  { intros i c Hc.
    change (((fun i => digit ((seed * 7 + Z.of_nat i) mod 10)) <$> seq 0 12) !! i
            = Some c) in Hc.
    rewrite list_lookup_fmap in Hc.
    destruct (seq 0 12 !! i) as [k|] eqn:Hk; [|discriminate].
    apply lookup_seq in Hk as [-> Hk]. injection Hc as <-. now split. }
  split; [|split].
  - intros i c Hc. apply Hdigit in Hc as [_ ->]. unfold digit.
    pose proof (Z.mod_pos_bound (seed * 7 + Z.of_nat i) 10). lia.
  - intros i c c' Hc Hc'. apply Hdigit in Hc as [_ ->].
    apply Hdigit in Hc' as [_ ->]. unfold digit.
    rewrite Nat2Z.inj_succ.
    replace (seed * 7 + Z.succ (Z.of_nat i))%Z
      with ((seed * 7 + Z.of_nat i) + 1)%Z by lia.
    pose proof (Z.mod_pos_bound (seed * 7 + Z.of_nat i) 10 ltac:(lia)) as Hb.
    rewrite Z.add_mod by lia. change (1 mod 10)%Z with 1%Z.
    generalize dependent ((seed * 7 + Z.of_nat i) mod 10)%Z. intros d Hd.
    destruct (N.eqb_spec (48 + Z.to_N d) 57) as [H9|H9].
    + assert (d = 9%Z) as -> by lia. reflexivity.
    + rewrite Z.mod_small by lia. lia.
  - split; [reflexivity|]. split; [reflexivity|]. unfold days. split; intros Hpos.
    + destruct (MockDraws.random1 draws <? 0.6)%float; split; intros H;
        try reflexivity; try discriminate; lia.
    + destruct (MockDraws.random2 draws <? 0.7)%float; split; intros H;
        try reflexivity; try discriminate; lia.
Qed.

(** X21.  The mock vehicle depends on the plate through the sum of its
    character codes only: two plates with the same sum, such as two plates
    made of the same characters in another order, get the same owner, the
    same validity and the same expiry dates at one reading of the clock. *)
Theorem mock_status_by_character_sum (env : Env) (w : World)
    (plate_number other : str) :
  ord_sum plate_number = ord_sum other ->
  forall status status',
    fst (_get_mock_status plate_number env w) = Return status ->
    fst (_get_mock_status other env w) = Return status' ->
    VehicleStatus.owner_name status = VehicleStatus.owner_name status' /\
    VehicleStatus.owner_id status = VehicleStatus.owner_id status' /\
    VehicleStatus.road_tax_valid status = VehicleStatus.road_tax_valid status' /\
    VehicleStatus.road_tax_expiry status = VehicleStatus.road_tax_expiry status' /\
    VehicleStatus.insurance_valid status = VehicleStatus.insurance_valid status' /\
    VehicleStatus.insurance_expiry status = VehicleStatus.insurance_expiry status' /\
    VehicleStatus.is_compliant status = VehicleStatus.is_compliant status'.
Proof.
  intros Hsum status status'. unfold _get_mock_status. run. cbv zeta.
  rewrite Hsum. intros [= <-] [= <-]. repeat split; reflexivity.
Qed.

(** ["ABC123"] and ["321CBA"] get the same mock vehicle. *)
Lemma mock_status_by_character_sum_witness :
  ord_sum (lit "ABC123") = ord_sum (lit "321CBA") /\
  exists status status',
    fst (_get_mock_status (lit "ABC123") scenario_env start) = Return status /\
    fst (_get_mock_status (lit "321CBA") scenario_env start) = Return status' /\
    VehicleStatus.owner_name status = Some (lit "Wong Kar Wai") /\
    VehicleStatus.owner_name status' = Some (lit "Wong Kar Wai").
Proof.
  split; [reflexivity|]. eexists _, _.
  split; [reflexivity|]. split; [reflexivity|].
  destruct (mock_status_by_character_sum scenario_env start
              (lit "ABC123") (lit "321CBA") eq_refl _ _ eq_refl eq_refl)
    as [Hname _].
  split; [reflexivity|]. rewrite <- Hname. reflexivity.
Defined.

(** ** Characters *)

Lemma in_runs_members c runs : in_runs c runs = true -> In c (members runs).
Proof.
  unfold in_runs, members. induction runs as [|[lo hi] runs IH]; [discriminate|].
  cbn [existsb List.flat_map]. rewrite orb_true_iff, andb_true_iff, !N.leb_le.
  intros [[Hlo Hhi] | H]; apply in_or_app; [left | right; now apply IH].
  apply in_map_iff. exists (N.to_nat (c - lo)). split; [lia|].
  apply in_seq. lia.
Qed.

(** A property checked on the characters of the ranges holds of every
    character in them. *)
Lemma in_runs_forall (P : N -> bool) runs :
  forallb P (members runs) = true ->
  forall c, in_runs c runs = true -> P c = true.
Proof.
  intros H c Hc. rewrite forallb_forall in H. now apply H, in_runs_members.
Qed.



(** The letters and digits are the kept characters that are not blank. *)
Lemma letter_or_digit_kept c :
  letter_or_digit c = plate_character c && negb (isspace c).
Proof.
  unfold plate_character, letter_or_digit.
  destruct (isspace c) eqn:Hs; [|now rewrite orb_false_r, andb_true_r].
  rewrite andb_false_r.
  pose proof (in_runs_forall
                (fun c => negb (upper_letter c || digit_0_9 c)) whitespace
                ltac:(vm_compute; reflexivity) c Hs) as H.
  cbv beta in H. now apply negb_true_iff in H.
Qed.

Lemma plate_character_fixed c :
  letter_or_digit c = true \/ c = SPACE -> Unicode.to_upper_full c = [c].
Proof.
  intros Hc.
  assert (in_runs c [(65, 90); (48, 57); (32, 32)]%N = true) as Hk.
  { unfold in_runs. cbn [existsb].
    destruct Hc as [Hc | ->]; [|reflexivity].
    unfold letter_or_digit, upper_letter, digit_0_9 in Hc.
    rewrite orb_false_r, orb_assoc. now rewrite Hc. }
  pose proof (in_runs_forall
                (fun c => eqb_str (Unicode.to_upper_full c) [c])
                [(65, 90); (48, 57); (32, 32)]%N
                ltac:(vm_compute; reflexivity) c Hk) as H.
  cbv beta in H. now apply eqb_str_eq in H.
Qed.

Lemma member_not_kept c :
  Re.member not_A_Z_0_9_space c = negb (plate_character c).
Proof.
  unfold Re.member, not_A_Z_0_9_space, plate_character, upper_letter, digit_0_9.
  cbn [Re.negate Re.items existsb Re.holds]. rewrite orb_false_r.
  now rewrite orb_assoc.
Qed.

Lemma sub_filter s :
  Re.sub not_A_Z_0_9_space [] s = List.filter plate_character s.
Proof.
  unfold Re.sub. induction s as [|c s IH]; [reflexivity|].
  cbn [List.flat_map List.filter]. rewrite member_not_kept, IH.
  now destruct (plate_character c).
Qed.



(** ** Matching *)



















(** ** Words *)

Lemma split_from_app_word acc w s :
  (forall c, In c w -> isspace c = false) ->
  split_from acc (w ++ s) = split_from (acc ++ w) s.
Proof.
  revert acc. induction w as [|c w IH]; intros acc Hw;
    [now rewrite app_nil_r|].
  cbn [app split_from]. rewrite (Hw c (or_introl eq_refl)).
  rewrite IH by (intros d Hd; apply Hw; now right).
  now rewrite <- app_assoc.
Qed.

Lemma split_from_concat acc s :
  concat (split_from acc s) = acc ++ List.filter (fun c => negb (isspace c)) s.
Proof.
  revert acc. induction s as [|c s IH]; intros acc.
  - cbn [split_from List.filter]. destruct acc; [reflexivity|].
    cbn [concat]. now rewrite !app_nil_r.
  - cbn [split_from List.filter]. destruct (isspace c); cbn [negb].
    + destruct acc as [|a acc]; [apply IH|]. cbn [concat]. now rewrite IH.
    + rewrite IH. now rewrite <- app_assoc.
Qed.

Lemma split_from_words acc s w :
  (forall c, In c acc -> isspace c = false) ->
  In w (split_from acc s) ->
  w <> [] /\ forall c, In c w -> In c (acc ++ s) /\ isspace c = false.
Proof.
  revert acc. induction s as [|c s IH]; intros acc Hacc Hw.
  - cbn [split_from] in Hw. destruct acc as [|a acc]; [destruct Hw|].
    destruct Hw as [<- | []]. split; [discriminate|]. intros c Hc.
    rewrite app_nil_r. auto.
  - cbn [split_from] in Hw. destruct (isspace c) eqn:Hc.
    + assert (In w (split_from [] s) ->
              w <> [] /\ forall d, In d w -> In d (acc ++ c :: s) /\ isspace d = false)
        as Hrest.
      { intros H. destruct (IH [] (fun d Hd => match Hd with end) H) as [Hne Hin].
        split; [exact Hne|]. intros d Hd. destruct (Hin d Hd) as [Hs Hsp].
        split; [|exact Hsp]. apply in_or_app. right. now right. }
      destruct acc as [|a acc]; [now apply Hrest|].
      destruct Hw as [<- | Hw]; [|now apply Hrest].
      split; [discriminate|]. intros d Hd. split; [|now apply Hacc].
      apply in_or_app. now left.
    + assert (forall d, In d (acc ++ [c]) -> isspace d = false) as Hacc'.
      { intros d Hd. apply in_app_or in Hd as [Hd | [<- | []]]; auto. }
      destruct (IH _ Hacc' Hw) as [Hne Hin]. split; [exact Hne|].
      intros d Hd. destruct (Hin d Hd) as [Hs Hsp]. split; [|exact Hsp].
      now rewrite <- app_assoc in Hs.
Qed.

Lemma filter_filter {A} (f g : A -> bool) l :
  List.filter f (List.filter g l) = List.filter (fun x => g x && f x) l.
Proof.
  induction l as [|x l IH]; [reflexivity|]. cbn [List.filter].
  destruct (g x); cbn [andb List.filter]; [|exact IH].
  destruct (f x); now rewrite IH.
Qed.

Lemma filter_ext_eq {A} (f g : A -> bool) l :
  (forall x, f x = g x) -> List.filter f l = List.filter g l.
Proof.
  intros H. induction l as [|x l IH]; [reflexivity|]. cbn [List.filter].
  now rewrite H, IH.
Qed.

Lemma filter_all {A} (f : A -> bool) l :
  (forall x, In x l -> f x = true) -> List.filter f l = l.
Proof.
  induction l as [|x l IH]; [reflexivity|]. intros H. cbn [List.filter].
  rewrite (H x (or_introl eq_refl)). f_equal. apply IH. intros y Hy.
  apply H. now right.
Qed.

(** The words of a text from which the other characters were taken out. *)
Lemma split_kept_words s :
  Forall word (split (List.filter plate_character s)) /\
  concat (split (List.filter plate_character s)) = List.filter letter_or_digit s.
Proof.
  unfold split. split.
  - apply List.Forall_forall. intros w Hw.
    destruct (split_from_words [] _ w (fun d Hd => match Hd with end) Hw)
      as [Hne Hin].
    split; [exact Hne|]. intros c Hc. destruct (Hin c Hc) as [Hs Hsp].
    cbn [app] in Hs. apply filter_In in Hs as [_ Hk].
    now rewrite letter_or_digit_kept, Hk, Hsp.
  - rewrite split_from_concat. cbn [app]. rewrite filter_filter.
    apply filter_ext_eq. intros c. symmetry. apply letter_or_digit_kept.
Qed.

Lemma join_cons sep w w' ws :
  join sep (w :: w' :: ws) = w ++ sep ++ join sep (w' :: ws).
Proof. reflexivity. Qed.

Lemma letter_or_digit_not_space c : letter_or_digit c = true -> isspace c = false.
Proof.
  rewrite letter_or_digit_kept. intros H. apply andb_true_iff in H as [_ H].
  now apply negb_true_iff.
Qed.

Lemma word_not_space w c : word w -> In c w -> isspace c = false.
Proof. intros [_ Hw] Hc. now apply letter_or_digit_not_space, Hw. Qed.

Lemma In_join ws c :
  In c (join [SPACE] ws) -> c = SPACE \/ exists w, In w ws /\ In c w.
Proof.
  induction ws as [|w [|w' ws] IH]; [intros [] | |].
  - intros Hc. right. exists w. split; [now left | exact Hc].
  - rewrite join_cons. intros Hc. apply in_app_or in Hc as [Hc | [<- | Hc]].
    + right. exists w. split; [now left | exact Hc].
    + now left.
    + destruct (IH Hc) as [-> | (v & Hv & Hcv)]; [now left|].
      right. exists v. split; [now right | exact Hcv].
Qed.

Lemma join_characters ws c :
  Forall word ws -> In c (join [SPACE] ws) ->
  letter_or_digit c = true \/ c = SPACE.
Proof.
  intros Hws Hc. apply In_join in Hc as [-> | (w & Hw & Hc)]; [now right|].
  left. rewrite List.Forall_forall in Hws. now apply (Hws w Hw).
Qed.

Lemma filter_join (p : char -> bool) ws :
  (forall c, letter_or_digit c = true -> p c = true) -> p SPACE = false ->
  Forall word ws -> List.filter p (join [SPACE] ws) = concat ws.
Proof.
  intros Hp Hsp. induction ws as [|w [|w' ws] IH]; intros Hws; [reflexivity | |].
  - cbn [join concat]. rewrite app_nil_r. apply filter_all.
    intros c Hc. apply Hp. apply List.Forall_inv in Hws. now apply Hws.
  - rewrite join_cons. cbn [concat] in *. rewrite List.filter_app.
    cbn [app List.filter]. rewrite Hsp, IH by now apply List.Forall_inv_tail in Hws.
    f_equal. apply filter_all. intros c Hc. apply Hp.
    apply List.Forall_inv in Hws. now apply Hws.
Qed.

Lemma split_join ws : Forall word ws -> split (join [SPACE] ws) = ws.
Proof.
  unfold split. induction ws as [|w [|w' ws] IH]; intros Hws; [reflexivity | |].
  - cbn [join]. rewrite <- (app_nil_r w) at 1.
    apply List.Forall_inv in Hws.
    rewrite split_from_app_word by (intros c Hc; now apply (word_not_space w)).
    cbn [app split_from]. destruct w; [now destruct Hws | reflexivity].
  - rewrite join_cons. pose proof (List.Forall_inv Hws) as Hw.
    rewrite split_from_app_word by (intros c Hc; now apply (word_not_space w)).
    cbn [app split_from]. change (isspace SPACE) with true. cbn match.
    rewrite IH by now apply List.Forall_inv_tail in Hws.
    destruct w; [now destruct Hw | reflexivity].
Qed.

Lemma upper_fixed s :
  (forall c, In c s -> letter_or_digit c = true \/ c = SPACE) -> upper s = s.
Proof.
  induction s as [|c s IH]; [reflexivity|]. intros H.
  change (upper (c :: s)) with (Unicode.to_upper_full c ++ upper s).
  rewrite plate_character_fixed by (apply H; now left).
  rewrite IH by (intros d Hd; apply H; now right). reflexivity.
Qed.




Lemma clean_plate_text_words text :
  exists words,
    _clean_plate_text text = join [SPACE] words /\
    Forall word words /\
    concat words = List.filter letter_or_digit (upper text).
Proof.
  unfold _clean_plate_text. rewrite sub_filter.
  destruct (split_kept_words (upper text)) as [Hwords Hconcat].
  eexists. split; [reflexivity|]. split; assumption.
Qed.


Lemma clean_join ws :
  Forall word ws -> _clean_plate_text (join [SPACE] ws) = join [SPACE] ws.
Proof.
  intros Hws. unfold _clean_plate_text. rewrite sub_filter.
  rewrite upper_fixed by (intros c; now apply join_characters).
  rewrite (filter_all plate_character).
  - now rewrite split_join.
  - intros c Hc. destruct (join_characters ws c Hws Hc) as [H | ->]; [|reflexivity].
    rewrite letter_or_digit_kept in H. now apply andb_true_iff in H as [H _].
Qed.

Lemma normalize_join ws :
  Forall word ws -> _normalize_plate (join [SPACE] ws) = concat ws.
Proof.
  intros Hws. rewrite normalize_filter.
  rewrite upper_fixed by (intros c; now apply join_characters).
  apply filter_join; [|reflexivity | exact Hws].
  intros c Hc. unfold not_separator.
  unfold letter_or_digit, upper_letter, digit_0_9 in Hc.
  rewrite orb_true_iff, !andb_true_iff, !N.leb_le in Hc.
  rewrite andb_true_iff, !negb_true_iff, !N.eqb_neq. unfold SPACE, HYPHEN. lia.
Qed.

(** X22.  A cleaned text is made of words of the letters [A] to [Z] and
    the digits [0] to [9], one or more characters each, with one space
    between two words and none before the first or after the last.  Its
    letters and digits are those of the upper-cased text, in their order,
    and they are its key in the cache.  Cleaning a cleaned text changes
    nothing. *)
Theorem clean_plate_text_spec (text : str) :
  exists words,
    _clean_plate_text text = join [SPACE] words /\
    Forall word words /\
    concat words = List.filter letter_or_digit (upper text) /\
    _normalize_plate (_clean_plate_text text)
      = List.filter letter_or_digit (upper text) /\
    _clean_plate_text (_clean_plate_text text) = _clean_plate_text text /\
    split (_clean_plate_text text) = words.
Proof.
  destruct (clean_plate_text_words text) as (words & -> & Hwords & Hconcat).
  exists words. split; [reflexivity|]. split; [exact Hwords|].
  split; [exact Hconcat|]. split; [|split].
  - now rewrite normalize_join.
  - now apply clean_join.
  - now apply split_join.
Qed.

(** ** The plates that are read *)






(** ** Clearing the cache *)

(** X25.  Clearing the cache always returns and forgets every plate: the
    next lookup of any plate misses, with no reading of the clock, and
    counts as the first lookup; the statistics read zero entries, hits and
    misses, with a hit rate of 0.  The cooldown, the tables and the clock
    are as they were. *)
Theorem clear_forgets (env : Env) (w : World) (plate_number : str) :
  exists w',
    clear env w = (Return tt, w') /\
    PlateCache._cooldown (plate_cache w') = PlateCache._cooldown (plate_cache w) /\
    fines w' = fines w /\ scan_logs w' = scan_logs w /\ ticks w' = ticks w /\
    (exists w'',
       get_cached_result plate_number env w' = (Return None, w'') /\
       ticks w'' = ticks w /\
       PlateCache._hit_count (plate_cache w'') = 0%Z /\
       PlateCache._miss_count (plate_cache w'') = 1%Z) /\
    fst (is_recently_scanned plate_number env w') = Return false /\
    get_stats env w'
      = (Return {| CacheStats.total_entries := 0;
                   CacheStats.active_entries := 0;
                   CacheStats.expired_entries := 0;
                   CacheStats.hit_count := 0;
                   CacheStats.miss_count := 0;
                   CacheStats.hit_rate := 0 |}, w').
Proof.
  unfold clear. run. eexists. split; [reflexivity|].
  cbn [plate_cache fines scan_logs ticks PlateCache._cooldown].
  do 4 (split; [reflexivity|]). split; [|split].
  - eexists. split; [apply get_cached_result_absent; apply lookup_empty|].
    cbn. auto.
  - unfold is_recently_scanned. run. cbn [PlateCache._cache].
    now rewrite lookup_empty.
  - unfold get_stats. run. cbn [PlateCache._cache]. rewrite map_to_list_empty.
    reflexivity.
Qed.

(** ** The test fine *)

(** X26.  The test route issues a fine for ["TEST123"] of the sum of the
    two amounts of the policy, of type ["both"], not paid, whatever the
    cache holds and however often it is called: each call adds one more
    fine and one more log, and leaves the cache alone.  Only when the sum
    is zero does it issue none, and then it changes nothing. *)
Theorem test_fine_spec (env : Env) (w : World) :
  let amount :=
    (FineService._road_tax_fine (fine_service env)
     + FineService._insurance_fine (fine_service env))%float in
  if (amount =? 0)%float then test_fine env w = (Return None, w)
  else
    exists fine log w',
      test_fine env w = (Return (Some (FineRecord_of fine)), w') /\
      fines w' = fines w ++ [fine] /\
      scan_logs w' = scan_logs w ++ [log] /\
      plate_cache w' = plate_cache w /\
      Fine.id fine = next_id (List.map Fine.id (fines w)) /\
      Fine.plate_number fine = lit "TEST123" /\
      Fine.fine_amount fine = amount /\
      Fine.fine_type fine = lit "both" /\
      Fine.paid fine = false /\
      ScanLog.plate_number log = lit "TEST123" /\
      ScanLog.fine_issued log = true.
Proof.
  cbv zeta.
  set (mock_vehicle :=
         {| VehicleStatus.plate_number := lit "TEST123";
            VehicleStatus.owner_name := Some (lit "Test Owner");
            VehicleStatus.owner_id := Some (lit "123456789");
            VehicleStatus.road_tax_valid := false;
            VehicleStatus.road_tax_expiry := None;
            VehicleStatus.insurance_valid := false;
            VehicleStatus.insurance_expiry := None |}).
  change (test_fine env w) with (issue_fine mock_vehicle 0.95 env w).
  destruct (_ =? 0)%float eqn:Hzero.
  - apply issue_fine_zero. exact Hzero.
  - rewrite (issue_fine_issued env w mock_vehicle 0.95 eq_refl Hzero).
    eexists _, _, _. split; [reflexivity|].
    cbn [fines scan_logs plate_cache]. repeat split; reflexivity.
Qed.

(** ** The other scan route *)

(** X27.  [scan_frame_base64] never raises, and does on every image what
    [scan_frame] does on an upload that is not empty: it reports success
    exactly when the OCR service returned, with one result for each plate;
    when the OCR service raises it reports no success, no plate and no
    result, and the state is untouched. *)
Theorem scan_frame_base64_spec (env : Env) (w : World)
    (detected : Result (list PlateDetection.t)) (start_time end_time : float) :
  exists response w',
    scan_frame_base64 detected start_time end_time env w = (Return response, w') /\
    (forall b image_data,
       scan_frame (b :: image_data) detected start_time end_time env w
         = (Return response, w')) /\
    (ScanFrameResponse.success response = true <->
     exists plates, detected = Return plates) /\
    (forall plates,
       detected = Return plates ->
       process_plates plates env w = (Return (ScanFrameResponse.results response), w') /\
       ScanFrameResponse.plates_detected response = Z.of_nat (length plates) /\
       length (ScanFrameResponse.results response) = length plates) /\
    (ScanFrameResponse.success response = false ->
       w' = w /\
       ScanFrameResponse.plates_detected response = 0%Z /\
       ScanFrameResponse.results response = []).
Proof.
  unfold scan_frame_base64, scan_frame. run.
  destruct detected as [[|plate plates]|e].
  - eexists _, _. split; [reflexivity|]. split; [reflexivity|]. cbn.
    split; [split; [eauto | reflexivity]|].
    split; [|discriminate]. intros plates [= <-]. cbn. auto.
  - destruct (process_plates_returns env w (plate :: plates))
      as (results & w' & Hrun & Hlen & _).
    apply (f_equal (@length _)) in Hlen. rewrite !length_map in Hlen.
    rewrite Hrun. eexists _, _. split; [reflexivity|]. split; [reflexivity|]. cbn.
    split; [split; [eauto | reflexivity]|].
    split; [|discriminate]. intros plates' [= <-]. auto.
  - eexists _, _. split; [reflexivity|]. split; [reflexivity|]. cbn.
    split; [split; [discriminate | intros [plates H]; discriminate]|].
    split; [intros plates H; discriminate | auto].
Qed.
